(** * Protopal: the event-sourcing runtime of [src/protopal.ts]

    A shallow embedding of the runtime's core: the [EventBus] class, and the
    closures built by [createDecider], [createProjector] and
    [createProcessManager].

    - An [EventBus] owns a JavaScript [Set] of listeners.  The set is kept as
      ECMAScript specifies it: a list of entries in insertion order, where
      [delete] blanks an entry, [add] appends, and [forEach] walks the list by
      index, re-reading its length after every callback.
    - Listeners are function objects compared by reference; here a listener
      is a reference ([ListenerId]) into a table of closures.
    - Functions supplied by the application ([decide], [evolve], [project],
      [react], ...) may throw: they return a [Completion].
    - [dispatch] is an [async] function: it runs synchronously up to its
      [await], the rest runs later as a continuation, and an exception never
      reaches the caller but rejects the returned promise.
    - An observation log records, in program order, the calls the statements
      below are about. *)

From Stdlib Require Import ZArith Lia.
From stdpp Require Import base option list gmap strings.

Open Scope string_scope.
Open Scope list_scope.

(** ** References *)

Definition UnitId := nat.
Definition ProjectorId := nat.
Definition ListenerId := nat.

(** Every decider owns the bus created in [createDecider]; trace buses and
    free-standing buses ([new EventBus()]) are separate objects. *)
Inductive BusId :=
  | EventsOf (u : UnitId)
  | TraceBus (n : nat)
  | Channel (n : nat).

#[global] Instance BusId_eq_dec : EqDecision BusId.
Proof. solve_decision. Defined.

Definition BusId_encode (b : BusId) : nat + (nat + nat) :=
  match b with
  | EventsOf u => inl u
  | TraceBus n => inr (inl n)
  | Channel n => inr (inr n)
  end.

Definition BusId_decode (x : nat + (nat + nat)) : BusId :=
  match x with
  | inl u => EventsOf u
  | inr (inl n) => TraceBus n
  | inr (inr n) => Channel n
  end.

#[global] Instance BusId_countable : Countable BusId.
Proof.
  refine (inj_countable' BusId_encode BusId_decode _).
  intros []; reflexivity.
Defined.

Section Runtime.

(** The type parameters of the TypeScript generics, the thrown values, and
    what zod reports for a command that does not parse. *)
Context {TCommand TState TContext TEvent TReadState : Type}.
Context {Err ZodFormatted ZodIssue : Type}.

(** A call of an application function either returns or throws. *)
Inductive Completion (A : Type) :=
  | Return (a : A)
  | Throw (e : Err).
Arguments Return {A} a.
Arguments Throw {A} e.

(** [result.error] of a failed [safeParse]: [format()] and [issues]. *)
Record ZodError := {
  format : ZodFormatted;
  issues : list ZodIssue;
}.

Inductive SafeParse :=
  | ParseSuccess
  | ParseFailure (error : ZodError).

(** What sits on a decider's bus: the events returned by [decide], and the
    object built at lines 145-152, cast to [TEvent]. *)
Inductive Event :=
  | Domain (e : TEvent)
  | CommandValidationFailed (command : string) (errors : ZodFormatted)
      (issues : list ZodIssue).

(** [resolveContext] returns [Promise<TContext> | TContext], or throws. *)
Inductive Resolution :=
  | ResolveThrows (e : Err)
  | ResolveValue (context : TContext)
  | ResolvePromise (settles : Completion TContext).

Record DeciderConfig := {
  name : string;
  initialState : TState;
  commandSchema : option (TCommand -> SafeParse);
  decide : TCommand -> TState -> TContext -> Completion (list TEvent);
  evolve : TState -> TEvent -> Completion TState;
  resolveContext : TCommand -> Resolution;
}.

(** The entries of the trace, and the value handed to [emit]: an event on
    the bus of a decider, an entry on a trace bus.  A projector and a process
    manager log the value they were called with, whatever it is. *)
Inductive TraceEntry :=
  | TrCommand (timestamp : Z) (command : TCommand) (source : string)
  | TrContext (timestamp : Z) (command : TCommand) (context : TContext)
  | TrEvent (timestamp : Z) (event : Event) (causedBy : TCommand)
  | TrEvolve (timestamp : Z) (event : TEvent) (before after : TState)
  | TrProjection (timestamp : Z) (projector : string) (event : Msg)
  | TrProcessManager (timestamp : Z) (manager : string) (trigger : Msg)
      (commands : list TCommand)
  | TrError (timestamp : Z) (phase : string) (error : Err)
with Msg :=
  | MEvent (e : Event)
  | MTrace (t : TraceEntry).

Record ProjectorConfig := {
  pname : string;
  pinitialState : TReadState;
  project : TReadState -> Msg -> Completion TReadState;
}.

Record ProcessManagerConfig := {
  mname : string;
  filter : Msg -> Completion bool;
  react : Msg -> Completion (list TCommand);
}.

(** ** Observations *)

Inductive Obs :=
  | OEmit (b : BusId) (m : Msg)
  | ODeliver (b : BusId) (l : ListenerId) (m : Msg)
  | OEmitDone (b : BusId) (m : Msg)
  | ODispatch (u : UnitId) (c : TCommand) (source : string)
  | OResolve (u : UnitId) (c : TCommand)
  | ODecide (u : UnitId) (c : TCommand) (s : TState) (ctx : TContext)
  | OEvolve (u : UnitId) (e : TEvent) (before after : TState).

(** ** The heap *)

(** The part of a [dispatch] call after its [await]. *)
Record Continuation := {
  k_unit : UnitId;
  k_command : TCommand;
  k_settled : Completion TContext;
}.

Record World := {
  buses : gmap BusId (list (option ListenerId));
  ustate : gmap UnitId TState;
  rstate : gmap ProjectorId TReadState;
  tasks : list Continuation;
  awaiting : list Continuation;
  rejected : list Err;
  clock : Z;
  log : list Obs;
}.

Definition set_buses (bs : gmap BusId (list (option ListenerId))) (w : World) : World :=
  {| buses := bs; ustate := ustate w; rstate := rstate w; tasks := tasks w;
     awaiting := awaiting w; rejected := rejected w; clock := clock w;
     log := log w |}.

Definition set_ustate (us : gmap UnitId TState) (w : World) : World :=
  {| buses := buses w; ustate := us; rstate := rstate w; tasks := tasks w;
     awaiting := awaiting w; rejected := rejected w; clock := clock w;
     log := log w |}.

Definition set_rstate (rs : gmap ProjectorId TReadState) (w : World) : World :=
  {| buses := buses w; ustate := ustate w; rstate := rs; tasks := tasks w;
     awaiting := awaiting w; rejected := rejected w; clock := clock w;
     log := log w |}.

Definition set_tasks (ts : list Continuation) (w : World) : World :=
  {| buses := buses w; ustate := ustate w; rstate := rstate w; tasks := ts;
     awaiting := awaiting w; rejected := rejected w; clock := clock w;
     log := log w |}.

Definition set_awaiting (ks : list Continuation) (w : World) : World :=
  {| buses := buses w; ustate := ustate w; rstate := rstate w; tasks := tasks w;
     awaiting := ks; rejected := rejected w; clock := clock w;
     log := log w |}.

Definition set_rejected (es : list Err) (w : World) : World :=
  {| buses := buses w; ustate := ustate w; rstate := rstate w; tasks := tasks w;
     awaiting := awaiting w; rejected := es; clock := clock w;
     log := log w |}.

Definition set_log (os : list Obs) (w : World) : World :=
  {| buses := buses w; ustate := ustate w; rstate := rstate w; tasks := tasks w;
     awaiting := awaiting w; rejected := rejected w; clock := clock w;
     log := os |}.

Definition record (o : Obs) (w : World) : World := set_log (log w ++ [o]) w.
Definition records (os : list Obs) (w : World) : World := set_log (log w ++ os) w.

(** ** Closures *)

(** The calls a callback written by the application makes on the runtime. *)
Inductive Call :=
  | CEmit (b : BusId) (m : Msg)
  | CSubscribe (b : BusId) (l : ListenerId)
  | CUnsubscribe (b : BusId) (l : ListenerId)
  | CDispatch (u : UnitId) (c : TCommand)
  | CThrow (e : Err).

Inductive Closure :=
  | UserL (script : Msg -> World -> list Call)
  | FilterL (predicate : Msg -> Completion bool) (filtered : BusId)
  | ProjectorL (p : ProjectorId)
  | ProcessManagerL (config : ProcessManagerConfig) (target : UnitId)
      (trace : option BusId).

(** The program: what was passed to [createDecider] and [createProjector],
    the closure behind every listener reference, and the [type] field of a
    command. *)
Record Program := {
  dconfig : UnitId -> DeciderConfig;
  dtrace : UnitId -> option BusId;
  pconfig : ProjectorId -> ProjectorConfig;
  ptrace : ProjectorId -> option BusId;
  code : ListenerId -> Closure;
  type_of : TCommand -> option string;
}.

Variable P : Program.

(** [state.value] of a decider and of a projector. *)
Definition state_of (w : World) (u : UnitId) : TState :=
  default (initialState (dconfig P u)) (ustate w !! u).

Definition read_state_of (w : World) (p : ProjectorId) : TReadState :=
  default (pinitialState (pconfig P p)) (rstate w !! p).

Definition write_state (u : UnitId) (s : TState) (w : World) : World :=
  set_ustate (<[u := s]> (ustate w)) w.

Definition write_read_state (p : ProjectorId) (s : TReadState) (w : World) : World :=
  set_rstate (<[p := s]> (rstate w)) w.

(** ** EventBus *)

(** [this.listeners], the [[SetData]] list. *)
Definition listeners (w : World) (b : BusId) : list (option ListenerId) :=
  default [] (buses w !! b).

(** [Set.prototype.add] *)
Definition set_add (l : ListenerId) (data : list (option ListenerId)) :=
  if base.decide (Some l ∈ data) then data else data ++ [Some l].

(** [Set.prototype.delete] *)
Definition set_delete (l : ListenerId) (data : list (option ListenerId)) :=
  (fun e => if base.decide (e = Some l) then None else e) <$> data.

(** [subscribe(listener)], lines 49-52: [this.listeners.add(listener)]. *)
Definition subscribe (b : BusId) (l : ListenerId) (w : World) : World :=
  set_buses (<[b := set_add l (listeners w b)]> (buses w)) w.

(** The function returned by [subscribe]:
    [() => this.listeners.delete(listener)]. *)
Definition unsubscribe (b : BusId) (l : ListenerId) (w : World) : World :=
  set_buses (<[b := set_delete l (listeners w b)]> (buses w)) w.

(** ** Running code *)

Inductive Outcome :=
  | OutOfFuel
  | Normal (w : World)
  | Throws (e : Err) (w : World).

Definition bind (o : Outcome) (k : World -> Outcome) : Outcome :=
  match o with
  | Normal w => k w
  | _ => o
  end.

Definition try_catch (o : Outcome) (handler : Err -> World -> Outcome) : Outcome :=
  match o with
  | Throws e w => handler e w
  | _ => o
  end.

(** An [async] function does not throw: it rejects its promise.  The heap
    keeps the reasons of the rejections nobody handles. *)
Definition async (o : Outcome) : Outcome :=
  match o with
  | Throws e w => Normal (set_rejected (rejected w ++ [e]) w)
  | _ => o
  end.

Section WithEmit.

(** [emit] with the fuel it is given by its caller. *)
Variable emit' : BusId -> Msg -> World -> Outcome.

(** [trace?.emit(entry)] *)
Definition trace_emit (tr : option BusId) (t : TraceEntry) (w : World) : Outcome :=
  match tr with
  | Some tb => emit' tb (MTrace t) w
  | None => Normal w
  end.

(** [(command as any).type || 'unknown'], line 148. *)
Definition command_tag (c : TCommand) : string :=
  match type_of P c with
  | Some t => if base.decide (t = "") then "unknown" else t
  | None => "unknown"
  end.

(** The object of lines 145-152. *)
Definition validationEvent (c : TCommand) (error : ZodError) : Event :=
  CommandValidationFailed (command_tag c) (format error) (issues error).

(** [config.commandSchema.safeParse(command)], when a schema is given. *)
Definition validate (u : UnitId) (c : TCommand) : SafeParse :=
  match commandSchema (dconfig P u) with
  | Some schema => schema c
  | None => ParseSuccess
  end.

(** [dispatch], lines 137-182, up to the [await] of line 161. *)
Definition dispatch (u : UnitId) (c : TCommand) (source : string) (w : World) : Outcome :=
  let tr := dtrace P u in
  async
    (bind (trace_emit tr (TrCommand (clock w) c source) (record (ODispatch u c source) w))
       (fun w1 =>
          try_catch
            (match validate u c with
             | ParseFailure error =>
                 bind (trace_emit tr (TrEvent (clock w1) (validationEvent c error) c) w1)
                   (emit' (EventsOf u) (MEvent (validationEvent c error)))
             | ParseSuccess =>
                 let w2 := record (OResolve u c) w1 in
                 match resolveContext (dconfig P u) c with
                 | ResolveThrows e => Throws e w2
                 | ResolveValue ctx =>
                     Normal (set_tasks (tasks w2 ++
                       [{| k_unit := u; k_command := c; k_settled := Return ctx |}]) w2)
                 | ResolvePromise settles =>
                     Normal (set_awaiting (awaiting w2 ++
                       [{| k_unit := u; k_command := c; k_settled := settles |}]) w2)
                 end
             end)
            (fun error w' => trace_emit tr (TrError (clock w') "decide" error) w'))).

(** The loop of lines 252-254 over [targetDispatch], which
    [System.addProcessManager] sets to [(cmd) => target.dispatch(cmd)]. *)
Fixpoint dispatch_all (target : UnitId) (commands : list TCommand) (w : World) : Outcome :=
  match commands with
  | [] => Normal w
  | c :: rest => bind (dispatch target c "user" w) (dispatch_all target rest)
  end.

Definition run_call (c : Call) (w : World) : Outcome :=
  match c with
  | CEmit b m => emit' b m w
  | CSubscribe b l => Normal (subscribe b l w)
  | CUnsubscribe b l => Normal (unsubscribe b l w)
  | CDispatch u cmd => dispatch u cmd "user" w
  | CThrow e => Throws e w
  end.

Fixpoint run_script (script : list Call) (w : World) : Outcome :=
  match script with
  | [] => Normal w
  | c :: rest => bind (run_call c w) (run_script rest)
  end.

(** The listener of [filter], lines 56-58. *)
Definition filter_listener (predicate : Msg -> Completion bool) (filtered : BusId)
    (m : Msg) (w : World) : Outcome :=
  match predicate m with
  | Throw e => Throws e w
  | Return true => emit' filtered m w
  | Return false => Normal w
  end.

(** The listener of [createProjector], lines 211-218. *)
Definition projector_listener (p : ProjectorId) (event : Msg) (w : World) : Outcome :=
  try_catch
    (match project (pconfig P p) (read_state_of w p) event with
     | Throw e => Throws e w
     | Return s =>
         trace_emit (ptrace P p)
           (TrProjection (clock w) (pname (pconfig P p)) event)
           (write_read_state p s w)
     end)
    (fun error w' => trace_emit (ptrace P p) (TrError (clock w') "project" error) w').

(** The listener of [createProcessManager], lines 239-258. *)
Definition process_manager_listener (config : ProcessManagerConfig) (target : UnitId)
    (tr : option BusId) (event : Msg) (w : World) : Outcome :=
  match filter config event with
  | Throw e => Throws e w
  | Return false => Normal w
  | Return true =>
      try_catch
        (match react config event with
         | Throw e => Throws e w
         | Return commands =>
             bind (trace_emit tr
                     (TrProcessManager (clock w) (mname config) event commands) w)
               (dispatch_all target commands)
         end)
        (fun error w' => trace_emit tr (TrError (clock w') "process-manager" error) w')
  end.

(** [l(value)] *)
Definition call (l : ListenerId) (m : Msg) (w : World) : Outcome :=
  match code P l with
  | UserL script => run_script (script m w) w
  | FilterL predicate filtered => filter_listener predicate filtered m w
  | ProjectorL p => projector_listener p m w
  | ProcessManagerL config target tr => process_manager_listener config target tr m w
  end.

End WithEmit.

(** [emit(value)], lines 45-47: [this.listeners.forEach((l) => l(value))].
    [forEach] is the loop of [Set.prototype.forEach] from entry [index]. *)
Fixpoint emit (fuel : nat) (b : BusId) (m : Msg) (w : World) {struct fuel} : Outcome :=
  match fuel with
  | 0 => OutOfFuel
  | S fuel' =>
      bind (forEach fuel' b m 0 (record (OEmit b m) w))
        (fun w' => Normal (record (OEmitDone b m) w'))
  end
with forEach (fuel : nat) (b : BusId) (m : Msg) (index : nat) (w : World)
    {struct fuel} : Outcome :=
  match fuel with
  | 0 => OutOfFuel
  | S fuel' =>
      match listeners w b !! index with
      | None => Normal w
      | Some None => forEach fuel' b m (S index) w
      | Some (Some l) =>
          bind (call (emit fuel') l m (record (ODeliver b l m) w))
            (forEach fuel' b m (S index))
      end
  end.

(** ** The rest of [dispatch], after the [await] *)

(** The loop of lines 168-178 over the events returned by [decide]. *)
Fixpoint process (fuel : nat) (u : UnitId) (c : TCommand) (emitted : list TEvent)
    (w : World) : Outcome :=
  match emitted with
  | [] => Normal w
  | event :: rest =>
      bind (trace_emit (emit fuel) (dtrace P u) (TrEvent (clock w) (Domain event) c) w)
        (fun w1 =>
           let before := state_of w1 u in
           match evolve (dconfig P u) before event with
           | Throw e => Throws e w1
           | Return after =>
               let w2 := record (OEvolve u event before after) (write_state u after w1) in
               bind (trace_emit (emit fuel) (dtrace P u)
                       (TrEvolve (clock w2) event before after) w2)
                 (fun w3 =>
                    bind (emit fuel (EventsOf u) (MEvent (Domain event)) w3)
                      (process fuel u c rest))
           end)
  end.

(** Lines 161-181, once the awaited context has settled. *)
Definition resume (fuel : nat) (k : Continuation) (w : World) : Outcome :=
  let u := k_unit k in
  let c := k_command k in
  async
    (try_catch
       (match k_settled k with
        | Throw e => Throws e w
        | Return ctx =>
            bind (trace_emit (emit fuel) (dtrace P u) (TrContext (clock w) c ctx) w)
              (fun w1 =>
                 let s := state_of w1 u in
                 let w2 := record (ODecide u c s ctx) w1 in
                 match decide (dconfig P u) c s ctx with
                 | Throw e => Throws e w2
                 | Return emitted => process fuel u c emitted w2
                 end)
        end)
       (fun error w' =>
          trace_emit (emit fuel) (dtrace P u) (TrError (clock w') "decide" error) w')).

(** ** The event loop *)

(** Continuations whose context is available run in the order they were
    queued, each to completion. *)
Fixpoint drain (fuel : nat) (w : World) : Outcome :=
  match fuel with
  | 0 => OutOfFuel
  | S fuel' =>
      match tasks w with
      | [] => Normal w
      | k :: ks => bind (resume fuel' k (set_tasks ks w)) (drain fuel')
      end
  end.

(** What can happen between two runs of the queue: the application calls
    the runtime (an exception it does not catch is reported like a rejected
    promise, and the queue still runs), the promise of a waiting [dispatch]
    settles, or time passes. *)
Inductive Turn :=
  | UserCall (c : Call)
  | Settle (i : nat)
  | Tick (now : Z).

Definition set_clock (now : Z) (w : World) : World :=
  {| buses := buses w; ustate := ustate w; rstate := rstate w; tasks := tasks w;
     awaiting := awaiting w; rejected := rejected w; clock := now;
     log := log w |}.

Definition turn (fuel : nat) (t : Turn) (w : World) : Outcome :=
  match t with
  | UserCall c => bind (async (run_call (emit fuel) c w)) (drain fuel)
  | Settle i =>
      match awaiting w !! i with
      | None => Normal w
      | Some k => drain fuel (set_tasks (tasks w ++ [k]) (set_awaiting (delete i (awaiting w)) w))
      end
  | Tick now => Normal (set_clock now w)
  end.

Fixpoint run (fuel : nat) (schedule : list Turn) (w : World) : Outcome :=
  match schedule with
  | [] => Normal w
  | t :: rest => bind (turn fuel t w) (run fuel rest)
  end.

(** ** Vocabulary of the statements *)

(** [run], given enough fuel, ends in [o]. *)
Definition eventually (run : nat -> Outcome) (o : Outcome) : Prop :=
  exists n, forall fuel, n <= fuel -> run fuel = o.

(** A listener that, given [m], returns without calling the runtime: a
    callback that only reads the value or records it in private state. *)
Definition passive_on (m : Msg) (l : ListenerId) : Prop :=
  exists script, code P l = UserL script /\ forall w, script m w = [].

Definition passive (l : ListenerId) : Prop :=
  forall m, passive_on m l.

(** Every listener in a list of entries is passive on [m]. *)
Definition quiet_on (m : Msg) (data : list (option ListenerId)) : Prop :=
  forall l, Some l ∈ data -> passive_on m l.

Definition quiet (data : list (option ListenerId)) : Prop :=
  forall l, Some l ∈ data -> passive l.

Definition quiet_bus (w : World) (b : BusId) : Prop :=
  quiet (listeners w b).

(** The listeners of a [Set], in insertion order. *)
Definition live (data : list (option ListenerId)) : list ListenerId :=
  omap id data.

(** A [Set] holds a value at most once. *)
Definition set_wf (data : list (option ListenerId)) : Prop :=
  NoDup (live data).

Definition deliveries (b : BusId) (m : Msg) (ls : list ListenerId) : list Obs :=
  (fun l => ODeliver b l m) <$> ls.

(** What an emission to passive listeners leaves in the log. *)
Definition emission (b : BusId) (m : Msg) (data : list (option ListenerId)) : list Obs :=
  OEmit b m :: deliveries b m (live data) ++ [OEmitDone b m].

(** Fuel that suffices for an emission to passive listeners. *)
Definition fuel_for (w : World) (b : BusId) : nat :=
  length (listeners w b) + 2.

(** *** Reading the log *)

(** The listener calls made by [forEach] on bus [b]. *)
Definition delivered (b : BusId) (os : list Obs) : list (ListenerId * Msg) :=
  omap (fun o =>
          match o with
          | ODeliver b' l m => if base.decide (b' = b) then Some (l, m) else None
          | _ => None
          end) os.

(** The values listener [l] was called with on bus [b]. *)
Definition receipts (b : BusId) (l : ListenerId) (os : list Obs) : list Msg :=
  omap (fun o =>
          match o with
          | ODeliver b' l' m =>
              if base.decide (b' = b /\ l' = l) then Some m else None
          | _ => None
          end) os.

(** The values [emit] was called with on bus [b]. *)
Definition emitted_on (b : BusId) (os : list Obs) : list Msg :=
  omap (fun o =>
          match o with
          | OEmit b' m => if base.decide (b' = b) then Some m else None
          | _ => None
          end) os.

(** The commands [dispatch] of unit [u] was called with. *)
Definition dispatched (u : UnitId) (os : list Obs) : list TCommand :=
  omap (fun o =>
          match o with
          | ODispatch u' c _ => if base.decide (u' = u) then Some c else None
          | _ => None
          end) os.

(** The calls of [resolveContext] and [decide] of unit [u]. *)
Definition consulted (u : UnitId) (os : list Obs) : list Obs :=
  omap (fun o =>
          match o with
          | OResolve u' _ | ODecide u' _ _ _ =>
              if base.decide (u' = u) then Some o else None
          | _ => None
          end) os.

(** The calls of [decide] of unit [u]: command and state read. *)
Definition decided (u : UnitId) (os : list Obs) : list (TCommand * TState) :=
  omap (fun o =>
          match o with
          | ODecide u' c s _ => if base.decide (u' = u) then Some (c, s) else None
          | _ => None
          end) os.

(** The write side of unit [u]: its evolutions and the emissions on its
    bus, in program order. *)
Definition write_side (u : UnitId) (os : list Obs) : list Obs :=
  omap (fun o =>
          match o with
          | OEvolve u' _ _ _ => if base.decide (u' = u) then Some o else None
          | OEmit (EventsOf u') _ => if base.decide (u' = u) then Some o else None
          | _ => None
          end) os.

(** *** Observers *)

(** The observations that concern a decider: the steps of a [dispatch]
    call, and the emissions on the bus of a decider. *)
Definition about_deciders (o : Obs) : bool :=
  match o with
  | ODispatch _ _ _ | OResolve _ _ | ODecide _ _ _ _ | OEvolve _ _ _ _ => true
  | OEmit (EventsOf _) _ => true
  | _ => false
  end.

Definition decider_log (os : list Obs) : list Obs :=
  List.filter about_deciders os.

(** Two heaps with the same buses, queues, rejections and clock. *)
Definition frame (w w' : World) : Prop :=
  buses w' = buses w /\ tasks w' = tasks w /\ awaiting w' = awaiting w /\
  rejected w' = rejected w /\ clock w' = clock w.

(** A listener that observes.  On a heap with the buses [bs], whatever it
    is called with, it returns; it does not subscribe or unsubscribe, does
    not call [dispatch], and emits on no decider's bus.  It may write read
    models and emit on other buses: a passive callback is an observer, and
    so is a projector that traces on a bus of observers. *)
Definition harmless (bs : gmap BusId (list (option ListenerId))) (l : ListenerId) : Prop :=
  forall (m : Msg) (w : World),
    buses w = bs ->
    exists w' delta,
      eventually (fun fuel => call (emit fuel) l m w) (Normal w') /\
      frame w w' /\ ustate w' = ustate w /\
      log w' = log w ++ delta /\
      decider_log delta = [].

(** Every listener in a list of entries is an observer. *)
Definition calm (bs : gmap BusId (list (option ListenerId)))
    (data : list (option ListenerId)) : Prop :=
  forall l, Some l ∈ data -> harmless bs l.

Definition calm_bus (w : World) (b : BusId) : Prop :=
  calm (buses w) (listeners w b).

(** A trace bus, when there is one, is not the bus of a decider, and its
    listeners are observers. *)
Definition calm_trace (w : World) (tr : option BusId) : Prop :=
  match tr with
  | Some tb => (forall u, tb <> EventsOf u) /\ calm_bus w tb
  | None => True
  end.

(** *** What a batch of events should do *)

(** [evolve] folded over the events, from [s]. *)
Fixpoint fold_evolve (u : UnitId) (s : TState) (events : list TEvent) : Completion TState :=
  match events with
  | [] => Return s
  | e :: rest =>
      match evolve (dconfig P u) s e with
      | Return s' => fold_evolve u s' rest
      | Throw err => Throw err
      end
  end.

(** Event by event: evolve, then emit on the unit's bus. *)
Fixpoint batch (u : UnitId) (s : TState) (events : list TEvent) : list Obs :=
  match events with
  | [] => []
  | e :: rest =>
      match evolve (dconfig P u) s e with
      | Return s' =>
          OEvolve u e s s' :: OEmit (EventsOf u) (MEvent (Domain e)) :: batch u s' rest
      | Throw _ => []
      end
  end.

(** The state the loop over the events stops at: the last value [evolve]
    returned. *)
Fixpoint last_good (u : UnitId) (s : TState) (events : list TEvent) : TState :=
  match events with
  | [] => s
  | e :: rest =>
      match evolve (dconfig P u) s e with
      | Return s' => last_good u s' rest
      | Throw _ => s
      end
  end.

(** *** What a [dispatch] call should do *)

(** The awaited context becomes [ctx]. *)
Definition resolves (r : Resolution) (ctx : TContext) : Prop :=
  r = ResolveValue ctx \/ r = ResolvePromise (Return ctx).

(** What the [await] of line 161 yields, unless [resolveContext] threw. *)
Definition awaited (r : Resolution) : option (Completion TContext) :=
  match r with
  | ResolveThrows _ => None
  | ResolveValue ctx => Some (Return ctx)
  | ResolvePromise settles => Some settles
  end.

(** The continuation a [dispatch] call queues, when [resolveContext]
    returned a value, and the one it parks, when it returned a promise. *)
Definition queued (u : UnitId) (c : TCommand) : list Continuation :=
  match validate u c, resolveContext (dconfig P u) c with
  | ParseSuccess, ResolveValue ctx =>
      [{| k_unit := u; k_command := c; k_settled := Return ctx |}]
  | _, _ => []
  end.

Definition parked (u : UnitId) (c : TCommand) : list Continuation :=
  match validate u c, resolveContext (dconfig P u) c with
  | ParseSuccess, ResolvePromise settles =>
      [{| k_unit := u; k_command := c; k_settled := settles |}]
  | _, _ => []
  end.

(** The steps of a [dispatch] call up to its [await], and the exception
    its [catch] block sees there. *)
Definition dispatch_steps (u : UnitId) (c : TCommand) (source : string) : list Obs :=
  ODispatch u c source
  :: match validate u c with
     | ParseFailure error => [OEmit (EventsOf u) (MEvent (validationEvent c error))]
     | ParseSuccess => [OResolve u c]
     end.

Definition dispatch_error (u : UnitId) (c : TCommand) : option Err :=
  match validate u c, resolveContext (dconfig P u) c with
  | ParseSuccess, ResolveThrows e => Some e
  | _, _ => None
  end.

(** The events [decide] returns to a continuation, if it gets that far. *)
Definition decided_events (w : World) (k : Continuation) : list TEvent :=
  match k_settled k with
  | Throw _ => []
  | Return ctx =>
      match decide (dconfig P (k_unit k)) (k_command k) (state_of w (k_unit k)) ctx with
      | Throw _ => []
      | Return events => events
      end
  end.

(** The steps of a [dispatch] call after its [await], the state it leaves
    in the unit, and the exception its [catch] block sees. *)
Definition resume_steps (w : World) (k : Continuation) : list Obs :=
  match k_settled k with
  | Throw _ => []
  | Return ctx =>
      ODecide (k_unit k) (k_command k) (state_of w (k_unit k)) ctx
      :: batch (k_unit k) (state_of w (k_unit k)) (decided_events w k)
  end.

Definition resume_state (w : World) (k : Continuation) : TState :=
  last_good (k_unit k) (state_of w (k_unit k)) (decided_events w k).

Definition resume_error (w : World) (k : Continuation) : option Err :=
  match k_settled k with
  | Throw e => Some e
  | Return ctx =>
      match decide (dconfig P (k_unit k)) (k_command k) (state_of w (k_unit k)) ctx with
      | Throw e => Some e
      | Return events =>
          match fold_evolve (k_unit k) (state_of w (k_unit k)) events with
          | Throw e => Some e
          | Return _ => None
          end
      end
  end.

(** A [dispatch] call followed by the settlement of the promise it waits
    for, if any, with nothing in between. *)
Definition dispatch_alone (fuel : nat) (u : UnitId) (c : TCommand) (w : World) : Outcome :=
  run fuel [UserCall (CDispatch u c); Settle (length (awaiting w))] w.

(** *** Passive trace listeners *)

(** A trace bus, when there is one, has passive listeners only. *)
Definition quiet_trace (w : World) (tr : option BusId) : Prop :=
  match tr with
  | Some tb => quiet_bus w tb
  | None => True
  end.

(** What [trace?.emit(entry)] leaves in the log then. *)
Definition traced (w : World) (tr : option BusId) (t : TraceEntry) : list Obs :=
  match tr with
  | Some tb => emission tb (MTrace t) (listeners w tb)
  | None => []
  end.

(** *** What a projector should hold *)

(** [project] folded over the values the projector is called with, from
    [s]; a value on which [project] throws leaves the read state as it
    is. *)
Fixpoint fold_project (p : ProjectorId) (s : TReadState) (ms : list Msg) : TReadState :=
  match ms with
  | [] => s
  | m :: rest =>
      match project (pconfig P p) s m with
      | Return s' => fold_project p s' rest
      | Throw _ => fold_project p s rest
      end
  end.

(** *** What a run of the queue should do *)

(** [w'] is [w] with the continuations [qs] queued and [ps] parked. *)
Definition queues (qs ps : list Continuation) (w w' : World) : Prop :=
  buses w' = buses w /\ ustate w' = ustate w /\
  tasks w' = tasks w ++ qs /\ awaiting w' = awaiting w ++ ps /\
  rejected w' = rejected w /\ clock w' = clock w.

(** The continuations of a queue run one after the other, each on the
    states the ones before it left: the steps they take, and the state of
    unit [u] at the end. *)
Fixpoint queue_steps (w : World) (ks : list Continuation) : list Obs :=
  match ks with
  | [] => []
  | k :: rest =>
      resume_steps w k ++ queue_steps (write_state (k_unit k) (resume_state w k) w) rest
  end.

Fixpoint queue_state (w : World) (u : UnitId) (ks : list Continuation) : TState :=
  match ks with
  | [] => state_of w u
  | k :: rest => queue_state (write_state (k_unit k) (resume_state w k) w) u rest
  end.

(** *** A process manager between two units *)

(** The commands a process manager makes of a value: those [react]
    returns, when [filter] returns [true]. *)
Definition reaction (config : ProcessManagerConfig) (m : Msg) : list TCommand :=
  match filter config m with
  | Return true =>
      match react config m with
      | Return commands => commands
      | Throw _ => []
      end
  | _ => []
  end.

Definition reactions (config : ProcessManagerConfig) (events : list TEvent)
    : list TCommand :=
  flat_map (fun e => reaction config (MEvent (Domain e))) events.

(** Event by event: evolve, emit on the unit's bus, and there the calls of
    [dispatch] of the process manager's target. *)
Fixpoint reacting_batch (u : UnitId) (config : ProcessManagerConfig) (target : UnitId)
    (s : TState) (events : list TEvent) : list Obs :=
  match events with
  | [] => []
  | e :: rest =>
      match evolve (dconfig P u) s e with
      | Return s' =>
          OEvolve u e s s' :: OEmit (EventsOf u) (MEvent (Domain e))
          :: flat_map (fun c => dispatch_steps target c "user")
               (reaction config (MEvent (Domain e)))
          ++ reacting_batch u config target s' rest
      | Throw _ => []
      end
  end.

(** Listener [l] of the bus of unit [A] is a process manager with target
    [B]; the other listeners of that bus, those of the bus of [B] and those
    of the trace buses are observers. *)
Definition wired (w : World) (A B : UnitId) (pre post : list (option ListenerId))
    (l : ListenerId) (config : ProcessManagerConfig) (tr : option BusId) : Prop :=
  listeners w (EventsOf A) = pre ++ Some l :: post /\
  calm (buses w) pre /\ calm (buses w) post /\
  code P l = ProcessManagerL config B tr /\
  calm_trace w tr /\ calm_trace w (dtrace P A) /\ calm_trace w (dtrace P B) /\
  calm_bus w (EventsOf B).

(** ** System *)

(** [System], lines 265-362, keeps its deciders by name, and the functions
    returned by the [subscribe] calls it made: each deletes one listener
    from one bus.  The closures it subscribes are in the table of the
    program; the references passed to the functions below are those of what
    [createDecider], [createProjector] and [createProcessManager] have just
    built. *)
Record System := {
  deciders : gmap string UnitId;
  cleanups : list (BusId * ListenerId);
  trace : BusId;
  allEvents : BusId;
}.

(** The listener of lines 279-281:
    [this.traceLog.value = [entry, ...this.traceLog.value].slice(0, 200)]. *)
Definition collect (traceLog : list TraceEntry) (entry : TraceEntry) : list TraceEntry :=
  take 200 (entry :: traceLog).

(** [new System(enableConsoleTrace)], lines 276-305: [collector] is the
    listener of line 279, [console] that of line 286. *)
Definition new_system (trace_bus all_events : BusId) (collector : ListenerId)
    (console : option ListenerId) (w : World) : System * World :=
  let w1 := subscribe trace_bus collector w in
  match console with
  | None =>
      ({| deciders := ∅; cleanups := [(trace_bus, collector)];
          trace := trace_bus; allEvents := all_events |}, w1)
  | Some l =>
      ({| deciders := ∅; cleanups := [(trace_bus, collector); (trace_bus, l)];
          trace := trace_bus; allEvents := all_events |}, subscribe trace_bus l w1)
  end.

(** A call of the system either returns, or throws an [Error] with a
    message. *)
Inductive Wired :=
  | Done (s : System) (w : World)
  | Fails (message : string).

(** [cleanups.push(bus.subscribe(listener))] *)
Definition keep (b : BusId) (l : ListenerId) (s : System) (w : World) : Wired :=
  Done {| deciders := deciders s; cleanups := cleanups s ++ [(b, l)];
          trace := trace s; allEvents := allEvents s |}
       (subscribe b l w).

(** [addDecider(config)], lines 307-326: [u] is the decider made of
    [config], [forwarder] the listener of line 320. *)
Definition addDecider (u : UnitId) (forwarder : ListenerId) (s : System) (w : World)
    : Wired :=
  let n := name (dconfig P u) in
  match deciders s !! n with
  | Some _ => Fails ("Decider with name '" ++ n ++ "' already exists")%string
  | None =>
      keep (EventsOf u) forwarder
        {| deciders := <[n := u]> (deciders s); cleanups := cleanups s;
           trace := trace s; allEvents := allEvents s |} w
  end.

(** [addProjector(config, source)], lines 328-335: [l] is the listener of
    the projector. *)
Definition addProjector (l : ListenerId) (source : UnitId) (s : System) (w : World)
    : Wired :=
  keep (EventsOf source) l s w.

(** [addGlobalProjector(config)], lines 337-343. *)
Definition addGlobalProjector (l : ListenerId) (s : System) (w : World) : Wired :=
  keep (allEvents s) l s w.

(** [addProcessManager(config, source, target)], lines 345-357: [l] is the
    listener of the process manager. *)
Definition addProcessManager (l : ListenerId) (source : UnitId) (s : System) (w : World)
    : Wired :=
  keep (EventsOf source) l s w.

(** [destroy()], lines 359-361: [this.cleanups.forEach((fn) => fn())]. *)
Definition destroy (s : System) (w : World) : World :=
  foldl (fun w' '(b, l) => unsubscribe b l w') w (cleanups s).

(** The calls that wire a system, and a sequence of them; the sequence ends
    where a call throws. *)
Inductive Wiring :=
  | AddDecider (u : UnitId) (forwarder : ListenerId)
  | AddProjector (l : ListenerId) (source : UnitId)
  | AddGlobalProjector (l : ListenerId)
  | AddProcessManager (l : ListenerId) (source : UnitId).

Definition wire (op : Wiring) (s : System) (w : World) : Wired :=
  match op with
  | AddDecider u forwarder => addDecider u forwarder s w
  | AddProjector l source => addProjector l source s w
  | AddGlobalProjector l => addGlobalProjector l s w
  | AddProcessManager l source => addProcessManager l source s w
  end.

Fixpoint wire_all (ops : list Wiring) (s : System) (w : World) : Wired :=
  match ops with
  | [] => Done s w
  | op :: rest =>
      match wire op s w with
      | Done s' w' => wire_all rest s' w'
      | Fails message => Fails message
      end
  end.

(** *** What a [dispatch] call should trace *)

(** The entries of the loop over the events: for every event its 'event'
    entry and, when [evolve] returns, its 'evolve' entry; the loop ends
    where [evolve] throws. *)
Fixpoint batch_trace (u : UnitId) (c : TCommand) (now : Z) (s : TState)
    (events : list TEvent) : list TraceEntry :=
  match events with
  | [] => []
  | e :: rest =>
      TrEvent now (Domain e) c
      :: match evolve (dconfig P u) s e with
         | Return s' => TrEvolve now e s s' :: batch_trace u c now s' rest
         | Throw _ => []
         end
  end.

(** [traceLog.value], read off the log: the collector of line 279, listener
    [collector] of the trace bus [tb], folded over the entries it was called
    with. *)
Definition entry_of (m : Msg) : option TraceEntry :=
  match m with
  | MTrace t => Some t
  | MEvent _ => None
  end.

Definition traceLog (tb : BusId) (collector : ListenerId) (os : list Obs)
    : list TraceEntry :=
  foldl collect [] (omap entry_of (receipts tb collector os)).

End Runtime.

Arguments Return {Err A} a.
Arguments Throw {Err A} e.

(** * Example programs *)

(** A counter in the style of [examples/counter]: two deciders with the same
    configuration, a projector that counts increments, a process manager that
    mirrors the increments of unit 0 into unit 1, and a few callbacks written
    by the application. *)
Module Counter.

Inductive Command :=
  | Increment (amount : Z)
  | Decrement (amount : Z)
  | Transfer (amounts : list Z)
  | Audit (key : string).

Inductive CounterEvent :=
  | Incremented (amount : Z)
  | Decremented (amount : Z)
  | DecrementRejected (reason : string).

Definition Cfg := @DeciderConfig Command Z Z CounterEvent string string string.
Definition Prog := @Program Command Z Z CounterEvent nat string string string.
Definition Heap := @World Command Z Z CounterEvent nat string string string.
Definition Message := @Msg Command Z Z CounterEvent string string string.

(** The zod schema: amounts are positive. *)
Definition schema (c : Command) : @SafeParse string string :=
  match c with
  | Increment a | Decrement a =>
      if (0 <? a)%Z then ParseSuccess
      else ParseFailure {| format := "amount: Number must be greater than 0";
                           issues := ["too_small"] |}
  | _ => ParseSuccess
  end.

Definition counter : Cfg :=
  {| name := "counter";
     initialState := 0%Z;
     commandSchema := Some schema;
     decide := fun c value now =>
       match c with
       | Increment a => Return [Incremented a]
       | Decrement a =>
           if (value <? a)%Z then Return [DecrementRejected "cannot go below zero"]
           else Return [Decremented a]
       | Transfer amounts =>
           Return ((fun a => if (0 <=? a)%Z then Incremented a else Decremented (- a))
                     <$> amounts)
       | Audit key => Throw ("no audit of " ++ key)%string
       end;
     evolve := fun value e =>
       match e with
       | Incremented a => Return (value + a)%Z
       | Decremented a =>
           if (value <? a)%Z then Throw "negative value" else Return (value - a)%Z
       | DecrementRejected _ => Return value
       end;
     resolveContext := fun c =>
       match c with
       | Increment _ | Decrement _ => ResolveValue 0%Z
       | Transfer _ => ResolvePromise (Return 1%Z)
       | Audit "" => ResolveThrows "empty key"
       | Audit "remote" => ResolvePromise (Throw "unreachable")
       | Audit _ => ResolveValue 0%Z
       end |}.

(** Counts the increments; has no case for a rejection. *)
Definition increments : @ProjectorConfig Command Z Z CounterEvent nat string string string :=
  {| pname := "increments";
     pinitialState := 0;
     project := fun n e =>
       match e with
       | MEvent (Domain (Incremented _)) => Return (S n)
       | MEvent (Domain (Decremented _)) => Return n
       | _ => Throw "unexpected event"
       end |}.

(** Mirrors every increment of unit 0 into unit 1, and once more by one. *)
Definition mirror : @ProcessManagerConfig Command Z Z CounterEvent string string string :=
  {| mname := "mirror";
     filter := fun e =>
       match e with
       | MEvent (Domain (Incremented _)) => Return true
       | _ => Return false
       end;
     react := fun e =>
       match e with
       | MEvent (Domain (Incremented a)) => Return [Increment a; Increment 1]
       | _ => Return []
       end |}.

Definition first : Message := MEvent (Domain (Incremented 1)).
Definition second : Message := MEvent (Domain (Incremented 2)).

(** Listeners 0 and 1 only look at the value; 2 subscribes listener 3 to
    channel 0; 4 answers [first] with [second] on channel 0; 5 is the
    projector; 6 the process manager; 9 throws; 10 is the listener of a
    [filter] that lets the increments through to channel 1. *)
Definition program : Prog :=
  {| dconfig := fun _ => counter;
     dtrace := fun _ => Some (TraceBus 0);
     pconfig := fun _ => increments;
     ptrace := fun _ => Some (TraceBus 0);
     code := fun l =>
       match l with
       | 2 => UserL (fun _ _ => [CSubscribe (Channel 0) 3])
       | 4 => UserL (fun m _ =>
                match m with
                | MEvent (Domain (Incremented 1)) => [CEmit (Channel 0) second]
                | _ => []
                end)
       | 5 => ProjectorL 0
       | 6 => ProcessManagerL mirror 1 (Some (TraceBus 0))
       | 9 => UserL (fun _ _ => [CThrow "subscriber failed"])
       | 10 => FilterL (fun m =>
                 match m with
                 | MEvent (Domain (Incremented _)) => Return true
                 | _ => Return false
                 end) (Channel 1)
       | _ => UserL (fun _ _ => [])
       end;
     type_of := fun c =>
       match c with
       | Increment _ => Some "Increment"
       | Decrement _ => Some "Decrement"
       | Transfer _ => Some "Transfer"
       | Audit _ => Some "Audit"
       end |}.

Definition heap (bs : gmap BusId (list (option ListenerId))) : Heap :=
  {| buses := bs; ustate := ∅; rstate := ∅; tasks := []; awaiting := [];
     rejected := []; clock := 0; log := [] |}.

(** A decider watched by two passive listeners, with a trace listener. *)
Definition watched : Heap :=
  heap {[ EventsOf 0 := [Some 0; Some 1]; TraceBus 0 := [Some 7] ]}.

(** Channel 0 with the listener that subscribes another one. *)
Definition enrolling : Heap := heap {[ Channel 0 := [Some 0; Some 2; Some 1] ]}.

(** Channel 0 with the listener that emits again. *)
Definition echoing : Heap := heap {[ Channel 0 := [Some 0; Some 4; Some 1] ]}.

(** Unit 0 with the projector between two passive listeners. *)
Definition projected : Heap :=
  heap {[ EventsOf 0 := [Some 0; Some 5; Some 1]; TraceBus 0 := [Some 7] ]}.

(** Unit 0 with a passive listener, the projector and the filter, whose
    bus has a passive listener. *)
Definition observed : Heap :=
  heap {[ EventsOf 0 := [Some 0; Some 5; Some 10]; Channel 1 := [Some 1];
          TraceBus 0 := [Some 7] ]}.

(** The same heap once unit 0 has reached the value 2. *)
Definition advanced : Heap :=
  {| buses := {[ EventsOf 0 := [Some 0; Some 5; Some 10]; Channel 1 := [Some 1];
                 TraceBus 0 := [Some 7] ]};
     ustate := {[ 0 := 2%Z ]}; rstate := ∅; tasks := []; awaiting := [];
     rejected := []; clock := 0; log := [] |}.

(** Unit 0 with the process manager, unit 1 with a passive listener. *)
Definition mirrored : Heap :=
  heap {[ EventsOf 0 := [Some 0; Some 6; Some 1]; EventsOf 1 := [Some 8];
          TraceBus 0 := [Some 7] ]}.

(** Unit 0 with a subscriber that throws. *)
Definition fragile : Heap :=
  heap {[ EventsOf 0 := [Some 9; Some 1]; TraceBus 0 := [Some 7] ]}.

(** After a run: the states of units 0 and 1, the read state of the
    projector, and what was emitted on the buses of the two units. *)
Definition summary (o : @Outcome Command Z Z CounterEvent nat string string string)
    : option (Z * Z * nat * list Message * list Message) :=
  match o with
  | Normal w =>
      Some (state_of program w 0, state_of program w 1, read_state_of program w 0,
            emitted_on (EventsOf 0) (log w), emitted_on (EventsOf 1) (log w))
  | _ => None
  end.

(** The log of an outcome that is a normal return. *)
Definition log_of (o : @Outcome Command Z Z CounterEvent nat string string string)
    : option (list (@Obs Command Z Z CounterEvent string string string)) :=
  match o with
  | Normal w => Some (log w)
  | _ => None
  end.

End Counter.

(** A shop in the style of [examples/ecommerce]: a cart and the orders, a
    process manager that makes an order of a cart that is checked out, two
    process managers that fail, and a few callbacks written by the
    application. *)
Module Shop.

Inductive Command :=
  | AddItem (price : Z)
  | Checkout
  | CreateOrder (total : Z)
  | Untyped.

Inductive ShopEvent :=
  | ItemAdded (price : Z)
  | CartCheckedOut (total : Z)
  | OrderCreated (total : Z).

Definition Cfg := @DeciderConfig Command Z Z ShopEvent string string string.
Definition Prog := @Program Command Z Z ShopEvent (list Z) string string string.
Definition Heap := @World Command Z Z ShopEvent (list Z) string string string.
Definition Message := @Msg Command Z Z ShopEvent string string string.
Definition Manager := @ProcessManagerConfig Command Z Z ShopEvent string string string.

(** The zod schema of the cart: a discriminated union on [type], prices
    are positive. *)
Definition schema (c : Command) : @SafeParse string string :=
  match c with
  | AddItem p =>
      if (0 <? p)%Z then ParseSuccess
      else ParseFailure {| format := "price: Number must be greater than 0";
                           issues := ["too_small"] |}
  | Untyped =>
      ParseFailure {| format := "type: Invalid discriminator value";
                      issues := ["invalid_union_discriminator"] |}
  | _ => ParseSuccess
  end.

(** The state of the cart is the total of its items. *)
Definition cart : Cfg :=
  {| name := "Cart";
     initialState := 0%Z;
     commandSchema := Some schema;
     decide := fun c total now =>
       match c with
       | AddItem p => Return [ItemAdded p]
       | Checkout => Return [CartCheckedOut total]
       | _ => Return []
       end;
     evolve := fun total e =>
       match e with
       | ItemAdded p => Return (total + p)%Z
       | CartCheckedOut _ => Return 0%Z
       | OrderCreated _ => Return total
       end;
     resolveContext := fun _ => ResolveValue 0%Z |}.

(** The state of the orders is the revenue. *)
Definition orders : Cfg :=
  {| name := "Order";
     initialState := 0%Z;
     commandSchema := None;
     decide := fun c revenue now =>
       match c with
       | CreateOrder t => Return [OrderCreated t]
       | _ => Return []
       end;
     evolve := fun revenue e =>
       match e with
       | OrderCreated t => Return (revenue + t)%Z
       | _ => Return revenue
       end;
     resolveContext := fun _ => ResolveValue 0%Z |}.

(** The totals of the orders, newest first. *)
Definition history : @ProjectorConfig Command Z Z ShopEvent (list Z) string string string :=
  {| pname := "history";
     pinitialState := [];
     project := fun totals e =>
       match e with
       | MEvent (Domain (OrderCreated t)) => Return (t :: totals)
       | _ => Return totals
       end |}.

Definition checked_out (e : Message) : bool :=
  match e with
  | MEvent (Domain (CartCheckedOut _)) => true
  | _ => false
  end.

Definition large (e : Message) : bool :=
  match e with
  | MEvent (Domain (CartCheckedOut t)) => (100 <? t)%Z
  | _ => false
  end.

(** Cart to order: a cart that is checked out becomes an order. *)
Definition checkout : Manager :=
  {| mname := "CheckoutProcessManager";
     filter := fun e => Return (checked_out e);
     react := fun e =>
       match e with
       | MEvent (Domain (CartCheckedOut t)) => Return [CreateOrder t]
       | _ => Return []
       end |}.

(** A process manager whose [react] throws. *)
Definition loyalty : Manager :=
  {| mname := "LoyaltyProcessManager";
     filter := fun e => Return (checked_out e);
     react := fun _ => Throw "no customer" |}.

(** A process manager whose [filter] throws. *)
Definition screening : Manager :=
  {| mname := "ScreeningProcessManager";
     filter := fun _ => Throw "screening is down";
     react := fun _ => Return [] |}.

(** Listener 2 unsubscribes listener 1 from channel 0; 3 is the listener
    of a [filter] that lets the checkouts through to channel 1; 4, 5 and 6
    are the process managers; 9 throws; 12 is the projector; 15 is the
    listener of a [filter] that lets the large checkouts through to channel
    2; the others only look at the value. *)
Definition program : Prog :=
  {| dconfig := fun u => match u with 0 => cart | _ => orders end;
     dtrace := fun _ => Some (TraceBus 0);
     pconfig := fun _ => history;
     ptrace := fun _ => Some (TraceBus 0);
     code := fun l =>
       match l with
       | 2 => UserL (fun _ _ => [CUnsubscribe (Channel 0) 1])
       | 3 => FilterL (fun e => Return (checked_out e)) (Channel 1)
       | 4 => ProcessManagerL checkout 1 (Some (TraceBus 0))
       | 5 => ProcessManagerL loyalty 1 (Some (TraceBus 0))
       | 6 => ProcessManagerL screening 1 (Some (TraceBus 0))
       | 9 => UserL (fun _ _ => [CThrow "panel failed"])
       | 12 => ProjectorL 0
       | 15 => FilterL (fun e => Return (large e)) (Channel 2)
       | _ => UserL (fun _ _ => [])
       end;
     type_of := fun c =>
       match c with
       | AddItem _ => Some "AddItem"
       | Checkout => Some "Checkout"
       | CreateOrder _ => Some "CreateOrder"
       | Untyped => None
       end |}.

Definition heap (bs : gmap BusId (list (option ListenerId))) : Heap :=
  {| buses := bs; ustate := ∅; rstate := ∅; tasks := []; awaiting := [];
     rejected := []; clock := 0; log := [] |}.

Definition paid : Message := MEvent (Domain (CartCheckedOut 30)).
Definition splurge : Message := MEvent (Domain (CartCheckedOut 120)).

(** Channel 0 with the listener that unsubscribes another one. *)
Definition pruning : Heap := heap {[ Channel 0 := [Some 0; Some 2; Some 1; Some 7] ]}.

(** Channel 0 with the filter, whose bus has two passive listeners. *)
Definition filtering : Heap :=
  heap {[ Channel 0 := [Some 0; Some 3; Some 1]; Channel 1 := [Some 7; Some 8] ]}.

(** Channel 0 filtered twice: the checkouts on channel 1, the large ones
    among them on channel 2. *)
Definition funnel : Heap :=
  heap {[ Channel 0 := [Some 0; Some 3; Some 1]; Channel 1 := [Some 7; Some 15];
          Channel 2 := [Some 8] ]}.

(** The cart with the process manager whose [react] throws. *)
Definition rewarding : Heap :=
  heap {[ EventsOf 0 := [Some 0; Some 5; Some 1]; TraceBus 0 := [Some 7] ]}.

(** The cart with the process manager whose [filter] throws. *)
Definition screened : Heap :=
  heap {[ EventsOf 0 := [Some 0; Some 6; Some 1]; TraceBus 0 := [Some 7] ]}.

(** The cart with a trace listener that throws. *)
Definition debugging : Heap :=
  heap {[ EventsOf 0 := [Some 0]; TraceBus 0 := [Some 7; Some 9; Some 8] ]}.

(** The cart with two passive listeners. *)
Definition browsing : Heap :=
  heap {[ EventsOf 0 := [Some 0; Some 1]; TraceBus 0 := [Some 7] ]}.

(** A cart worth 30, wired to the orders. *)
Definition selling : Heap :=
  {| buses := {[ EventsOf 0 := [Some 0; Some 4; Some 1]; EventsOf 1 := [Some 8];
                 TraceBus 0 := [Some 7] ]};
     ustate := {[ 0 := 30%Z ]}; rstate := ∅; tasks := []; awaiting := [];
     rejected := []; clock := 0; log := [] |}.

(** A heap with two listeners the application subscribed itself, and the
    calls that set a system up on it: the cart and the orders (10 and 11
    are the listeners [addDecider] subscribes to their buses), the projector
    of the orders, the process manager between cart and orders, and a
    projector of all events. *)
Definition bare : Heap := heap {[ EventsOf 0 := [Some 0; Some 1] ]}.

Definition setup : list Wiring :=
  [AddDecider 0 10; AddDecider 1 11; AddProjector 12 1; AddProcessManager 4 0;
   AddGlobalProjector 13].

End Shop.

(** The todo list of [examples/todo/src/system.ts]: the [decide] and the
    [evolve] that [dispatch] calls for the decider named "Todo". *)
Module Todo.

Definition TodoId := string.
Definition Timestamp := string.

Inductive TodoStatus :=
  | Active (createdAt : Timestamp)
  | Completed (completedAt : Timestamp)
  | Archived (archivedAt : Timestamp).

(** A todo as [evolve] builds it.  The object spread of a todo that is not
    there copies nothing, so a field that [evolve] does not write may be
    undefined. *)
Record Todo := {
  id : option TodoId;
  text : option string;
  status : option TodoStatus;
}.

Inductive TodoCommand :=
  | AddTodo (id : TodoId) (text : string)
  | CompleteTodo (id : TodoId)
  | ReactivateTodo (id : TodoId)
  | ArchiveTodo (id : TodoId)
  | UpdateTodoText (id : TodoId) (text : string)
  | OtherCommand.

Inductive TodoEvent :=
  | TodoAdded (id : TodoId) (text : string) (createdAt : Timestamp)
  | TodoCompleted (id : TodoId) (completedAt : Timestamp)
  | TodoReactivated (id : TodoId) (reactivatedAt : Timestamp)
  | TodoArchived (id : TodoId) (archivedAt : Timestamp)
  | TodoTextUpdated (id : TodoId) (text : string) (updatedAt : Timestamp)
  | TodoCommandFailed (command reason : string)
  | OtherEvent.

(** [todos] is a plain object used as a map from the id to the todo. *)
Record TodoState := { todos : gmap TodoId Todo }.

Record TodoContext := { timestamp : Timestamp }.

(** Reading a property of [undefined] is the one error of [decide]. *)
Inductive JsError := TypeError.

Definition Decision := @Completion JsError (list TodoEvent).

Definition initialState : TodoState := {| todos := ∅ |}.

(** The properties that every plain object inherits from
    [Object.prototype]. *)
Definition inherited : list string :=
  [ "constructor"; "hasOwnProperty"; "isPrototypeOf"; "propertyIsEnumerable";
    "toLocaleString"; "toString"; "valueOf"; "__proto__";
    "__defineGetter__"; "__defineSetter__"; "__lookupGetter__";
    "__lookupSetter__" ].

(** [state.todos[id]]: the todo stored under the id, else what the
    prototype has under that name, else [undefined]. *)
Inductive Property :=
  | Own (todo : Todo)
  | Inherited
  | Undefined.

Definition get (state : TodoState) (id : TodoId) : Property :=
  match todos state !! id with
  | Some todo => Own todo
  | None => if base.decide (id ∈ inherited) then Inherited else Undefined
  end.

(** [todo.status.kind] for a [todo] that is not [undefined]: the functions
    and the object of the prototype have no [status], and neither has a todo
    that was spread from nothing. *)
Definition status_of (todo : Property) : @Completion JsError TodoStatus :=
  match todo with
  | Own todo =>
      match status todo with
      | Some s => Return s
      | None => Throw TypeError
      end
  | _ => Throw TypeError
  end.

Definition failed (command reason : string) : Decision :=
  Return [TodoCommandFailed command reason].

Definition decide (cmd : TodoCommand) (state : TodoState) (ctx : TodoContext)
    : Decision :=
  match cmd with
  | AddTodo id text =>
      match get state id with
      | Undefined => Return [TodoAdded id text (timestamp ctx)]
      | _ => failed "AddTodo" "Todo already exists"
      end
  | CompleteTodo id =>
      match get state id with
      | Undefined => failed "CompleteTodo" "Todo not found"
      | todo =>
          match status_of todo with
          | Throw e => Throw e
          | Return (Active _) => Return [TodoCompleted id (timestamp ctx)]
          | Return _ => failed "CompleteTodo" "Todo is not active"
          end
      end
  | ReactivateTodo id =>
      match get state id with
      | Undefined => failed "ReactivateTodo" "Todo not found"
      | todo =>
          match status_of todo with
          | Throw e => Throw e
          | Return (Completed _) => Return [TodoReactivated id (timestamp ctx)]
          | Return _ => failed "ReactivateTodo" "Todo is not completed"
          end
      end
  | ArchiveTodo id =>
      match get state id with
      | Undefined => failed "ArchiveTodo" "Todo not found"
      | todo =>
          match status_of todo with
          | Throw e => Throw e
          | Return (Archived _) => failed "ArchiveTodo" "Todo already archived"
          | Return _ => Return [TodoArchived id (timestamp ctx)]
          end
      end
  | UpdateTodoText id text =>
      match get state id with
      | Undefined => failed "UpdateTodoText" "Todo not found"
      | todo =>
          match status_of todo with
          | Throw e => Throw e
          | Return (Archived _) =>
              failed "UpdateTodoText" "Cannot edit archived todo"
          | Return _ => Return [TodoTextUpdated id text (timestamp ctx)]
          end
      end
  | OtherCommand => Return []
  end.

(** [{...state.todos[id]}]: the fields of the stored todo; [undefined] and
    what the prototype holds have no enumerable property of their own. *)
Definition spread (todo : Property) : Todo :=
  match todo with
  | Own todo => todo
  | _ => {| id := None; text := None; status := None |}
  end.

Definition with_status (todo : Todo) (s : TodoStatus) : Todo :=
  {| id := id todo; text := text todo; status := Some s |}.

Definition with_text (todo : Todo) (t : string) : Todo :=
  {| id := id todo; text := Some t; status := status todo |}.

Definition evolve (state : TodoState) (event : TodoEvent) : TodoState :=
  match event with
  | TodoAdded i t createdAt =>
      {| todos :=
           <[i := {| id := Some i; text := Some t;
                     status := Some (Active createdAt) |}]> (todos state) |}
  | TodoCompleted i completedAt =>
      {| todos :=
           <[i := with_status (spread (get state i)) (Completed completedAt)]>
             (todos state) |}
  | TodoReactivated i reactivatedAt =>
      {| todos :=
           <[i := with_status (spread (get state i)) (Active reactivatedAt)]>
             (todos state) |}
  | TodoArchived i archivedAt =>
      {| todos :=
           <[i := with_status (spread (get state i)) (Archived archivedAt)]>
             (todos state) |}
  | TodoTextUpdated i t _ =>
      {| todos := <[i := with_text (spread (get state i)) t]> (todos state) |}
  | TodoCommandFailed _ _ => state
  | OtherEvent => state
  end.

(** What [dispatch] makes of the state for one command that has passed the
    schema, and its context: the events of [decide] folded by [evolve]; the
    state stays when [decide] throws. *)
Definition handle (state : TodoState) (call : TodoCommand * TodoContext)
    : TodoState :=
  match decide call.1 state call.2 with
  | Return events => foldl evolve state events
  | Throw _ => state
  end.

(** The state after a sequence of such commands, from the initial state. *)
Definition replay (calls : list (TodoCommand * TodoContext)) : TodoState :=
  foldl handle initialState calls.

(** [todoCommandSchema], lines 39-76: a discriminated union on [type]; the
    id is not empty and the text has 1 to 500 characters.  [units s] stands
    for [s.length], the number of UTF-16 code units of the string. *)
Definition commandSchema (units : string -> nat) (cmd : TodoCommand) : bool :=
  match cmd with
  | AddTodo id text | UpdateTodoText id text =>
      (1 <=? units id)%nat && (1 <=? units text)%nat && (units text <=? 500)%nat
  | CompleteTodo id | ReactivateTodo id | ArchiveTodo id => (1 <=? units id)%nat
  | OtherCommand => false
  end.

(** What [dispatch] makes of the state for any command: a command that the
    schema refuses is answered by a validation event and is not decided
    (lines 142-157 of [src/protopal.ts]). *)
Definition dispatched (units : string -> nat) (state : TodoState)
    (call : TodoCommand * TodoContext) : TodoState :=
  if commandSchema units call.1 then handle state call else state.

(** The state after the commands of a session, from the initial state, in
    the order in which their contexts were resolved. *)
Definition session (units : string -> nat)
    (calls : list (TodoCommand * TodoContext)) : TodoState :=
  foldl (dispatched units) initialState calls.

(** [cmd.payload.id] *)
Definition target (cmd : TodoCommand) : option TodoId :=
  match cmd with
  | AddTodo i _ | CompleteTodo i | ReactivateTodo i | ArchiveTodo i
  | UpdateTodoText i _ => Some i
  | OtherCommand => None
  end.

(** A stored todo that has its key as id, a text and a status. *)
Definition complete (i : TodoId) (todo : Todo) : Prop :=
  id todo = Some i /\ is_Some (text todo) /\ is_Some (status todo).

Definition sound (state : TodoState) : Prop :=
  forall i todo, todos state !! i = Some todo ->
    complete i todo /\ i ∉ inherited.

(** A session: two todos are added, one is completed and then archived. *)
Definition at_time (now : Timestamp) : TodoContext := {| timestamp := now |}.

Definition morning : list (TodoCommand * TodoContext) :=
  [ (AddTodo "milk" "Buy milk", at_time "2024-05-01T09:00:00.000Z");
    (AddTodo "post" "Send the letter", at_time "2024-05-01T09:05:00.000Z");
    (CompleteTodo "milk", at_time "2024-05-01T10:00:00.000Z");
    (ArchiveTodo "milk", at_time "2024-05-01T10:30:00.000Z") ].

(** Two commands that the schema refuses, and one that it accepts. *)
Definition typos : list (TodoCommand * TodoContext) :=
  [ (AddTodo "" "Call the bank", at_time "2024-05-02T08:00:00.000Z");
    (AddTodo "bank" "", at_time "2024-05-02T08:01:00.000Z");
    (AddTodo "rent" "Pay the rent", at_time "2024-05-02T08:02:00.000Z") ].


End Todo.

(** * Properties *)

(** Every statement gives the outcome of a run for all sufficiently large
    fuel ([eventually]).  A statement about [emit] alone, or about a
    projector, is made for a bus whose other listeners are passive; a
    statement about [dispatch], or about a process manager, is made for
    buses whose other listeners are observers ([harmless]): callbacks that
    only look at the value, projectors, listeners of [filter]. *)

Section Theory.

Context {TCommand TState TContext TEvent TReadState : Type}.
Context {Err ZodFormatted ZodIssue : Type}.

Local Abbreviation Program :=
  (@Program TCommand TState TContext TEvent TReadState Err ZodFormatted ZodIssue).
Local Abbreviation World :=
  (@World TCommand TState TContext TEvent TReadState Err ZodFormatted ZodIssue).
Local Abbreviation Obs :=
  (@Obs TCommand TState TContext TEvent Err ZodFormatted ZodIssue).
Local Abbreviation Msg :=
  (@Msg TCommand TState TContext TEvent Err ZodFormatted ZodIssue).
Local Abbreviation Outcome :=
  (@Outcome TCommand TState TContext TEvent TReadState Err ZodFormatted ZodIssue).

Local Abbreviation Resolution := (@Resolution TContext Err).
Local Abbreviation Continuation := (@Continuation TCommand TContext Err).

Variable P : Program.

(** ** The log *)

Lemma records_nil (w : World) : records [] w = w.
Proof. destruct w. unfold records, set_log. simpl. by rewrite app_nil_r. Qed.

Lemma records_records (os1 os2 : list Obs) (w : World) :
  records os2 (records os1 w) = records (os1 ++ os2) w.
Proof. unfold records, set_log. simpl. by rewrite app_assoc. Qed.

Lemma record_records (o : Obs) (os : list Obs) (w : World) :
  records os (record o w) = records (o :: os) w.
Proof. unfold record. fold (records [o] w). by rewrite records_records. Qed.

Lemma records_record (o : Obs) (os : list Obs) (w : World) :
  record o (records os w) = records (os ++ [o]) w.
Proof. unfold record. fold (records [o] (records os w)). by rewrite records_records. Qed.

Lemma listeners_record (o : Obs) (w : World) (b : BusId) :
  listeners (record o w) b = listeners w b.
Proof. reflexivity. Qed.

Lemma listeners_records (os : list Obs) (w : World) (b : BusId) :
  listeners (records os w) b = listeners w b.
Proof. reflexivity. Qed.

Ltac same_listeners :=
  repeat first [rewrite listeners_records | rewrite listeners_record].

Ltac list_norm :=
  repeat first [rewrite app_nil_r | rewrite <- app_assoc
               | rewrite <- app_comm_cons | progress simpl].

(** ** Sets of listeners *)

Lemma live_app (d1 d2 : list (option ListenerId)) : live (d1 ++ d2) = live d1 ++ live d2.
Proof. apply omap_app. Qed.

Lemma elem_of_live (l : ListenerId) (data : list (option ListenerId)) :
  l ∈ live data <-> Some l ∈ data.
Proof.
  unfold live. rewrite list_elem_of_omap. split.
  - intros (x & Hx & Hid). simpl in Hid. by subst.
  - intros H. by exists (Some l).
Qed.

Lemma quiet_on_app (m : Msg) (d1 d2 : list (option ListenerId)) :
  quiet_on P m (d1 ++ d2) <-> quiet_on P m d1 /\ quiet_on P m d2.
Proof.
  unfold quiet_on. split.
  - intros H. split; intros l Hl; apply H; apply elem_of_app; auto.
  - intros [H1 H2] l Hl. apply elem_of_app in Hl as [Hl | Hl]; auto.
Qed.

Lemma quiet_quiet_on (m : Msg) (data : list (option ListenerId)) :
  quiet P data -> quiet_on P m data.
Proof. intros H l Hl. by apply H. Qed.

(** ** One step of [emit] and of [forEach] *)

Lemma emit_S (fuel : nat) (b : BusId) (m : Msg) (w : World) :
  emit P (S fuel) b m w
  = bind (forEach P fuel b m 0 (record (OEmit b m) w))
      (fun w' => Normal (record (OEmitDone b m) w')).
Proof. reflexivity. Qed.

Lemma forEach_S (fuel : nat) (b : BusId) (m : Msg) (index : nat) (w : World) :
  forEach P (S fuel) b m index w
  = match listeners w b !! index with
    | None => Normal w
    | Some None => forEach P fuel b m (S index) w
    | Some (Some l) =>
        bind (call P (emit P fuel) l m (record (ODeliver b l m) w))
          (forEach P fuel b m (S index))
    end.
Proof. reflexivity. Qed.

(** ** Lists of passive listeners *)

Lemma quiet_nil : quiet P [].
Proof. intros l Hl. by apply elem_of_nil in Hl. Qed.

Lemma quiet_cons (l : ListenerId) (data : list (option ListenerId)) :
  passive P l -> quiet P data -> quiet P (Some l :: data).
Proof.
  intros Hl Hq l' Hl'. apply elem_of_cons in Hl' as [Heq | Hin]; [by simplify_eq |].
  by apply Hq.
Qed.

Lemma quiet_cons_None (data : list (option ListenerId)) :
  quiet P data -> quiet P (None :: data).
Proof.
  intros Hq l' Hl'. apply elem_of_cons in Hl' as [Heq | Hin]; [done |]. by apply Hq.
Qed.

(** ** Calling passive listeners *)

Lemma call_passive_on (emit' : BusId -> Msg -> World -> Outcome) (l : ListenerId)
    (m : Msg) (w : World) :
  passive_on P m l -> call P emit' l m w = Normal w.
Proof.
  intros (script & Hcode & Hscript). unfold call. rewrite Hcode, Hscript. reflexivity.
Qed.

(** [forEach] over entries that are all passive: each live entry is called,
    in order, and nothing but the log changes. *)
Lemma forEach_quiet (b : BusId) (m : Msg) (fuel : nat) :
  forall (index : nat) (w : World),
    quiet_on P m (drop index (listeners w b)) ->
    S (length (listeners w b) - index) <= fuel ->
    forEach P fuel b m index w
    = Normal (records (deliveries b m (live (drop index (listeners w b)))) w).
Proof.
  induction fuel as [| fuel IH]; intros index w Hq Hfuel; [lia |].
  simpl. destruct (listeners w b !! index) as [[l |] |] eqn:Hi.
  - rewrite (drop_S _ _ _ Hi) in Hq |- *.
    rewrite call_passive_on by (apply Hq; left).
    simpl. rewrite IH; rewrite ?listeners_record.
    + simpl. by rewrite record_records.
    + intros l' Hl'. apply Hq. by right.
    + apply lookup_lt_Some in Hi. lia.
  - rewrite (drop_S _ _ _ Hi) in Hq |- *.
    rewrite IH.
    + reflexivity.
    + intros l' Hl'. apply Hq. by right.
    + apply lookup_lt_Some in Hi. lia.
  - apply lookup_ge_None in Hi. rewrite drop_ge by done.
    simpl. by rewrite records_nil.
Qed.

Lemma emit_quiet_on (b : BusId) (m : Msg) (w : World) (fuel : nat) :
  quiet_on P m (listeners w b) ->
  fuel_for w b <= fuel ->
  emit P fuel b m w = Normal (records (emission b m (listeners w b)) w).
Proof.
  intros Hq Hfuel. unfold fuel_for in Hfuel.
  destruct fuel as [| fuel]; [lia |]. simpl.
  rewrite forEach_quiet; rewrite ?listeners_record, ?drop_0.
  - simpl. rewrite record_records, records_record. reflexivity.
  - done.
  - lia.
Qed.

Lemma emit_quiet (b : BusId) (m : Msg) (w : World) (fuel : nat) :
  quiet_bus P w b ->
  fuel_for w b <= fuel ->
  emit P fuel b m w = Normal (records (emission b m (listeners w b)) w).
Proof. intros Hq. apply emit_quiet_on. by apply quiet_quiet_on. Qed.


(** ** Reading deliveries off the log *)

Lemma delivered_app (b : BusId) (os1 os2 : list Obs) :
  delivered b (os1 ++ os2) = delivered b os1 ++ delivered b os2.
Proof. apply omap_app. Qed.

Lemma delivered_deliveries (b : BusId) (m : Msg) (ls : list ListenerId) :
  delivered b (deliveries b m ls) = (fun l => (l, m)) <$> ls.
Proof.
  induction ls as [| l ls IH]; [reflexivity |].
  change (deliveries b m (l :: ls)) with ([ODeliver b l m] ++ deliveries b m ls).
  rewrite delivered_app, IH. unfold delivered. simpl.
  by rewrite decide_True.
Qed.

Lemma receipts_app (b : BusId) (l : ListenerId) (os1 os2 : list Obs) :
  receipts b l (os1 ++ os2) = receipts b l os1 ++ receipts b l os2.
Proof. apply omap_app. Qed.

Lemma receipts_deliveries_absent (b : BusId) (m : Msg) (f : ListenerId)
    (ls : list ListenerId) :
  f ∉ ls -> receipts b f (deliveries b m ls) = [].
Proof.
  induction ls as [| l ls IH]; [reflexivity |].
  intros Hf. apply not_elem_of_cons in Hf as [Hne Hf].
  change (deliveries b m (l :: ls)) with ([ODeliver b l m] ++ deliveries b m ls).
  rewrite receipts_app, IH by done. unfold receipts. simpl.
  rewrite decide_False; [done |]. intros [_ ?]; congruence.
Qed.

Lemma receipts_deliveries_once (b : BusId) (m : Msg) (f : ListenerId)
    (ls : list ListenerId) :
  NoDup ls -> f ∈ ls -> receipts b f (deliveries b m ls) = [m].
Proof.
  induction 1 as [| l ls Hl Hnd IH]; intros Hf; [by apply elem_of_nil in Hf |].
  apply elem_of_cons in Hf as [-> | Hf].
  - change (deliveries b m (l :: ls)) with ([ODeliver b l m] ++ deliveries b m ls).
    rewrite receipts_app, receipts_deliveries_absent by done.
    unfold receipts. simpl. by rewrite decide_True.
  - change (deliveries b m (l :: ls)) with ([ODeliver b l m] ++ deliveries b m ls).
    rewrite receipts_app, IH by done.
    unfold receipts. simpl. rewrite decide_False; [done |].
    intros [_ ->]. contradiction.
Qed.

Lemma receipts_emission (b : BusId) (m : Msg) (f : ListenerId)
    (data : list (option ListenerId)) :
  receipts b f (emission b m data) = receipts b f (deliveries b m (live data)).
Proof.
  unfold emission. change (OEmit b m :: ?x) with ([OEmit b m] ++ x).
  rewrite !receipts_app. simpl. by rewrite app_nil_r.
Qed.

(** ** [Set.prototype.add] and [Set.prototype.delete] *)

Lemma set_add_present (l : ListenerId) (data : list (option ListenerId)) :
  Some l ∈ data -> set_add l data = data.
Proof. intros H. unfold set_add. by rewrite decide_True. Qed.

Lemma set_add_absent (l : ListenerId) (data : list (option ListenerId)) :
  Some l ∉ data -> set_add l data = data ++ [Some l].
Proof. intros H. unfold set_add. by rewrite decide_False. Qed.

Lemma elem_of_set_add (l : ListenerId) (data : list (option ListenerId)) :
  Some l ∈ set_add l data.
Proof.
  unfold set_add. case_decide; [done |]. apply elem_of_app. right. by left.
Qed.

Lemma set_add_idempotent (l : ListenerId) (data : list (option ListenerId)) :
  set_add l (set_add l data) = set_add l data.
Proof. apply set_add_present, elem_of_set_add. Qed.

Lemma set_add_wf (l : ListenerId) (data : list (option ListenerId)) :
  set_wf data -> set_wf (set_add l data).
Proof.
  unfold set_wf, set_add. intros Hwf. case_decide as Hin; [done |].
  rewrite live_app. simpl. apply NoDup_app. split; [done |]. split.
  - intros x Hx Hx'. apply list_elem_of_singleton in Hx' as ->.
    apply Hin. by apply elem_of_live.
  - apply NoDup_singleton.
Qed.

Lemma live_set_delete (l : ListenerId) (data : list (option ListenerId)) :
  l ∉ live (set_delete l data).
Proof.
  rewrite elem_of_live. unfold set_delete. rewrite list_elem_of_fmap.
  intros (e & He & _). case_decide; congruence.
Qed.

Lemma listeners_subscribe (b : BusId) (l : ListenerId) (w : World) :
  listeners (subscribe b l w) b = set_add l (listeners w b).
Proof. unfold subscribe, listeners at 1. simpl. by rewrite lookup_insert_eq. Qed.

Lemma listeners_unsubscribe (b : BusId) (l : ListenerId) (w : World) :
  listeners (unsubscribe b l w) b = set_delete l (listeners w b).
Proof. unfold unsubscribe, listeners at 1. simpl. by rewrite lookup_insert_eq. Qed.

Lemma subscribe_idempotent (b : BusId) (l : ListenerId) (w : World) :
  subscribe b l (subscribe b l w) = subscribe b l w.
Proof.
  unfold subscribe at 1. rewrite listeners_subscribe, set_add_idempotent.
  unfold subscribe, set_buses. simpl. by rewrite insert_insert_eq.
Qed.

Lemma quiet_on_set_add (m : Msg) (l : ListenerId) (data : list (option ListenerId)) :
  quiet_on P m data -> passive_on P m l -> quiet_on P m (set_add l data).
Proof.
  intros Hq Hl. unfold set_add. case_decide; [done |].
  apply quiet_on_app. split; [done |].
  intros l' Hl'. apply list_elem_of_singleton in Hl'. by simplify_eq.
Qed.

Lemma quiet_on_set_delete (m : Msg) (l : ListenerId) (data : list (option ListenerId)) :
  quiet_on P m data -> quiet_on P m (set_delete l data).
Proof.
  intros Hq l' Hl'. unfold set_delete in Hl'. apply list_elem_of_fmap in Hl'.
  destruct Hl' as (e & He & Hin). case_decide; [done |]. subst e. by apply Hq.
Qed.

(** C10. Subscribing a listener that is already subscribed changes nothing:
    the second [subscribe] leaves the bus as the first one left it, a
    following [emit] calls the listener exactly once, and after the
    function returned by [subscribe] has run (both calls return the same
    [delete] of the same listener) an [emit] does not call it at all.
    The listeners of the bus return without calling the runtime. *)
Theorem subscribe_twice_delivers_once (w : World) (b : BusId) (f : ListenerId) (m : Msg) :
  set_wf (listeners w b) ->
  quiet_on P m (listeners w b) ->
  passive_on P m f ->
  let w1 := subscribe b f w in
  let w2 := subscribe b f w1 in
  w2 = w1 /\
  (exists delta, receipts b f delta = [m] /\
     eventually (fun fuel => emit P fuel b m w2) (Normal (records delta w2))) /\
  (exists delta, receipts b f delta = [] /\
     eventually (fun fuel => emit P fuel b m (unsubscribe b f w2))
       (Normal (records delta (unsubscribe b f w2)))).
Proof.
  intros Hwf Hq Hf w1 w2.
  assert (Hw2 : w2 = w1) by apply subscribe_idempotent.
  split; [done |]. rewrite Hw2. split.
  - exists (emission b m (listeners w1 b)). split.
    + rewrite receipts_emission. apply receipts_deliveries_once.
      * unfold w1. rewrite listeners_subscribe. by apply set_add_wf.
      * apply elem_of_live. unfold w1. rewrite listeners_subscribe.
        apply elem_of_set_add.
    + exists (fuel_for w1 b). intros fuel Hfuel. apply emit_quiet_on; [| done].
      unfold w1. rewrite listeners_subscribe. by apply quiet_on_set_add.
  - exists (emission b m (listeners (unsubscribe b f w1) b)). split.
    + rewrite receipts_emission. apply receipts_deliveries_absent.
      rewrite listeners_unsubscribe. apply live_set_delete.
    + exists (fuel_for (unsubscribe b f w1) b).
      intros fuel Hfuel. apply emit_quiet_on; [| done].
      rewrite listeners_unsubscribe. apply quiet_on_set_delete.
      unfold w1. rewrite listeners_subscribe. by apply quiet_on_set_add.
Qed.

(** ** [forEach] on a live set *)

(** [forEach] walks through passive entries and goes on from the entry
    behind them. *)
Lemma forEach_passive_prefix (b : BusId) (m : Msg) (pre : list (option ListenerId)) :
  forall (rest : list (option ListenerId)) (fuel index : nat) (w : World),
    drop index (listeners w b) = pre ++ rest ->
    quiet_on P m pre ->
    forEach P (length pre + fuel) b m index w
    = forEach P fuel b m (index + length pre) (records (deliveries b m (live pre)) w).
Proof.
  induction pre as [| e pre IH]; intros rest fuel index w Hdrop Hq.
  - simpl. by rewrite Nat.add_0_r, records_nil.
  - assert (Hi : listeners w b !! index = Some e).
    { rewrite <- (Nat.add_0_r index), <- lookup_drop, Hdrop. reflexivity. }
    assert (Hdrop' : drop (S index) (listeners w b) = pre ++ rest).
    { rewrite (drop_S _ _ _ Hi) in Hdrop. simpl in Hdrop. by injection Hdrop. }
    assert (Hq' : quiet_on P m pre).
    { intros l Hl. apply Hq. by right. }
    change (length (e :: pre) + fuel) with (S (length pre + fuel)).
    rewrite forEach_S. rewrite Hi. destruct e as [l |].
    + rewrite call_passive_on by (apply Hq; left). cbn [bind].
      rewrite (IH rest) by done.
      rewrite record_records. cbn [length]. f_equal. lia.
    + rewrite (IH rest) by done. cbn [length]. f_equal. lia.
Qed.

Lemma listeners_lookup_middle (pre post : list (option ListenerId)) (e : option ListenerId) :
  (pre ++ e :: post) !! length pre = Some e.
Proof. by rewrite list_lookup_middle. Qed.

Lemma drop_after_middle (pre rest : list (option ListenerId)) (e : option ListenerId) :
  drop (S (length pre)) (pre ++ e :: rest) = rest.
Proof.
  rewrite (cons_middle e), app_assoc. apply drop_app_length'.
  rewrite length_app. simpl. lia.
Qed.

(** C6, as the code has it.  [forEach] walks the live set: when a listener
    of the bus subscribes a new listener while a value is being delivered,
    [emit] calls every listener that was registered when the emission
    started, in registration order, and then calls the new listener with
    the same value.  The other listeners return without calling the
    runtime. *)
Theorem emit_reaches_late_subscriber (w : World) (b : BusId) (m : Msg)
    (pre post : list (option ListenerId)) (a n : ListenerId)
    (script : Msg -> World -> list Call) :
  listeners w b = pre ++ Some a :: post ->
  quiet_on P m pre ->
  quiet_on P m post ->
  code P a = UserL script ->
  (forall w', script m w' = [CSubscribe b n]) ->
  passive_on P m n ->
  Some n ∉ listeners w b ->
  exists delta,
    delivered b delta = (fun l => (l, m)) <$> (live (listeners w b) ++ [n]) /\
    eventually (fun fuel => emit P fuel b m w) (Normal (subscribe b n (records delta w))).
Proof.
  intros Hdata Hpre Hpost Hcode Hscript Hn Hfresh.
  set (delta := [OEmit b m] ++ deliveries b m (live pre) ++ [ODeliver b a m]
                ++ deliveries b m (live (post ++ [Some n])) ++ [OEmitDone b m]).
  exists delta. split.
  - unfold delta. rewrite !delivered_app, !delivered_deliveries. simpl.
    rewrite decide_True by done. rewrite Hdata, !live_app. simpl.
    rewrite app_nil_r, !fmap_app. simpl. by rewrite <- !app_assoc.
  - exists (length (listeners w b) + 4). intros fuel Hfuel.
    destruct fuel as [| fuel]; [lia |]. rewrite emit_S.
    replace fuel with (length pre + (fuel - length pre))
      by (rewrite Hdata, length_app in Hfuel; simpl in Hfuel; lia).
    rewrite (forEach_passive_prefix b m pre (Some a :: post));
      [| by rewrite listeners_record, drop_0 | done].
    rewrite record_records. simpl.
    destruct (fuel - length pre) as [| fuel'] eqn:Hfuel'.
    { rewrite Hdata, length_app in Hfuel. simpl in Hfuel. lia. }
    rewrite forEach_S. rewrite listeners_records, Hdata, listeners_lookup_middle.
    unfold call at 1. rewrite Hcode, Hscript. cbn [run_script run_call bind].
    rewrite forEach_quiet.
    + rewrite listeners_subscribe, ?listeners_record, ?listeners_records.
      rewrite set_add_absent by done. rewrite Hdata.
      replace (drop (S (length pre)) ((pre ++ Some a :: post) ++ [Some n]))
        with (post ++ [Some n]).
      2:{ rewrite <- app_assoc. simpl. by rewrite drop_after_middle. }
      cbn [bind]. f_equal. unfold delta, subscribe, records, record, set_buses, set_log.
      simpl. f_equal. rewrite <- !app_assoc. reflexivity.
    + rewrite listeners_subscribe, ?listeners_record, ?listeners_records.
      rewrite set_add_absent by done. rewrite Hdata.
      rewrite <- app_assoc. simpl. rewrite drop_after_middle.
      apply quiet_on_app. split; [done |].
      intros l Hl. apply list_elem_of_singleton in Hl. by simplify_eq.
    + rewrite listeners_subscribe, ?listeners_record, ?listeners_records.
      rewrite set_add_absent by done. rewrite Hdata in Hfuel |- *.
      rewrite !length_app in Hfuel. rewrite !length_app.
      cbn [length] in Hfuel |- *. lia.
Qed.

(** C7, as the code has it.  [emit] is an ordinary synchronous call: when
    a listener, called with [v], emits [v'] on the same bus, the inner
    emission runs at once and to its end, inside that listener's call; the
    listeners behind it receive [v'] before they receive [v].  The other
    listeners return without calling the runtime. *)
Theorem nested_emit_runs_inside_delivery (w : World) (b : BusId) (v v' : Msg)
    (pre post : list (option ListenerId)) (a : ListenerId)
    (script : Msg -> World -> list Call) :
  listeners w b = pre ++ Some a :: post ->
  quiet P pre ->
  quiet P post ->
  code P a = UserL script ->
  (forall w', script v w' = [CEmit b v']) ->
  (forall w', script v' w' = []) ->
  eventually (fun fuel => emit P fuel b v w)
    (Normal (records
       ([OEmit b v] ++ deliveries b v (live pre) ++ [ODeliver b a v]
        ++ emission b v' (listeners w b)
        ++ deliveries b v (live post) ++ [OEmitDone b v]) w)).
Proof.
  intros Hdata Hpre Hpost Hcode Hv Hv'.
  exists (2 * length (listeners w b) + 5). intros fuel Hfuel.
  assert (Hlen : length (listeners w b) = length pre + S (length post)).
  { rewrite Hdata, length_app. reflexivity. }
  destruct fuel as [| fuel]; [lia |]. rewrite emit_S.
  replace fuel with (length pre + (fuel - length pre)) by lia.
  rewrite (forEach_passive_prefix b v pre (Some a :: post));
    [| by rewrite listeners_record, drop_0 | by apply quiet_quiet_on].
  rewrite record_records. simpl.
  destruct (fuel - length pre) as [| fuel'] eqn:Hfuel'; [lia |].
  rewrite forEach_S. rewrite listeners_records, Hdata, listeners_lookup_middle.
  unfold call at 1. rewrite Hcode, Hv. cbn [run_script run_call].
  rewrite emit_quiet_on.
  - cbn [bind]. rewrite forEach_quiet.
    + same_listeners. rewrite Hdata, drop_after_middle.
      cbn [bind]. f_equal. rewrite !records_records, record_records.
      rewrite records_records, records_record. f_equal.
      unfold emission. by list_norm.
    + same_listeners. rewrite Hdata, drop_after_middle.
      by apply quiet_quiet_on.
    + same_listeners. lia.
  - same_listeners. rewrite Hdata.
    apply quiet_on_app. split; [by apply quiet_quiet_on |].
    intros l Hl. apply elem_of_cons in Hl as [Hl | Hl].
    + simplify_eq. by exists script.
    + apply (Hpost l Hl).
  - unfold fuel_for. same_listeners. lia.
Qed.

(** ** Enough fuel *)

Lemma eventually_now (o : Outcome) : eventually (fun _ => o) o.
Proof. by exists 0. Qed.

Lemma eventually_bind (f : nat -> Outcome) (g : nat -> World -> Outcome) (w1 : World)
    (o : Outcome) :
  eventually f (Normal w1) ->
  eventually (fun fuel => g fuel w1) o ->
  eventually (fun fuel => bind (f fuel) (g fuel)) o.
Proof.
  intros [n1 H1] [n2 H2]. exists (n1 + n2). intros fuel Hfuel.
  rewrite H1 by lia. cbn. apply H2. lia.
Qed.

Lemma eventually_try_normal (f : nat -> Outcome) (h : nat -> Err -> World -> Outcome)
    (w1 : World) :
  eventually f (Normal w1) ->
  eventually (fun fuel => try_catch (f fuel) (h fuel)) (Normal w1).
Proof. intros [n H]. exists n. intros fuel Hfuel. by rewrite H. Qed.

Lemma eventually_try_throws (f : nat -> Outcome) (h : nat -> Err -> World -> Outcome)
    (e : Err) (w1 : World) (o : Outcome) :
  eventually f (Throws e w1) ->
  eventually (fun fuel => h fuel e w1) o ->
  eventually (fun fuel => try_catch (f fuel) (h fuel)) o.
Proof.
  intros [n1 H1] [n2 H2]. exists (n1 + n2). intros fuel Hfuel.
  rewrite H1 by lia. cbn. apply H2. lia.
Qed.

Lemma eventually_async (f : nat -> Outcome) (w1 : World) :
  eventually f (Normal w1) ->
  eventually (fun fuel => async (f fuel)) (Normal w1).
Proof. intros [n H]. exists n. intros fuel Hfuel. by rewrite H. Qed.

Ltac ev_bind w1 :=
  match goal with
  | |- eventually (fun fuel => bind (@?f fuel) (@?g fuel)) ?o =>
      apply (eventually_bind f g w1 o); cbn beta
  end.

Ltac ev_try_normal :=
  match goal with
  | |- eventually (fun fuel => try_catch (@?f fuel) (@?h fuel)) (Normal ?w1) =>
      apply (eventually_try_normal f h w1); cbn beta
  end.

Ltac ev_try_throws e w1 :=
  match goal with
  | |- eventually (fun fuel => try_catch (@?f fuel) (@?h fuel)) ?o =>
      apply (eventually_try_throws f h e w1 o); cbn beta
  end.

Ltac ev_async :=
  match goal with
  | |- eventually (fun fuel => async (@?f fuel)) (Normal ?w1) =>
      apply (eventually_async f w1); cbn beta
  end.

(** One step of [emit], of [forEach] and of [drain]. *)
Lemma eventually_emit (b : BusId) (m : Msg) (w : World) (o : Outcome) :
  eventually (fun fuel => bind (forEach P fuel b m 0 (record (OEmit b m) w))
                            (fun w' => Normal (record (OEmitDone b m) w'))) o ->
  eventually (fun fuel => emit P fuel b m w) o.
Proof.
  intros [n H]. exists (S n). intros [| fuel] Hfuel; [lia |].
  rewrite emit_S. apply H. lia.
Qed.

Lemma eventually_forEach_end (b : BusId) (m : Msg) (index : nat) (w : World) :
  listeners w b !! index = None ->
  eventually (fun fuel => forEach P fuel b m index w) (Normal w).
Proof.
  intros Hi. exists 1. intros [| fuel] Hfuel; [lia |]. by rewrite forEach_S, Hi.
Qed.

Lemma eventually_forEach_skip (b : BusId) (m : Msg) (index : nat) (w : World)
    (o : Outcome) :
  listeners w b !! index = Some None ->
  eventually (fun fuel => forEach P fuel b m (S index) w) o ->
  eventually (fun fuel => forEach P fuel b m index w) o.
Proof.
  intros Hi [n H]. exists (S n). intros [| fuel] Hfuel; [lia |].
  rewrite forEach_S, Hi. apply H. lia.
Qed.

Lemma eventually_forEach_call (b : BusId) (m : Msg) (index : nat) (w : World)
    (l : ListenerId) (o : Outcome) :
  listeners w b !! index = Some (Some l) ->
  eventually (fun fuel => bind (call P (emit P fuel) l m (record (ODeliver b l m) w))
                            (forEach P fuel b m (S index))) o ->
  eventually (fun fuel => forEach P fuel b m index w) o.
Proof.
  intros Hi [n H]. exists (S n). intros [| fuel] Hfuel; [lia |].
  rewrite forEach_S, Hi. apply H. lia.
Qed.

Lemma eventually_drain_idle (w : World) :
  tasks w = [] -> eventually (fun fuel => drain P fuel w) (Normal w).
Proof.
  intros Ht. exists 1. intros [| fuel] Hfuel; [lia |]. cbn [drain]. by rewrite Ht.
Qed.

Lemma eventually_drain_step (k : Continuation) (ks : list Continuation) (w : World)
    (o : Outcome) :
  tasks w = k :: ks ->
  eventually (fun fuel => bind (resume P fuel k (set_tasks ks w)) (drain P fuel)) o ->
  eventually (fun fuel => drain P fuel w) o.
Proof.
  intros Ht [n H]. exists (S n). intros [| fuel] Hfuel; [lia |].
  cbn [drain]. rewrite Ht. apply H. lia.
Qed.

(** ** The steps of the deciders in a log *)

Lemma decider_log_app (os1 os2 : list Obs) :
  decider_log (os1 ++ os2) = decider_log os1 ++ decider_log os2.
Proof. apply List.filter_app. Qed.

Lemma omap_decider_log {A : Type} (f : Obs -> option A) (os : list Obs) :
  (forall o, about_deciders o = false -> f o = None) ->
  omap f (decider_log os) = omap f os.
Proof.
  intros Hf. unfold decider_log. induction os as [| o os IH]; [done |].
  cbn [List.filter]. destruct (about_deciders o) eqn:Ho.
  - change (o :: ?x) with ([o] ++ x). by rewrite !omap_app, IH.
  - change (o :: os) with ([o] ++ os). rewrite omap_app, IH. cbn. by rewrite (Hf o Ho).
Qed.

Lemma write_side_decider_log (u : UnitId) (os : list Obs) :
  write_side u (decider_log os) = write_side u os.
Proof. apply omap_decider_log. intros [[] | | | | | |]; done. Qed.

Lemma emitted_on_decider_log (u : UnitId) (os : list Obs) :
  emitted_on (EventsOf u) (decider_log os) = emitted_on (EventsOf u) os.
Proof.
  apply omap_decider_log. intros [[] | | | | | |]; try done.
  all: intros _; by rewrite decide_False.
Qed.

Lemma dispatched_decider_log (u : UnitId) (os : list Obs) :
  dispatched u (decider_log os) = dispatched u os.
Proof. apply omap_decider_log. intros [[] | | | | | |]; done. Qed.

Lemma consulted_decider_log (u : UnitId) (os : list Obs) :
  consulted u (decider_log os) = consulted u os.
Proof. apply omap_decider_log. intros [[] | | | | | |]; done. Qed.

Lemma decided_decider_log (u : UnitId) (os : list Obs) :
  decided u (decider_log os) = decided u os.
Proof. apply omap_decider_log. intros [[] | | | | | |]; done. Qed.

Lemma write_side_app (u : UnitId) (os1 os2 : list Obs) :
  write_side u (os1 ++ os2) = write_side u os1 ++ write_side u os2.
Proof. apply omap_app. Qed.

Lemma emitted_on_app (b : BusId) (os1 os2 : list Obs) :
  emitted_on b (os1 ++ os2) = emitted_on b os1 ++ emitted_on b os2.
Proof. apply omap_app. Qed.

Lemma decided_app (u : UnitId) (os1 os2 : list Obs) :
  decided u (os1 ++ os2) = decided u os1 ++ decided u os2.
Proof. apply omap_app. Qed.

Lemma dispatched_app (u : UnitId) (os1 os2 : list Obs) :
  dispatched u (os1 ++ os2) = dispatched u os1 ++ dispatched u os2.
Proof. apply omap_app. Qed.

Lemma decider_log_cons (o : Obs) (os : list Obs) :
  decider_log (o :: os)
  = if about_deciders o then o :: decider_log os else decider_log os.
Proof. reflexivity. Qed.

Lemma decider_log_nil : decider_log ([] : list Obs) = [].
Proof. reflexivity. Qed.

Ltac dlog :=
  repeat first [rewrite decider_log_app | rewrite decider_log_cons
               | rewrite decider_log_nil];
  cbn [about_deciders].

Lemma decider_log_emit_other (tb : BusId) (m : Msg) (os : list Obs) :
  (forall u, tb <> EventsOf u) -> decider_log (OEmit tb m :: os) = decider_log os.
Proof. intros Htb. destruct tb as [u | |]; [by destruct (Htb u) | done | done]. Qed.

Lemma emitted_on_here (b : BusId) (m : Msg) (os : list Obs) :
  m ∈ emitted_on b (OEmit b m :: os).
Proof. unfold emitted_on. cbn. rewrite decide_True by done. by left. Qed.

(** ** Folding [evolve] *)

Lemma last_good_fold (u : UnitId) (events : list TEvent) :
  forall s s', fold_evolve P u s events = Return s' -> last_good P u s events = s'.
Proof.
  induction events as [| e rest IH]; intros s s' H; cbn in *; [congruence |].
  destruct (evolve (dconfig P u) s e); [by apply IH | done].
Qed.

Lemma write_side_batch (u : UnitId) (events : list TEvent) :
  forall s, write_side u (batch P u s events) = batch P u s events.
Proof.
  induction events as [| e rest IH]; intros s; cbn; [done |].
  destruct (evolve (dconfig P u) s e) as [s1 | err]; [| done].
  cbn. rewrite !decide_True by done. by rewrite <- (IH s1) at 2.
Qed.

Lemma emitted_on_batch (u : UnitId) (events : list TEvent) :
  forall s s', fold_evolve P u s events = Return s' ->
    emitted_on (EventsOf u) (batch P u s events)
    = (fun e => MEvent (Domain e)) <$> events.
Proof.
  induction events as [| e rest IH]; intros s s' H; cbn in *; [done |].
  destruct (evolve (dconfig P u) s e) as [s1 | err]; [| done].
  cbn. rewrite decide_True by done. f_equal. by eapply IH.
Qed.

Lemma decided_batch (u u' : UnitId) (events : list TEvent) :
  forall s, decided u (batch P u' s events) = [].
Proof.
  induction events as [| e rest IH]; intros s; cbn; [done |].
  destruct (evolve (dconfig P u') s e) as [s1 | err]; [| done]. cbn. apply IH.
Qed.

Lemma dispatched_batch (u u' : UnitId) (events : list TEvent) :
  forall s, dispatched u (batch P u' s events) = [].
Proof.
  induction events as [| e rest IH]; intros s; cbn; [done |].
  destruct (evolve (dconfig P u') s e) as [s1 | err]; [| done]. cbn. apply IH.
Qed.

(** [evolve] throws on [ek]: the loop stops there. *)
Lemma fold_evolve_stops (u : UnitId) (e : Err) (ek : TEvent) (rest done_ : list TEvent) :
  forall s sk,
    fold_evolve P u s done_ = Return sk ->
    evolve (dconfig P u) sk ek = Throw e ->
    fold_evolve P u s (done_ ++ ek :: rest) = Throw e /\
    last_good P u s (done_ ++ ek :: rest) = sk /\
    batch P u s (done_ ++ ek :: rest) = batch P u s done_.
Proof.
  induction done_ as [| d done_ IH]; intros s sk Hfold Hthrow; cbn in *.
  - simplify_eq. by rewrite Hthrow.
  - destruct (evolve (dconfig P u) s d) as [s1 | err]; [| done].
    destruct (IH s1 sk Hfold Hthrow) as (-> & -> & ->). done.
Qed.

(** ** Observers *)

Ltac heap_simpl :=
  cbn [buses ustate rstate tasks awaiting rejected clock log
       record records set_log set_buses set_ustate set_rstate set_tasks
       set_awaiting set_rejected write_state write_read_state] in *.

Lemma frame_refl (w : World) : frame w w.
Proof. by repeat split. Qed.

Lemma frame_trans (w1 w2 w3 : World) : frame w1 w2 -> frame w2 w3 -> frame w1 w3.
Proof. unfold frame. intuition congruence. Qed.

Lemma same_buses_listeners (w w' : World) (b : BusId) :
  buses w' = buses w -> listeners w' b = listeners w b.
Proof. intros Hb. unfold listeners. by rewrite Hb. Qed.

Lemma calm_bus_same_buses (w w' : World) (b : BusId) :
  buses w' = buses w -> calm_bus P w b -> calm_bus P w' b.
Proof. intros Hb. unfold calm_bus, listeners. by rewrite Hb. Qed.

Lemma calm_trace_same_buses (w w' : World) (tr : option BusId) :
  buses w' = buses w -> calm_trace P w tr -> calm_trace P w' tr.
Proof.
  intros Hb. destruct tr as [tb |]; [| done]. intros [Hne Hcalm].
  split; [done |]. by apply (calm_bus_same_buses w).
Qed.

Lemma state_of_same_ustate (w w' : World) (u : UnitId) :
  ustate w' = ustate w -> state_of P w' u = state_of P w u.
Proof. intros Hu. unfold state_of. by rewrite Hu. Qed.

(** A passive callback is an observer. *)
Lemma passive_harmless (bs : gmap BusId (list (option ListenerId))) (l : ListenerId) :
  passive P l -> harmless P bs l.
Proof.
  intros Hl m w _. exists w, []. split.
  { exists 0. intros fuel _. by apply call_passive_on. }
  split; [apply frame_refl |]. split; [done |]. split; [by rewrite app_nil_r | done].
Qed.

Lemma calm_nil (bs : gmap BusId (list (option ListenerId))) : calm P bs [].
Proof. intros l Hl. by apply elem_of_nil in Hl. Qed.

Lemma calm_cons (bs : gmap BusId (list (option ListenerId))) (l : ListenerId)
    (data : list (option ListenerId)) :
  harmless P bs l -> calm P bs data -> calm P bs (Some l :: data).
Proof.
  intros Hl Hq l' Hl'. apply elem_of_cons in Hl' as [Heq | Hin]; [by simplify_eq |].
  by apply Hq.
Qed.

Lemma calm_cons_None (bs : gmap BusId (list (option ListenerId)))
    (data : list (option ListenerId)) :
  calm P bs data -> calm P bs (None :: data).
Proof.
  intros Hq l' Hl'. apply elem_of_cons in Hl' as [Heq | Hin]; [done |]. by apply Hq.
Qed.

(** [forEach] walks through observers and goes on from the entry behind
    them. *)
Lemma forEach_calm_prefix (b : BusId) (m : Msg) (pre : list (option ListenerId)) :
  forall (rest : list (option ListenerId)) (index : nat) (w : World),
    drop index (listeners w b) = pre ++ rest ->
    calm P (buses w) pre ->
    exists w1 d1,
      frame w w1 /\ ustate w1 = ustate w /\
      log w1 = log w ++ d1 /\ decider_log d1 = [] /\
      forall o,
        eventually (fun fuel => forEach P fuel b m (index + length pre) w1) o ->
        eventually (fun fuel => forEach P fuel b m index w) o.
Proof.
  induction pre as [| e pre IH]; intros rest index w Hdrop Hcalm.
  - exists w, []. split; [apply frame_refl |]. split; [done |].
    split; [by rewrite app_nil_r |]. split; [done |].
    intros o. cbn. by rewrite Nat.add_0_r.
  - assert (Hi : listeners w b !! index = Some e).
    { rewrite <- (Nat.add_0_r index), <- lookup_drop, Hdrop. reflexivity. }
    assert (Hdrop' : drop (S index) (listeners w b) = pre ++ rest).
    { rewrite (drop_S _ _ _ Hi) in Hdrop. simpl in Hdrop. by injection Hdrop. }
    assert (Hcalm' : calm P (buses w) pre).
    { intros l Hl. apply Hcalm. by right. }
    destruct e as [l |].
    + destruct (Hcalm l ltac:(by left) m (record (ODeliver b l m) w) eq_refl)
        as (w2 & d2 & Hcall & Hf2 & Hu2 & Hl2 & Hd2).
      assert (Hb2 : buses w2 = buses w) by apply Hf2.
      cbn [ustate log record set_log] in Hu2, Hl2.
      destruct (IH rest (S index) w2) as (w1 & d1 & Hf1 & Hu1 & Hl1 & Hd1 & Hk).
      { by rewrite (same_buses_listeners w w2). }
      { by rewrite Hb2. }
      exists w1, (ODeliver b l m :: d2 ++ d1).
      split; [by apply (frame_trans w w2 w1) |].
      split; [congruence |].
      split; [rewrite Hl1, Hl2; by list_norm |].
      split; [dlog; by rewrite Hd2, Hd1 |].
      intros o Ho. apply (eventually_forEach_call b m index w l o Hi).
      ev_bind w2; [exact Hcall |]. apply Hk.
      replace (S index + length pre) with (index + length (Some l :: pre))
        by (cbn [length]; lia).
      exact Ho.
    + destruct (IH rest (S index) w Hdrop' Hcalm')
        as (w1 & d1 & Hf1 & Hu1 & Hl1 & Hd1 & Hk).
      exists w1, d1. repeat split; try done; try apply Hf1.
      intros o Ho. apply (eventually_forEach_skip b m index w o Hi). apply Hk.
      replace (S index + length pre) with (index + length (@None ListenerId :: pre))
        by (cbn [length]; lia).
      exact Ho.
Qed.

(** An emission on a bus of observers returns; between the call of [emit]
    and its return no decider takes a step. *)
Lemma emit_calm (b : BusId) (m : Msg) (w : World) :
  calm_bus P w b ->
  exists w' delta,
    eventually (fun fuel => emit P fuel b m w) (Normal w') /\
    frame w w' /\ ustate w' = ustate w /\
    log w' = log w ++ OEmit b m :: delta /\ decider_log delta = [].
Proof.
  intros Hcalm.
  destruct (forEach_calm_prefix b m (listeners w b) [] 0 (record (OEmit b m) w))
    as (w1 & d1 & Hf1 & Hu1 & Hl1 & Hd1 & Hk).
  { by rewrite drop_0, app_nil_r. }
  { exact Hcalm. }
  exists (record (OEmitDone b m) w1), (d1 ++ [OEmitDone b m]).
  split.
  { apply eventually_emit. ev_bind w1; [| apply eventually_now].
    apply Hk. apply eventually_forEach_end. apply lookup_ge_None.
    rewrite (same_buses_listeners w w1) by apply Hf1. cbn. lia. }
  split; [repeat split; apply Hf1 |]. split; [done |].
  split; [heap_simpl; rewrite Hl1; by list_norm |].
  dlog. by rewrite Hd1.
Qed.

(** [trace?.emit(entry)], when the trace bus has observers only. *)
Lemma trace_emit_calm (tr : option BusId) (t : TraceEntry) (w : World) :
  calm_trace P w tr ->
  exists w' delta,
    eventually (fun fuel => trace_emit (emit P fuel) tr t w) (Normal w') /\
    frame w w' /\ ustate w' = ustate w /\
    log w' = log w ++ delta /\ decider_log delta = [] /\
    forall tb, tr = Some tb -> MTrace t ∈ emitted_on tb delta.
Proof.
  destruct tr as [tb |]; cbn [trace_emit calm_trace].
  - intros [Hne Hcalm].
    destruct (emit_calm tb (MTrace t) w Hcalm) as (w' & delta & Hrun & Hf & Hu & Hl & Hd).
    exists w', (OEmit tb (MTrace t) :: delta). repeat split; try done; try apply Hf.
    + by rewrite decider_log_emit_other.
    + intros tb' [= <-]. apply emitted_on_here.
  - intros _. exists w, []. split; [apply eventually_now |].
    split; [apply frame_refl |]. split; [done |]. split; [by rewrite app_nil_r |].
    split; [done |]. intros tb [=].
Qed.

(** A projector that traces on a bus of observers is an observer. *)
Lemma projector_harmless (w0 : World) (l : ListenerId) (p : ProjectorId) :
  code P l = ProjectorL p ->
  calm_trace P w0 (ptrace P p) ->
  harmless P (buses w0) l.
Proof.
  intros Hcode Htr m w Hb. unfold call. rewrite Hcode. unfold projector_listener.
  assert (Htr' : calm_trace P w (ptrace P p)) by (by apply (calm_trace_same_buses w0)).
  destruct (project (pconfig P p) (read_state_of P w p) m) as [s | e].
  - destruct (trace_emit_calm (ptrace P p) (TrProjection (clock w) (pname (pconfig P p)) m)
                (write_read_state p s w)) as (w' & delta & Hrun & Hf & Hu & Hl & Hd & _);
      [done |].
    exists w', delta. split; [by ev_try_normal |]. by repeat split; try apply Hf.
  - destruct (trace_emit_calm (ptrace P p) (TrError (clock w) "project" e) w)
      as (w' & delta & Hrun & Hf & Hu & Hl & Hd & _); [done |].
    exists w', delta. split.
    { ev_try_throws e w; [apply eventually_now | exact Hrun]. }
    by repeat split; try apply Hf.
Qed.

(** The listener of [filter] is an observer when the predicate does not
    throw and the filtered bus has observers only. *)
Lemma filter_harmless (w0 : World) (l : ListenerId) (predicate : Msg -> Completion bool)
    (filtered : BusId) :
  code P l = FilterL predicate filtered ->
  (forall m e, predicate m <> Throw e) ->
  (forall u, filtered <> EventsOf u) ->
  calm_bus P w0 filtered ->
  harmless P (buses w0) l.
Proof.
  intros Hcode Hpred Hne Hcalm m w Hb. unfold call. rewrite Hcode. unfold filter_listener.
  destruct (predicate m) as [[|] | e] eqn:Hm; [| | by destruct (Hpred m e)].
  - destruct (emit_calm filtered m w) as (w' & delta & Hrun & Hf & Hu & Hl & Hd).
    { by apply (calm_bus_same_buses w0). }
    exists w', (OEmit filtered m :: delta). repeat split; try done; try apply Hf.
    by rewrite decider_log_emit_other.
  - exists w, []. split; [apply eventually_now |].
    split; [apply frame_refl |]. split; [done |]. split; [by rewrite app_nil_r | done].
Qed.

(** ** The loop over the events of a command *)

Lemma process_calm (u : UnitId) (c : TCommand) (events : list TEvent) :
  forall w : World,
    calm_trace P w (dtrace P u) ->
    (events <> [] -> calm_bus P w (EventsOf u)) ->
    exists w' delta,
      eventually (fun fuel => process P fuel u c events w)
        (match fold_evolve P u (state_of P w u) events with
         | Return _ => Normal w'
         | Throw e => Throws e w'
         end) /\
      frame w w' /\
      log w' = log w ++ delta /\
      decider_log delta = batch P u (state_of P w u) events /\
      state_of P w' u = last_good P u (state_of P w u) events /\
      forall u', u' <> u -> ustate w' !! u' = ustate w !! u'.
Proof.
  induction events as [| e rest IH]; intros w Htr Hbus.
  - exists w, []. cbn. split; [apply eventually_now |]. split; [apply frame_refl |].
    by rewrite app_nil_r.
  - assert (Hq : calm_bus P w (EventsOf u)) by (by apply Hbus).
    cbn [process fold_evolve batch last_good].
    destruct (trace_emit_calm (dtrace P u) (TrEvent (clock w) (Domain e) c) w Htr)
      as (w1 & d1 & Hrun1 & Hf1 & Hu1 & Hl1 & Hd1 & _).
    assert (Hs1 : state_of P w1 u = state_of P w u) by (by apply state_of_same_ustate).
    assert (Hb1 : buses w1 = buses w) by apply Hf1.
    destruct (evolve (dconfig P u) (state_of P w u) e) as [s' | err] eqn:He.
    + destruct (trace_emit_calm (dtrace P u)
                  (TrEvolve (clock w1) e (state_of P w u) s')
                  (record (OEvolve u e (state_of P w u) s') (write_state u s' w1)))
        as (w3 & d3 & Hrun3 & Hf3 & Hu3 & Hl3 & Hd3 & _).
      { by apply (calm_trace_same_buses w). }
      assert (Hb3 : buses w3 = buses w) by (rewrite <- Hb1; apply Hf3).
      destruct (emit_calm (EventsOf u) (MEvent (Domain e)) w3)
        as (w4 & d4 & Hrun4 & Hf4 & Hu4 & Hl4 & Hd4).
      { by apply (calm_bus_same_buses w). }
      assert (Hb4 : buses w4 = buses w) by (rewrite <- Hb3; apply Hf4).
      assert (Hs4 : state_of P w4 u = s').
      { unfold state_of. rewrite Hu4, Hu3. heap_simpl. by rewrite lookup_insert_eq. }
      destruct (IH w4) as (w' & d' & Hrun & Hf & Hl & Hd & Hs & Ho).
      { by apply (calm_trace_same_buses w). }
      { intros _. by apply (calm_bus_same_buses w). }
      rewrite Hs4 in Hrun, Hd, Hs.
      exists w', (d1 ++ OEvolve u e (state_of P w u) s' :: d3
                  ++ OEmit (EventsOf u) (MEvent (Domain e)) :: d4 ++ d').
      split.
      { ev_bind w1; [exact Hrun1 |]. rewrite Hs1, He. cbn zeta.
        ev_bind w3; [exact Hrun3 |]. ev_bind w4; [exact Hrun4 |]. exact Hrun. }
      split.
      { eapply frame_trans; [| exact Hf]. eapply frame_trans; [| exact Hf4].
        eapply frame_trans; [exact Hf1 |]. destruct Hf3 as (? & ? & ? & ? & ?).
        heap_simpl. by repeat split. }
      split; [rewrite Hl, Hl4, Hl3; heap_simpl; rewrite Hl1; by list_norm |].
      split.
      { dlog. by rewrite Hd1, Hd3, Hd4, Hd. }
      split; [done |].
      intros u' Hu'. rewrite (Ho u' Hu'), Hu4, Hu3. heap_simpl.
      rewrite lookup_insert_ne by done. by rewrite Hu1.
    + exists w1, d1. split.
      { ev_bind w1; [exact Hrun1 |]. rewrite Hs1, He. apply eventually_now. }
      split; [done |]. split; [done |]. split; [done |]. split; [done |].
      intros u' _. by rewrite Hu1.
Qed.

(** ** [dispatch] among observers *)

(** Up to its [await], [dispatch] takes the steps of [dispatch_steps] and
    leaves its continuation behind. *)
Lemma dispatch_calm (u : UnitId) (c : TCommand) (source : string) (w : World) :
  calm_trace P w (dtrace P u) ->
  (validate P u c <> ParseSuccess -> calm_bus P w (EventsOf u)) ->
  exists w' delta,
    eventually (fun fuel => dispatch P (emit P fuel) u c source w) (Normal w') /\
    buses w' = buses w /\ ustate w' = ustate w /\
    tasks w' = tasks w ++ queued P u c /\
    awaiting w' = awaiting w ++ parked P u c /\
    rejected w' = rejected w /\ clock w' = clock w /\
    log w' = log w ++ delta /\
    decider_log delta = dispatch_steps P u c source /\
    forall tb e, dtrace P u = Some tb -> dispatch_error P u c = Some e ->
      MTrace (TrError (clock w) "decide" e) ∈ emitted_on tb delta.
Proof.
  intros Htr Hbus. unfold dispatch, dispatch_steps, queued, parked, dispatch_error.
  cbn zeta.
  destruct (trace_emit_calm (dtrace P u) (TrCommand (clock w) c source)
              (record (ODispatch u c source) w) Htr)
    as (w1 & d1 & Hrun1 & Hf1 & Hu1 & Hl1 & Hd1 & _).
  destruct Hf1 as (Hb1 & Ht1 & Ha1 & Hr1 & Hc1). heap_simpl.
  assert (Htr1 : calm_trace P w1 (dtrace P u)) by (by apply (calm_trace_same_buses w)).
  destruct (validate P u c) as [| error] eqn:Hv.
  - destruct (resolveContext (dconfig P u) c) as [e | ctx | settles] eqn:Hres.
    + destruct (trace_emit_calm (dtrace P u) (TrError (clock w1) "decide" e)
                  (record (OResolve u c) w1) Htr1)
        as (w3 & d3 & Hrun3 & Hf3 & Hu3 & Hl3 & Hd3 & Hin3).
      destruct Hf3 as (Hb3 & Ht3 & Ha3 & Hr3 & Hc3). heap_simpl.
      exists w3, (ODispatch u c source :: d1 ++ OResolve u c :: d3).
      split.
      { ev_async. ev_bind w1; [exact Hrun1 |].
        ev_try_throws e (record (OResolve u c) w1); [apply eventually_now | exact Hrun3]. }
      rewrite !app_nil_r.
      repeat split; try congruence.
      * rewrite Hl3, Hl1. by list_norm.
      * dlog. by rewrite Hd1, Hd3.
      * intros tb e' Htb [= <-].
        change (ODispatch u c source :: ?x) with ([ODispatch u c source] ++ x).
        rewrite !emitted_on_app. apply elem_of_app. right. apply elem_of_app. right.
        change (OResolve u c :: d3) with ([OResolve u c] ++ d3).
        rewrite emitted_on_app. apply elem_of_app. right.
        rewrite <- Hc1. by apply Hin3.
    + eexists _, (ODispatch u c source :: d1 ++ [OResolve u c]).
      split.
      { ev_async. ev_bind w1; [exact Hrun1 |]. ev_try_normal. apply eventually_now. }
      heap_simpl. rewrite !app_nil_r.
      repeat split; try congruence.
      * rewrite Hl1. by list_norm.
      * dlog. by rewrite Hd1.
    + eexists _, (ODispatch u c source :: d1 ++ [OResolve u c]).
      split.
      { ev_async. ev_bind w1; [exact Hrun1 |]. ev_try_normal. apply eventually_now. }
      heap_simpl. rewrite !app_nil_r.
      repeat split; try congruence.
      * rewrite Hl1. by list_norm.
      * dlog. by rewrite Hd1.
  - specialize (Hbus ltac:(done)).
    destruct (trace_emit_calm (dtrace P u)
                (TrEvent (clock w1) (validationEvent P c error) c) w1 Htr1)
      as (w2 & d2 & Hrun2 & Hf2 & Hu2 & Hl2 & Hd2 & _).
    destruct Hf2 as (Hb2 & Ht2 & Ha2 & Hr2 & Hc2).
    destruct (emit_calm (EventsOf u) (MEvent (validationEvent P c error)) w2)
      as (w3 & d3 & Hrun3 & Hf3 & Hu3 & Hl3 & Hd3).
    { apply (calm_bus_same_buses w); [congruence | done]. }
    destruct Hf3 as (Hb3 & Ht3 & Ha3 & Hr3 & Hc3).
    exists w3, (ODispatch u c source :: d1 ++ d2
                ++ OEmit (EventsOf u) (MEvent (validationEvent P c error)) :: d3).
    split.
    { ev_async. ev_bind w1; [exact Hrun1 |]. ev_try_normal.
      ev_bind w2; [exact Hrun2 | exact Hrun3]. }
    rewrite !app_nil_r.
    repeat split; try congruence.
    * rewrite Hl3, Hl2, Hl1. by list_norm.
    * dlog. by rewrite Hd1, Hd2, Hd3.
Qed.

(** Whatever the listeners do, [dispatch] does not throw: it is [async]. *)
Lemma dispatch_does_not_throw (emit' : BusId -> Msg -> World -> Outcome) (u : UnitId)
    (c : TCommand) (source : string) (w : World) (e : Err) (w' : World) :
  dispatch P emit' u c source w <> Throws e w'.
Proof.
  unfold dispatch.
  match goal with |- async ?o <> _ => by destruct o end.
Qed.

(** After its [await], [dispatch] takes the steps of [resume_steps] and
    leaves [resume_state] in the unit; the promise it returned is not
    rejected. *)
Lemma resume_calm (k : Continuation) (w : World) :
  calm_trace P w (dtrace P (k_unit k)) ->
  (decided_events P w k <> [] -> calm_bus P w (EventsOf (k_unit k))) ->
  exists w' delta,
    eventually (fun fuel => resume P fuel k w) (Normal w') /\
    frame w w' /\
    log w' = log w ++ delta /\
    decider_log delta = resume_steps P w k /\
    state_of P w' (k_unit k) = resume_state P w k /\
    (forall u', u' <> k_unit k -> ustate w' !! u' = ustate w !! u') /\
    forall tb e, dtrace P (k_unit k) = Some tb -> resume_error P w k = Some e ->
      MTrace (TrError (clock w) "decide" e) ∈ emitted_on tb delta.
Proof.
  destruct k as [u c r]. cbn [k_unit]. intros Htr Hbus.
  unfold resume, resume_steps, resume_state, resume_error, decided_events in *.
  cbn [k_unit k_command k_settled] in *. cbn zeta.
  destruct r as [ctx | e].
  - destruct (trace_emit_calm (dtrace P u) (TrContext (clock w) c ctx) w Htr)
      as (w1 & d1 & Hrun1 & Hf1 & Hu1 & Hl1 & Hd1 & _).
    assert (Hs1 : state_of P w1 u = state_of P w u) by (by apply state_of_same_ustate).
    assert (Hb1 : buses w1 = buses w) by apply Hf1.
    assert (Hc1 : clock w1 = clock w) by apply Hf1.
    destruct (decide (dconfig P u) c (state_of P w u) ctx) as [events | e] eqn:Hdec.
    + destruct (process_calm u c events (record (ODecide u c (state_of P w u) ctx) w1))
        as (w2 & d2 & Hrun2 & Hf2 & Hl2 & Hd2 & Hs2 & Ho2).
      { by apply (calm_trace_same_buses w). }
      { intros Hev. apply (calm_bus_same_buses w); [done |]. by apply Hbus. }
      change (state_of P (record ?o w1) u) with (state_of P w1 u) in Hrun2, Hd2, Hs2.
      rewrite Hs1 in Hrun2, Hd2, Hs2.
      assert (Hf' : frame w w2).
      { eapply frame_trans; [exact Hf1 |]. destruct Hf2 as (? & ? & ? & ? & ?).
        heap_simpl. by repeat split. }
      destruct (fold_evolve P u (state_of P w u) events) as [s' | e] eqn:Hfold.
      * exists w2, (d1 ++ ODecide u c (state_of P w u) ctx :: d2).
        split.
        { ev_async. ev_try_normal. ev_bind w1; [exact Hrun1 |].
          rewrite Hs1, Hdec. exact Hrun2. }
        split; [done |].
        split; [rewrite Hl2; heap_simpl; rewrite Hl1; by list_norm |].
        split; [dlog; by rewrite Hd1, Hd2 |].
        split; [done |]. split; [| done].
        intros u' Hu'. rewrite (Ho2 u' Hu'). heap_simpl. by rewrite Hu1.
      * destruct (trace_emit_calm (dtrace P u) (TrError (clock w2) "decide" e) w2)
          as (w3 & d3 & Hrun3 & Hf3 & Hu3 & Hl3 & Hd3 & Hin3).
        { apply (calm_trace_same_buses w); [apply Hf' | done]. }
        exists w3, (d1 ++ ODecide u c (state_of P w u) ctx :: d2 ++ d3).
        split.
        { ev_async. ev_try_throws e w2; [| exact Hrun3].
          ev_bind w1; [exact Hrun1 |]. rewrite Hs1, Hdec. exact Hrun2. }
        split; [by eapply frame_trans |].
        split; [rewrite Hl3, Hl2; heap_simpl; rewrite Hl1; by list_norm |].
        split.
        { dlog. by rewrite Hd1, Hd2, Hd3, app_nil_r. }
        split; [rewrite <- Hs2; by apply state_of_same_ustate |].
        split.
        { intros u' Hu'. rewrite Hu3, (Ho2 u' Hu'). heap_simpl. by rewrite Hu1. }
        intros tb e' Htb [= <-].
        rewrite emitted_on_app. apply elem_of_app. right.
        change (ODecide ?a ?b ?d ?f :: ?x) with ([ODecide a b d f] ++ x).
        rewrite !emitted_on_app. apply elem_of_app. right. apply elem_of_app. right.
        replace (clock w) with (clock w2) by apply Hf'. by apply Hin3.
    + destruct (trace_emit_calm (dtrace P u) (TrError (clock w1) "decide" e)
                  (record (ODecide u c (state_of P w u) ctx) w1))
        as (w3 & d3 & Hrun3 & Hf3 & Hu3 & Hl3 & Hd3 & Hin3).
      { by apply (calm_trace_same_buses w). }
      exists w3, (d1 ++ ODecide u c (state_of P w u) ctx :: d3).
      split.
      { ev_async.
        ev_try_throws e (record (ODecide u c (state_of P w u) ctx) w1); [| exact Hrun3].
        ev_bind w1; [exact Hrun1 |]. rewrite Hs1, Hdec. apply eventually_now. }
      split.
      { eapply frame_trans; [exact Hf1 |]. destruct Hf3 as (? & ? & ? & ? & ?).
        heap_simpl. by repeat split. }
      split; [rewrite Hl3; heap_simpl; rewrite Hl1; by list_norm |].
      split; [dlog; by rewrite Hd1, Hd3 |].
      split; [apply state_of_same_ustate; heap_simpl; congruence |].
      split; [intros u' _; heap_simpl; congruence |].
      intros tb e' Htb [= <-].
      rewrite emitted_on_app. apply elem_of_app. right.
      change (ODecide ?a ?b ?d ?f :: ?x) with ([ODecide a b d f] ++ x).
      rewrite emitted_on_app. apply elem_of_app. right.
      rewrite <- Hc1. by apply Hin3.
  - destruct (trace_emit_calm (dtrace P u) (TrError (clock w) "decide" e) w Htr)
      as (w3 & d3 & Hrun3 & Hf3 & Hu3 & Hl3 & Hd3 & Hin3).
    exists w3, d3. split.
    { ev_async. ev_try_throws e w; [apply eventually_now | exact Hrun3]. }
    split; [done |]. split; [done |]. split; [done |].
    split; [by apply state_of_same_ustate |].
    split; [intros u' _; by rewrite Hu3 |].
    intros tb e' Htb [= <-]. by apply Hin3.
Qed.

(** ** Turns of the event loop *)

Lemma resume_steps_ext (w w' : World) (k : Continuation) :
  state_of P w' (k_unit k) = state_of P w (k_unit k) ->
  resume_steps P w' k = resume_steps P w k.
Proof. intros Hs. unfold resume_steps, decided_events. by rewrite Hs. Qed.

Lemma resume_state_ext (w w' : World) (k : Continuation) :
  state_of P w' (k_unit k) = state_of P w (k_unit k) ->
  resume_state P w' k = resume_state P w k.
Proof. intros Hs. unfold resume_state, decided_events. by rewrite Hs. Qed.

Lemma resume_error_ext (w w' : World) (k : Continuation) :
  state_of P w' (k_unit k) = state_of P w (k_unit k) ->
  resume_error P w' k = resume_error P w k.
Proof. intros Hs. unfold resume_error. by rewrite Hs. Qed.

Lemma decided_events_ext (w w' : World) (k : Continuation) :
  state_of P w' (k_unit k) = state_of P w (k_unit k) ->
  decided_events P w' k = decided_events P w k.
Proof. intros Hs. unfold decided_events. by rewrite Hs. Qed.

(** The queue holds one continuation: it runs, and the queue is empty. *)
Lemma drain_one (k : Continuation) (w : World) :
  tasks w = [k] ->
  calm_trace P w (dtrace P (k_unit k)) ->
  (decided_events P w k <> [] -> calm_bus P w (EventsOf (k_unit k))) ->
  exists w' delta,
    eventually (fun fuel => drain P fuel w) (Normal w') /\
    buses w' = buses w /\ tasks w' = [] /\
    awaiting w' = awaiting w /\ rejected w' = rejected w /\ clock w' = clock w /\
    log w' = log w ++ delta /\
    decider_log delta = resume_steps P w k /\
    state_of P w' (k_unit k) = resume_state P w k /\
    (forall u', u' <> k_unit k -> ustate w' !! u' = ustate w !! u') /\
    forall tb e, dtrace P (k_unit k) = Some tb -> resume_error P w k = Some e ->
      MTrace (TrError (clock w) "decide" e) ∈ emitted_on tb delta.
Proof.
  intros Ht Htr Hbus.
  destruct (resume_calm k (set_tasks [] w)) as (w' & delta & Hrun & Hf & Hl & Hd & Hs & Ho & Hin);
    [done | done |].
  destruct Hf as (Hb & Htasks & Ha & Hrej & Hc). heap_simpl.
  exists w', delta. split.
  { apply (eventually_drain_step k [] w _ Ht). ev_bind w'; [exact Hrun |].
    by apply eventually_drain_idle. }
  repeat split; done.
Qed.

(** The application calls [dispatch] while no continuation is queued. *)
Lemma turn_dispatch (u : UnitId) (c : TCommand) (w : World) :
  tasks w = [] ->
  calm_trace P w (dtrace P u) ->
  calm_bus P w (EventsOf u) \/
    (validate P u c = ParseSuccess /\
     forall k, k ∈ queued P u c -> decided_events P w k = []) ->
  exists w' delta,
    eventually (fun fuel => turn P fuel (UserCall (CDispatch u c)) w) (Normal w') /\
    buses w' = buses w /\ tasks w' = [] /\
    awaiting w' = awaiting w ++ parked P u c /\
    rejected w' = rejected w /\ clock w' = clock w /\
    log w' = log w ++ delta /\
    (forall u', u' <> u -> ustate w' !! u' = ustate w !! u') /\
    decider_log delta
    = dispatch_steps P u c "user" ++ flat_map (resume_steps P w) (queued P u c) /\
    state_of P w' u
    = match queued P u c with
      | k :: _ => resume_state P w k
      | [] => state_of P w u
      end /\
    forall tb e,
      dtrace P u = Some tb ->
      dispatch_error P u c = Some e \/
        (exists k, k ∈ queued P u c /\ resume_error P w k = Some e) ->
      MTrace (TrError (clock w) "decide" e) ∈ emitted_on tb delta.
Proof.
  intros Ht Htr Hbus.
  destruct (dispatch_calm u c "user" w Htr)
    as (w1 & d1 & Hrun1 & Hb1 & Hu1 & Ht1 & Ha1 & Hr1 & Hc1 & Hl1 & Hd1 & Hin1).
  { intros Hv. by destruct Hbus as [? | [? _]]. }
  rewrite Ht in Ht1. cbn in Ht1.
  assert (Hs1 : forall u', state_of P w1 u' = state_of P w u').
  { intros u'. by apply state_of_same_ustate. }
  assert (Hqueue : queued P u c = [] \/
            exists k, queued P u c = [k] /\ k_unit k = u /\ dispatch_error P u c = None).
  { unfold queued, dispatch_error. destruct (validate P u c); [| by left].
    destruct (resolveContext (dconfig P u) c); [by left | | by left].
    right. eexists. by repeat split. }
  destruct Hqueue as [Hq | (k & Hq & Hk & Herr)].
  - rewrite Hq in *. exists w1, d1. split.
    { cbn [turn run_call]. ev_bind w1; [by ev_async |]. by apply eventually_drain_idle. }
    cbn [flat_map]. rewrite app_nil_r.
    repeat split; try done; try congruence.
    intros tb e Htb [He | (k & Hk & _)]; [by apply Hin1 |]. by apply elem_of_nil in Hk.
  - rewrite Hq in *.
    destruct (drain_one k w1) as (w2 & d2 & Hrun2 & Hb2 & Ht2 & Ha2 & Hr2 & Hc2 & Hl2
                                  & Hd2 & Hs2 & Ho2 & Hin2).
    { done. }
    { rewrite Hk. by apply (calm_trace_same_buses w). }
    { rewrite Hk. intros Hev. destruct Hbus as [Hcalm | [_ Hnone]].
      - by apply (calm_bus_same_buses w).
      - exfalso. apply Hev. rewrite (decided_events_ext w w1) by apply Hs1.
        apply Hnone. by left. }
    rewrite Hk in *.
    rewrite (resume_steps_ext w w1) in Hd2 by (rewrite Hk; apply Hs1).
    rewrite (resume_state_ext w w1) in Hs2 by (rewrite Hk; apply Hs1).
    exists w2, (d1 ++ d2). split.
    { cbn [turn run_call]. ev_bind w1; [by ev_async | exact Hrun2]. }
    cbn [flat_map]. rewrite app_nil_r.
    repeat split; try congruence.
    + rewrite Hl2, Hl1. by rewrite app_assoc.
    + intros u' Hu'. rewrite (Ho2 u' Hu'). by rewrite Hu1.
    + by rewrite decider_log_app, Hd1, Hd2.
    + intros tb e Htb [He | (k' & Hk' & He)]; [congruence |].
      apply list_elem_of_singleton in Hk'. subst k'.
      rewrite emitted_on_app. apply elem_of_app. right.
      rewrite <- Hc1. apply Hin2; [done |].
      rewrite (resume_error_ext w w1); [done |]. rewrite Hk. apply Hs1.
Qed.

(** The promise a [dispatch] call waits for settles while no continuation is
    queued. *)
Lemma turn_settle (i : nat) (k : Continuation) (w : World) :
  tasks w = [] ->
  awaiting w !! i = Some k ->
  calm_trace P w (dtrace P (k_unit k)) ->
  (decided_events P w k <> [] -> calm_bus P w (EventsOf (k_unit k))) ->
  exists w' delta,
    eventually (fun fuel => turn P fuel (Settle i) w) (Normal w') /\
    buses w' = buses w /\ tasks w' = [] /\
    awaiting w' = delete i (awaiting w) /\
    rejected w' = rejected w /\ clock w' = clock w /\
    log w' = log w ++ delta /\
    decider_log delta = resume_steps P w k /\
    state_of P w' (k_unit k) = resume_state P w k /\
    (forall u', u' <> k_unit k -> ustate w' !! u' = ustate w !! u') /\
    forall tb e, dtrace P (k_unit k) = Some tb -> resume_error P w k = Some e ->
      MTrace (TrError (clock w) "decide" e) ∈ emitted_on tb delta.
Proof.
  intros Ht Hi Htr Hbus. cbn [turn]. rewrite Hi, Ht.
  destruct (drain_one k (set_tasks ([] ++ [k]) (set_awaiting (delete i (awaiting w)) w)))
    as (w' & delta & Hrun & Hrest); try done.
  exists w', delta. split; [exact Hrun |]. exact Hrest.
Qed.

(** ** One [dispatch] on its own *)

(** A command that passes validation and whose [resolveContext] does not
    throw: the call, then the settlement of its context. *)
Lemma dispatch_alone_calm (u : UnitId) (c : TCommand) (r : Completion TContext)
    (w : World) :
  let k := {| k_unit := u; k_command := c; k_settled := r |} in
  tasks w = [] ->
  calm_trace P w (dtrace P u) ->
  (decided_events P w k <> [] -> calm_bus P w (EventsOf u)) ->
  validate P u c = ParseSuccess ->
  awaited (resolveContext (dconfig P u) c) = Some r ->
  exists w' delta,
    eventually (fun fuel => dispatch_alone P fuel u c w) (Normal w') /\
    log w' = log w ++ delta /\
    decider_log delta = dispatch_steps P u c "user" ++ resume_steps P w k /\
    state_of P w' u = resume_state P w k /\
    buses w' = buses w /\ tasks w' = [] /\
    awaiting w' = awaiting w /\ rejected w' = rejected w /\
    (forall u', u' <> u -> ustate w' !! u' = ustate w !! u') /\
    forall tb e, dtrace P u = Some tb -> resume_error P w k = Some e ->
      MTrace (TrError (clock w) "decide" e) ∈ emitted_on tb delta.
Proof.
  intros k Ht Htr Hbus Hvalid Hres.
  unfold dispatch_alone. cbn [run].
  assert (Hcases : (queued P u c = [k] /\ parked P u c = []) \/
                   (queued P u c = [] /\ parked P u c = [k])).
  { unfold queued, parked. rewrite Hvalid.
    destruct (resolveContext (dconfig P u) c); cbn in Hres; simplify_eq; auto. }
  destruct (turn_dispatch u c w)
    as (w1 & d1 & Hturn & Hb & Htasks & Ha & Hrej & Hc & Hl & Ho & Hd & Hs & Hin);
    try done.
  { destruct (decided_events P w k) as [| e es] eqn:Hev.
    - right. split; [done |]. intros k' Hk'.
      destruct Hcases as [[Hq _] | [Hq _]]; rewrite Hq in Hk'.
      + apply list_elem_of_singleton in Hk'. by subst k'.
      + by apply elem_of_nil in Hk'.
    - left. by apply Hbus. }
  destruct Hcases as [[Hq Hp] | [Hq Hp]]; rewrite Hq in *; rewrite Hp in *.
  - rewrite app_nil_r in Ha. cbn [flat_map] in Hd. rewrite app_nil_r in Hd.
    exists w1, d1. split.
    { ev_bind w1; [exact Hturn |]. ev_bind w1; [| apply eventually_now].
      cbn [turn]. rewrite Ha, lookup_ge_None_2 by done. apply eventually_now. }
    repeat split; try done.
    intros tb e Htb He. apply Hin; [done |]. right. exists k. split; [by left | done].
  - cbn [flat_map] in Hd. rewrite app_nil_r in Hd.
    assert (Hs1 : state_of P w1 (k_unit k) = state_of P w (k_unit k)) by exact Hs.
    destruct (turn_settle (length (awaiting w)) k w1)
      as (w2 & d2 & Hturn2 & Hb2 & Htasks2 & Ha2 & Hrej2 & Hc2 & Hl2 & Hd2 & Hs2 & Ho2 & Hin2);
      try done.
    { rewrite Ha. by rewrite list_lookup_middle. }
    { by apply (calm_trace_same_buses w). }
    { intros Hev. apply (calm_bus_same_buses w); [done |]. apply Hbus.
      by rewrite <- (decided_events_ext w w1). }
    rewrite (resume_steps_ext w w1) in Hd2 by done.
    rewrite (resume_state_ext w w1) in Hs2 by done.
    exists w2, (d1 ++ d2). split.
    { ev_bind w1; [exact Hturn |]. ev_bind w2; [exact Hturn2 | apply eventually_now]. }
    split; [rewrite Hl2, Hl; by rewrite app_assoc |].
    split; [by rewrite decider_log_app, Hd, Hd2 |].
    split; [exact Hs2 |].
    split; [congruence |]. split; [done |].
    split; [rewrite Ha2, Ha, delete_middle; apply app_nil_r |].
    split; [congruence |].
    split; [intros u' Hu'; rewrite (Ho2 u' Hu'); by apply Ho |].
    intros tb e Htb He. rewrite emitted_on_app. apply elem_of_app. right.
    rewrite <- Hc. apply Hin2; [done |]. by rewrite (resume_error_ext w w1).
Qed.

Lemma resolves_awaited (r : Resolution) (ctx : TContext) :
  resolves r ctx -> awaited r = Some (Return ctx).
Proof. by intros [-> | ->]. Qed.

Lemma write_side_dispatch_steps (u : UnitId) (c : TCommand) (source : string) :
  write_side u (dispatch_steps P u c source)
  = match validate P u c with
    | ParseFailure error => [OEmit (EventsOf u) (MEvent (validationEvent P c error))]
    | ParseSuccess => []
    end.
Proof.
  unfold dispatch_steps. destruct (validate P u c); cbn; [done |].
  by rewrite decide_True.
Qed.

Lemma write_side_resume_steps (w : World) (k : Continuation) :
  write_side (k_unit k) (resume_steps P w k)
  = batch P (k_unit k) (state_of P w (k_unit k)) (decided_events P w k).
Proof.
  unfold resume_steps. destruct (k_settled k) as [ctx | e] eqn:Hr.
  - cbn. apply write_side_batch.
  - unfold decided_events. by rewrite Hr.
Qed.

(** The emissions on a unit's bus are those of its write side. *)
Lemma emitted_on_write_side (u : UnitId) (os : list Obs) :
  emitted_on (EventsOf u) (write_side u os) = emitted_on (EventsOf u) os.
Proof.
  induction os as [| o os IH]; [done |].
  change (o :: os) with ([o] ++ os).
  rewrite write_side_app, !emitted_on_app, IH. f_equal.
  destruct o as [b m | | | | | |]; try done.
  - destruct b as [u' | |]; try done.
    + cbn. case_decide as Hu.
      * subst u'. cbn. by rewrite !decide_True.
      * cbn. rewrite decide_False; [done | congruence].
  - cbn. by case_decide.
Qed.

(** What one [dispatch] on its own leaves on the write side of its unit. *)
Lemma write_side_dispatch_alone (u : UnitId) (c : TCommand) (r : Completion TContext)
    (w : World) (delta : list Obs) :
  let k := {| k_unit := u; k_command := c; k_settled := r |} in
  validate P u c = ParseSuccess ->
  decider_log delta = dispatch_steps P u c "user" ++ resume_steps P w k ->
  write_side u delta = batch P u (state_of P w u) (decided_events P w k).
Proof.
  intros k Hvalid Hd.
  rewrite <- write_side_decider_log, Hd, write_side_app, write_side_dispatch_steps, Hvalid.
  apply (write_side_resume_steps w k).
Qed.
(** ** The decider *)

Lemma decided_dispatch_steps (u u' : UnitId) (c : TCommand) (source : string) :
  decided u (dispatch_steps P u' c source) = [].
Proof. unfold dispatch_steps. by destruct (validate P u' c). Qed.

Lemma dispatched_resume_steps (u : UnitId) (w : World) (k : Continuation) :
  dispatched u (resume_steps P w k) = [].
Proof.
  unfold resume_steps. destruct (k_settled k); [| done]. cbn. apply dispatched_batch.
Qed.

Lemma decided_resume_steps (w : World) (k : Continuation) :
  decided (k_unit k) (resume_steps P w k)
  = match k_settled k with
    | Return _ => [(k_command k, state_of P w (k_unit k))]
    | Throw _ => []
    end.
Proof.
  unfold resume_steps. destruct (k_settled k); [| done].
  change (ODecide ?a ?b ?d ?f :: ?x) with ([ODecide a b d f] ++ x).
  rewrite decided_app, decided_batch. cbn. by rewrite decide_True.
Qed.

(** C1. A command that passes validation and whose context resolves to
    [ctx].  The call of [dispatch], on any heap [w], evolves nothing and
    emits nothing on the unit's bus: it leaves the rest of the call in the
    queue or, when [resolveContext] returned a promise, with the waiting
    ones.  The rest runs when the context resolution has completed, on the
    heap [w1] of that moment: [decide] is called on the state the unit has
    then, and if it returns [events], none of which makes [evolve] throw, the
    unit is left in the state obtained by folding [evolve] over [events] from
    that state; the write side of the unit is, event by event and in the
    order of [events], the evolution of the event followed by its emission on
    the unit's bus, and every event is emitted exactly once.  The listeners
    of the unit's bus and of its trace bus are observers. *)
Theorem settled_dispatch_folds_and_publishes (w w1 : World) (u : UnitId)
    (c : TCommand) (source : string) (ctx : TContext) (events : list TEvent)
    (s' : TState) :
  validate P u c = ParseSuccess ->
  resolves (resolveContext (dconfig P u) c) ctx ->
  calm_trace P w (dtrace P u) ->
  calm_trace P w1 (dtrace P u) ->
  calm_bus P w1 (EventsOf u) ->
  decide (dconfig P u) c (state_of P w1 u) ctx = Return events ->
  fold_evolve P u (state_of P w1 u) events = Return s' ->
  (exists w0 delta0,
     eventually (fun fuel => dispatch P (emit P fuel) u c source w) (Normal w0) /\
     log w0 = log w ++ delta0 /\
     ustate w0 = ustate w /\
     rejected w0 = rejected w /\
     write_side u delta0 = [] /\
     decided u delta0 = [] /\
     ((tasks w0 = tasks w ++ [{| k_unit := u; k_command := c; k_settled := Return ctx |}] /\
       awaiting w0 = awaiting w) \/
      (tasks w0 = tasks w /\
       awaiting w0
       = awaiting w ++ [{| k_unit := u; k_command := c; k_settled := Return ctx |}]))) /\
  (exists w' delta,
     eventually
       (fun fuel =>
          resume P fuel {| k_unit := u; k_command := c; k_settled := Return ctx |} w1)
       (Normal w') /\
     log w' = log w1 ++ delta /\
     decided u delta = [(c, state_of P w1 u)] /\
     state_of P w' u = s' /\
     write_side u delta = batch P u (state_of P w1 u) events /\
     emitted_on (EventsOf u) delta = (fun e => MEvent (Domain e)) <$> events /\
     frame w1 w' /\
     forall u', u' <> u -> ustate w' !! u' = ustate w1 !! u').
Proof.
  intros Hvalid Hres Htr Htr1 Hbus1 Hdecide Hfold.
  set (k := {| k_unit := u; k_command := c; k_settled := Return ctx |} : Continuation).
  split.
  - destruct (dispatch_calm u c source w Htr)
      as (w0 & d0 & Hrun & _ & Hus & Hts & Haw & Hrej & _ & Hlog & Hd & _).
    { intros Hne. by destruct Hne. }
    exists w0, d0.
    split; [done |]. split; [done |]. split; [done |]. split; [done |].
    split.
    { by rewrite <- write_side_decider_log, Hd, write_side_dispatch_steps, Hvalid. }
    split.
    { rewrite <- decided_decider_log, Hd. apply decided_dispatch_steps. }
    rewrite Hts, Haw. unfold queued, parked. rewrite Hvalid.
    destruct Hres as [-> | ->]; [left | right]; by rewrite app_nil_r.
  - assert (Hev : decided_events P w1 k = events).
    { unfold decided_events. cbn. by rewrite Hdecide. }
    destruct (resume_calm k w1)
      as (w' & delta & Hrun & Hframe & Hlog & Hd & Hs & Hothers & _); [done | done |].
    assert (Hws : write_side u delta = batch P u (state_of P w1 u) events).
    { rewrite <- write_side_decider_log, Hd, <- Hev.
      exact (write_side_resume_steps w1 k). }
    exists w', delta.
    split; [done |]. split; [done |].
    split.
    { rewrite <- decided_decider_log, Hd. exact (decided_resume_steps w1 k). }
    split.
    { cbn [k_unit k] in Hs. rewrite Hs. unfold resume_state. rewrite Hev.
      by apply last_good_fold. }
    split; [done |].
    split.
    { rewrite <- emitted_on_write_side, Hws. by eapply emitted_on_batch. }
    by split.
Qed.

(** A [dispatch] that runs on its own, the call and then the settlement of
    its context with nothing in between, on a heap with an empty queue:
    [decide] is called on the state [dispatch] found, and the unit is left
    in the state obtained by folding [evolve] over the events from that
    state.  The listeners of the unit's bus and of its trace bus are
    observers. *)
Lemma dispatch_alone_folds_and_publishes (w : World) (u : UnitId) (c : TCommand)
    (ctx : TContext) (events : list TEvent) (s' : TState) :
  tasks w = [] ->
  calm_trace P w (dtrace P u) ->
  calm_bus P w (EventsOf u) ->
  validate P u c = ParseSuccess ->
  resolves (resolveContext (dconfig P u) c) ctx ->
  decide (dconfig P u) c (state_of P w u) ctx = Return events ->
  fold_evolve P u (state_of P w u) events = Return s' ->
  exists w' delta,
    eventually (fun fuel => dispatch_alone P fuel u c w) (Normal w') /\
    log w' = log w ++ delta /\
    state_of P w' u = s' /\
    write_side u delta = batch P u (state_of P w u) events /\
    emitted_on (EventsOf u) delta = (fun e => MEvent (Domain e)) <$> events /\
    rejected w' = rejected w.
Proof.
  intros Ht Htr Hbus Hvalid Hres Hdecide Hfold.
  set (k := {| k_unit := u; k_command := c; k_settled := Return ctx |} : Continuation).
  destruct (dispatch_alone_calm u c (Return ctx) w)
    as (w' & delta & Hrun & Hlog & Hd & Hs & _ & _ & _ & Hrej & _);
    try done; [by apply resolves_awaited |].
  assert (Hev : decided_events P w k = events).
  { unfold decided_events. cbn. by rewrite Hdecide. }
  assert (Hws : write_side u delta = batch P u (state_of P w u) events).
  { rewrite (write_side_dispatch_alone u c (Return ctx) w delta Hvalid Hd).
    fold k. by rewrite Hev. }
  exists w', delta.
  split; [done |]. split; [done |].
  split; [| split; [done | split; [| done]]].
  - rewrite Hs. unfold resume_state. fold k. rewrite Hev. by apply last_good_fold.
  - rewrite <- emitted_on_write_side, Hws. by eapply emitted_on_batch.
Qed.

(** C5. [decide] returned [done_ ++ ek :: rest] and [evolve] throws on
    [ek]: the unit keeps the state reached by folding [evolve] over
    [done_], exactly the events of [done_] have been evolved and emitted on
    the unit's bus, neither [ek] nor an event of [rest] is, and an error
    entry is emitted on the trace bus.  The listeners of the unit's bus and
    of its trace bus are observers. *)
Theorem evolve_throw_halts_batch (w : World) (u : UnitId) (c : TCommand)
    (ctx : TContext) (done_ rest : list TEvent) (ek : TEvent) (sk : TState)
    (e : Err) (tb : BusId) :
  tasks w = [] ->
  dtrace P u = Some tb ->
  calm_trace P w (dtrace P u) ->
  calm_bus P w (EventsOf u) ->
  validate P u c = ParseSuccess ->
  resolves (resolveContext (dconfig P u) c) ctx ->
  decide (dconfig P u) c (state_of P w u) ctx = Return (done_ ++ ek :: rest) ->
  fold_evolve P u (state_of P w u) done_ = Return sk ->
  evolve (dconfig P u) sk ek = Throw e ->
  exists w' delta,
    eventually (fun fuel => dispatch_alone P fuel u c w) (Normal w') /\
    log w' = log w ++ delta /\
    state_of P w' u = sk /\
    write_side u delta = batch P u (state_of P w u) done_ /\
    emitted_on (EventsOf u) delta = (fun e => MEvent (Domain e)) <$> done_ /\
    exists timestamp, MTrace (TrError timestamp "decide" e) ∈ emitted_on tb delta.
Proof.
  intros Ht Htb Htr Hbus Hvalid Hres Hdecide Hfold Hthrow.
  destruct (fold_evolve_stops u e ek rest done_ _ _ Hfold Hthrow)
    as (Hfold' & Hlast & Hbatch).
  set (k := {| k_unit := u; k_command := c; k_settled := Return ctx |} : Continuation).
  destruct (dispatch_alone_calm u c (Return ctx) w)
    as (w' & delta & Hrun & Hlog & Hd & Hs & _ & _ & _ & _ & _ & Hin);
    try done; [by apply resolves_awaited |].
  assert (Hev : decided_events P w k = done_ ++ ek :: rest).
  { unfold decided_events. cbn. by rewrite Hdecide. }
  assert (Hws : write_side u delta = batch P u (state_of P w u) done_).
  { rewrite (write_side_dispatch_alone u c (Return ctx) w delta Hvalid Hd).
    fold k. by rewrite Hev, Hbatch. }
  exists w', delta.
  split; [done |]. split; [done |].
  split; [| split; [done | split]].
  - rewrite Hs. unfold resume_state. fold k. by rewrite Hev.
  - rewrite <- emitted_on_write_side, Hws. by eapply emitted_on_batch.
  - exists (clock w). apply Hin; [done |]. unfold resume_error. cbn.
    by rewrite Hdecide, Hfold'.
Qed.

Lemma command_tag_is_type (c : TCommand) (t : string) :
  type_of P c = Some t -> t <> "" -> command_tag P c = t.
Proof. intros Ht Hne. unfold command_tag. rewrite Ht. by rewrite decide_False. Qed.

(** C3. A schema is configured and the command does not parse: [dispatch]
    emits on the unit's bus exactly one event, [CommandValidationFailed]
    with the command's [type] (when it has a non-empty one) and zod's
    formatted errors and issues; the state of every unit is unchanged,
    neither [resolveContext] nor [decide] is called, and no continuation
    is left behind.  The listeners of the unit's bus and of its trace bus
    are observers. *)
Theorem invalid_command_is_rejected (w : World) (u : UnitId) (c : TCommand)
    (source : string) (schema : TCommand -> SafeParse) (error : ZodError) :
  commandSchema (dconfig P u) = Some schema ->
  schema c = ParseFailure error ->
  calm_trace P w (dtrace P u) ->
  calm_bus P w (EventsOf u) ->
  exists w' delta,
    eventually (fun fuel => dispatch P (emit P fuel) u c source w) (Normal w') /\
    log w' = log w ++ delta /\
    emitted_on (EventsOf u) delta
    = [MEvent (CommandValidationFailed (command_tag P c) (format error) (issues error))] /\
    (forall t, type_of P c = Some t -> t <> "" -> command_tag P c = t) /\
    ustate w' = ustate w /\
    consulted u delta = [] /\
    tasks w' = tasks w /\ awaiting w' = awaiting w.
Proof.
  intros Hschema Hparse Htr Hbus.
  assert (Hvalid : validate P u c = ParseFailure error).
  { unfold validate. by rewrite Hschema. }
  destruct (dispatch_calm u c source w Htr)
    as (w' & delta & Hrun & Hb & Hu & Ht & Ha & Hr & Hc & Hl & Hd & _); [done |].
  unfold queued in Ht. unfold parked in Ha. unfold dispatch_steps in Hd.
  rewrite Hvalid in Ht, Ha, Hd. rewrite app_nil_r in Ht, Ha.
  exists w', delta.
  split; [done |]. split; [done |].
  split; [| split; [apply command_tag_is_type | split; [done | split; [| done]]]].
  - rewrite <- emitted_on_decider_log, Hd. cbn. by rewrite decide_True.
  - by rewrite <- consulted_decider_log, Hd.
Qed.

Lemma emitted_on_dispatch_steps_valid (u : UnitId) (c : TCommand) (source : string) :
  validate P u c = ParseSuccess ->
  emitted_on (EventsOf u) (dispatch_steps P u c source) = [].
Proof. intros Hvalid. unfold dispatch_steps. by rewrite Hvalid. Qed.

(** C4. [resolveContext] throws, or the promise it returned is rejected,
    or [decide] throws: the state of every unit is unchanged, nothing is
    emitted on the unit's bus, an error entry is emitted on the trace bus,
    and the caller sees no exception (no call of [dispatch] ever throws)
    nor a rejected promise.  The listeners of the trace bus are
    observers. *)
Theorem throwing_command_aborts (w : World) (u : UnitId) (c : TCommand) (e : Err)
    (tb : BusId) :
  tasks w = [] ->
  dtrace P u = Some tb ->
  calm_trace P w (dtrace P u) ->
  validate P u c = ParseSuccess ->
  resolveContext (dconfig P u) c = ResolveThrows e \/
  resolveContext (dconfig P u) c = ResolvePromise (Throw e) \/
  (exists ctx, resolves (resolveContext (dconfig P u) c) ctx /\
               decide (dconfig P u) c (state_of P w u) ctx = Throw e) ->
  exists w' delta,
    eventually (fun fuel => dispatch_alone P fuel u c w) (Normal w') /\
    log w' = log w ++ delta /\
    (forall u', state_of P w' u' = state_of P w u') /\
    emitted_on (EventsOf u) delta = [] /\
    (exists timestamp, MTrace (TrError timestamp "decide" e) ∈ emitted_on tb delta) /\
    rejected w' = rejected w /\
    forall fuel source e' w'',
      dispatch P (emit P fuel) u c source w <> Throws e' w''.
Proof.
  intros Ht Htb Htr Hvalid Hthrow.
  assert (Hstates : forall (w' : World) s,
    state_of P w' u = s -> s = state_of P w u ->
    (forall u', u' <> u -> ustate w' !! u' = ustate w !! u') ->
    forall u', state_of P w' u' = state_of P w u').
  { intros w' s Hs Hs' Ho u'. destruct (base.decide (u' = u)) as [-> | Hne].
    - congruence.
    - unfold state_of. by rewrite Ho. }
  destruct Hthrow as [Hres | [Hres | (ctx & Hres & Hdecide)]].
  - assert (Hq : queued P u c = []) by (unfold queued; by rewrite Hvalid, Hres).
    assert (Hp : parked P u c = []) by (unfold parked; by rewrite Hvalid, Hres).
    destruct (turn_dispatch u c w)
      as (w1 & d1 & Hturn & Hb & Htasks & Ha & Hrej & Hc & Hl & Ho & Hd & Hs & Hin);
      try done.
    { right. split; [done |]. intros k Hk. rewrite Hq in Hk. by apply elem_of_nil in Hk. }
    rewrite Hq in Hd, Hs. rewrite Hp, app_nil_r in Ha.
    cbn [flat_map] in Hd. rewrite app_nil_r in Hd.
    exists w1, d1.
    split.
    { unfold dispatch_alone. cbn [run]. ev_bind w1; [exact Hturn |].
      ev_bind w1; [| apply eventually_now].
      cbn [turn]. rewrite Ha, lookup_ge_None_2 by done. apply eventually_now. }
    split; [done |]. split; [by eapply Hstates |].
    split; [by rewrite <- emitted_on_decider_log, Hd, emitted_on_dispatch_steps_valid |].
    split; [| split; [done | intros; apply dispatch_does_not_throw]].
    exists (clock w). apply Hin; [done |]. left. unfold dispatch_error.
    by rewrite Hvalid, Hres.
  - set (k := {| k_unit := u; k_command := c; k_settled := Throw e |} : Continuation).
    destruct (dispatch_alone_calm u c (Throw e) w)
      as (w' & delta & Hrun & Hlog & Hd & Hs & _ & _ & _ & Hrej & Ho & Hin); try done.
    { by rewrite Hres. }
    exists w', delta.
    split; [done |]. split; [done |].
    split; [by eapply Hstates |].
    split; [| split; [| split; [done | intros; apply dispatch_does_not_throw]]].
    + rewrite <- emitted_on_write_side.
      by rewrite (write_side_dispatch_alone u c (Throw e) w delta Hvalid Hd).
    + exists (clock w). by apply Hin.
  - set (k := {| k_unit := u; k_command := c; k_settled := Return ctx |} : Continuation).
    assert (Hev : decided_events P w k = []).
    { unfold decided_events, k. cbn [k_unit k_command k_settled]. by rewrite Hdecide. }
    destruct (dispatch_alone_calm u c (Return ctx) w)
      as (w' & delta & Hrun & Hlog & Hd & Hs & _ & _ & _ & Hrej & Ho & Hin); try done.
    { by apply resolves_awaited. }
    exists w', delta.
    split; [done |]. split; [done |].
    split.
    { eapply Hstates; [exact Hs | | done]. unfold resume_state. fold k. by rewrite Hev. }
    split; [| split; [| split; [done | intros; apply dispatch_does_not_throw]]].
    + rewrite <- emitted_on_write_side.
      rewrite (write_side_dispatch_alone u c (Return ctx) w delta Hvalid Hd).
      fold k. by rewrite Hev.
    + exists (clock w). apply Hin; [done |]. unfold resume_error. cbn.
      by rewrite Hdecide.
Qed.

(** ** The projector *)

Lemma omap_deliveries {A : Type} (f : Obs -> option A) (b : BusId) (m : Msg)
    (ls : list ListenerId) :
  (forall l, f (ODeliver b l m) = None) -> omap f (deliveries b m ls) = [].
Proof.
  intros Hf. induction ls as [| l ls IH]; [done |].
  unfold deliveries in *. cbn. by rewrite Hf.
Qed.

(** Of an emission to passive listeners, a reader that skips deliveries
    sees the call of [emit] at most. *)
Lemma omap_emission {A : Type} (f : Obs -> option A) (b : BusId) (m : Msg)
    (data : list (option ListenerId)) :
  (forall l, f (ODeliver b l m) = None) ->
  f (OEmitDone b m) = None ->
  omap f (emission b m data) = match f (OEmit b m) with Some x => [x] | None => [] end.
Proof.
  intros Hd Hdone. unfold emission.
  change (OEmit b m :: ?x) with ([OEmit b m] ++ x).
  rewrite !omap_app, omap_deliveries by done. cbn. rewrite Hdone.
  by destruct (f (OEmit b m)).
Qed.

Lemma emitted_on_emission_same (b : BusId) (m : Msg) (data : list (option ListenerId)) :
  emitted_on b (emission b m data) = [m].
Proof.
  unfold emitted_on. rewrite omap_emission by done. by rewrite decide_True.
Qed.

Lemma delivered_emission_other (b b' : BusId) (m : Msg) (data : list (option ListenerId)) :
  b' <> b -> delivered b (emission b' m data) = [].
Proof.
  intros Hb. unfold delivered. rewrite omap_emission; [done | | done].
  intros l. by rewrite decide_False.
Qed.

Lemma emitted_on_deliveries (b b' : BusId) (m : Msg) (ls : list ListenerId) :
  emitted_on b (deliveries b' m ls) = [].
Proof. unfold emitted_on. by rewrite omap_deliveries. Qed.

(** C9. A projector whose [project] throws on an event: the exception is
    caught, an error entry is emitted on the trace bus, the projector's
    read state and the state of every unit are unchanged, and every
    listener of the bus, also those behind the projector, is called with
    the event.  The other listeners of the bus and those of the trace bus
    return without calling the runtime. *)
Theorem failing_projection_is_isolated (w : World) (b : BusId) (event : Msg)
    (pre post : list (option ListenerId)) (l : ListenerId) (p : ProjectorId)
    (e : Err) (tb : BusId) :
  listeners w b = pre ++ Some l :: post ->
  quiet P pre ->
  quiet P post ->
  code P l = ProjectorL p ->
  project (pconfig P p) (read_state_of P w p) event = Throw e ->
  ptrace P p = Some tb ->
  quiet_bus P w tb ->
  exists w' delta,
    eventually (fun fuel => emit P fuel b event w) (Normal w') /\
    log w' = log w ++ delta /\
    read_state_of P w' p = read_state_of P w p /\
    ustate w' = ustate w /\
    delivered b delta = (fun l' => (l', event)) <$> live (listeners w b) /\
    exists timestamp, emitted_on tb delta = [MTrace (TrError timestamp "project" e)].
Proof.
  intros Hdata Hpre Hpost Hcode Hproject Htb Htr.
  assert (Hne : tb <> b).
  { intros ->.
    assert (Hin : Some l ∈ listeners w b).
    { rewrite Hdata. apply elem_of_app. right. by left. }
    destruct (Htr l Hin event) as (script & Hscript & _). congruence. }
  pose (m := event).
  set (t := MTrace (TrError (clock w) "project" e) : Msg).
  set (delta := [OEmit b m] ++ deliveries b m (live pre) ++ [ODeliver b l m]
                ++ emission tb t (listeners w tb)
                ++ deliveries b m (live post) ++ [OEmitDone b m]).
  exists (records delta w), delta.
  assert (Hlen : length (listeners w b) = length pre + S (length post)).
  { rewrite Hdata, length_app. reflexivity. }
  split; [| split; [done | split; [done | split; [done | split]]]].
  - exists (length (listeners w b) + fuel_for w tb + 3). intros fuel Hfuel.
    destruct fuel as [| fuel]; [lia |]. rewrite emit_S.
    replace fuel with (length pre + (fuel - length pre)) by lia.
    rewrite (forEach_passive_prefix b m pre (Some l :: post));
      [| by rewrite listeners_record, drop_0 | by apply quiet_quiet_on].
    rewrite record_records. simpl.
    destruct (fuel - length pre) as [| fuel'] eqn:Hfuel'; [lia |].
    rewrite forEach_S. rewrite listeners_records, Hdata, listeners_lookup_middle.
    unfold call at 1. rewrite Hcode. unfold projector_listener, m.
    set (w1 := record _ (records _ w)).
    change (read_state_of P w1 p) with (read_state_of P w p).
    rewrite Hproject. cbn [try_catch]. rewrite Htb. cbn [trace_emit].
    rewrite emit_quiet; [| done | unfold fuel_for in *; unfold w1; same_listeners; lia].
    cbn [bind]. rewrite forEach_quiet.
    + same_listeners. unfold w1. same_listeners. rewrite Hdata, drop_after_middle.
      cbn [bind]. f_equal. unfold w1.
      rewrite !record_records, !records_records, records_record. f_equal.
      unfold delta, t, m. by list_norm.
    + same_listeners. unfold w1. same_listeners. rewrite Hdata, drop_after_middle.
      by apply quiet_quiet_on.
    + same_listeners. unfold w1. same_listeners. lia.
  - unfold delta. rewrite !delivered_app, !delivered_deliveries.
    rewrite delivered_emission_other by done. simpl. rewrite decide_True by done.
    rewrite Hdata, live_app. simpl. rewrite !fmap_app. simpl.
    by list_norm.
  - exists (clock w). unfold delta. rewrite !emitted_on_app, !emitted_on_deliveries.
    rewrite emitted_on_emission_same. simpl. rewrite decide_False by done. done.
Qed.

(** ** The process manager *)

(** An emission on a bus where every listener but one is an observer: the
    observers in front of the listener are called, then the listener, then
    the observers behind it. *)
Lemma emit_calm_around (b : BusId) (m : Msg) (w : World)
    (pre post : list (option ListenerId)) (l : ListenerId) (Q : list Obs -> Prop) :
  listeners w b = pre ++ Some l :: post ->
  calm P (buses w) pre ->
  calm P (buses w) post ->
  (forall w1, buses w1 = buses w ->
     exists w2 d2,
       eventually (fun fuel => call P (emit P fuel) l m w1) (Normal w2) /\
       buses w2 = buses w1 /\ log w2 = log w1 ++ d2 /\ Q d2) ->
  exists w' d1 d2 d3,
    eventually (fun fuel => emit P fuel b m w) (Normal w') /\
    log w' = log w ++ OEmit b m :: d1 ++ ODeliver b l m :: d2 ++ d3 /\
    decider_log d1 = [] /\ Q d2 /\ decider_log d3 = [].
Proof.
  intros Hdata Hpre Hpost Hcall.
  destruct (forEach_calm_prefix b m pre (Some l :: post) 0 (record (OEmit b m) w))
    as (w1 & d1 & Hf1 & Hu1 & Hl1 & Hd1 & Hk1).
  { by rewrite drop_0. }
  { exact Hpre. }
  assert (Hb1 : buses w1 = buses w) by apply Hf1.
  destruct (Hcall (record (ODeliver b l m) w1) Hb1) as (w2 & d2 & Hrun2 & Hb2 & Hl2 & HQ).
  assert (Hb2' : buses w2 = buses w) by (rewrite Hb2; exact Hb1).
  destruct (forEach_calm_prefix b m post [] (S (length pre)) w2)
    as (w3 & d3 & Hf3 & Hu3 & Hl3 & Hd3 & Hk3).
  { rewrite (same_buses_listeners w w2), Hdata, app_nil_r by done.
    apply drop_after_middle. }
  { by rewrite Hb2'. }
  assert (Hb3 : buses w3 = buses w) by (rewrite <- Hb2'; apply Hf3).
  exists (record (OEmitDone b m) w3), d1, d2, (d3 ++ [OEmitDone b m]).
  split.
  { apply eventually_emit. ev_bind w3; [| apply eventually_now].
    apply Hk1. cbn [Nat.add].
    apply (eventually_forEach_call b m (length pre) w1 l).
    { rewrite (same_buses_listeners w w1), Hdata by done. apply listeners_lookup_middle. }
    ev_bind w2; [exact Hrun2 |]. apply Hk3. apply eventually_forEach_end.
    apply lookup_ge_None.
    rewrite (same_buses_listeners w w3), Hdata, length_app by done. cbn [length]. lia. }
  split.
  { heap_simpl. rewrite Hl3, Hl2. heap_simpl. rewrite Hl1. by list_norm. }
  split; [done |]. split; [done |]. dlog. by rewrite Hd3.
Qed.

Lemma dispatched_dispatch_steps (u u' : UnitId) (c : TCommand) (source : string) :
  dispatched u (dispatch_steps P u' c source) = if base.decide (u' = u) then [c] else [].
Proof.
  unfold dispatch_steps. destruct (validate P u' c); cbn; by case_decide.
Qed.

Lemma dispatched_all_steps (u u' : UnitId) (commands : list TCommand) :
  dispatched u (flat_map (fun c => dispatch_steps P u' c "user") commands)
  = if base.decide (u' = u) then commands else [].
Proof.
  induction commands as [| c rest IH]; cbn [flat_map]; [by case_decide |].
  rewrite dispatched_app, dispatched_dispatch_steps, IH. by case_decide.
Qed.

(** The loop over [targetDispatch] calls [dispatch] of the target once for
    every command, in order. *)
Lemma dispatch_all_calm (target : UnitId) (commands : list TCommand) :
  forall w : World,
    calm_trace P w (dtrace P target) ->
    calm_bus P w (EventsOf target) ->
    exists w' delta,
      eventually (fun fuel => dispatch_all P (emit P fuel) target commands w)
        (Normal w') /\
      buses w' = buses w /\
      log w' = log w ++ delta /\
      decider_log delta = flat_map (fun c => dispatch_steps P target c "user") commands.
Proof.
  induction commands as [| c rest IH]; intros w Htr Hbus.
  - exists w, []. cbn. rewrite app_nil_r. split; [apply eventually_now | done].
  - destruct (dispatch_calm target c "user" w Htr)
      as (w1 & d1 & Hrun1 & Hb1 & _ & _ & _ & _ & _ & Hl1 & Hd1 & _); [done |].
    destruct (IH w1) as (w' & delta & Hrun & Hb & Hlog & Hd).
    { by apply (calm_trace_same_buses w). }
    { by apply (calm_bus_same_buses w). }
    exists w', (d1 ++ delta). split.
    { cbn [dispatch_all]. ev_bind w1; [exact Hrun1 | exact Hrun]. }
    split; [congruence |]. split; [rewrite Hlog, Hl1; by rewrite app_assoc |].
    cbn [flat_map]. by rewrite decider_log_app, Hd1, Hd.
Qed.

(** C8. A process manager wired from unit [A] to unit [B], and an event
    emitted on the bus of [A]: when [filter] returns [false], [dispatch]
    is not called at all; when it returns [true] and [react] returns
    [commands], [dispatch] of [B] is called with exactly these commands, in
    their order, and [dispatch] of no other unit is called.  The other
    listeners of the bus of [A], those of the bus of [B] and those of the
    trace buses are observers. *)
Theorem reaction_dispatches_commands (w : World) (A B : UnitId) (event : Msg)
    (pre post : list (option ListenerId)) (l : ListenerId)
    (config : ProcessManagerConfig) (tr : option BusId) :
  listeners w (EventsOf A) = pre ++ Some l :: post ->
  calm P (buses w) pre ->
  calm P (buses w) post ->
  code P l = ProcessManagerL config B tr ->
  calm_trace P w tr ->
  calm_trace P w (dtrace P B) ->
  calm_bus P w (EventsOf B) ->
  (filter config event = Return false ->
   exists w' delta,
     eventually (fun fuel => emit P fuel (EventsOf A) event w) (Normal w') /\
     log w' = log w ++ delta /\
     forall u, dispatched u delta = []) /\
  (forall commands,
     filter config event = Return true ->
     react config event = Return commands ->
     exists w' delta,
       eventually (fun fuel => emit P fuel (EventsOf A) event w) (Normal w') /\
       log w' = log w ++ delta /\
       dispatched B delta = commands /\
       forall u, u <> B -> dispatched u delta = []).
Proof.
  intros Hdata Hpre Hpost Hcode Htr HtrB HbusB.
  assert (Hread : forall u d1 d2 d3,
    decider_log d1 = [] -> decider_log d3 = [] ->
    dispatched u (OEmit (EventsOf A) event :: d1 ++ ODeliver (EventsOf A) l event :: d2 ++ d3)
    = dispatched u (decider_log d2)).
  { intros u d1 d2 d3 Hd1 Hd3. rewrite <- dispatched_decider_log. dlog.
    by rewrite Hd1, Hd3, app_nil_r. }
  split.
  - intros Hfilter.
    destruct (emit_calm_around (EventsOf A) event w pre post l (fun d2 => d2 = []))
      as (w' & d1 & d2 & d3 & Hrun & Hlog & Hd1 & -> & Hd3); try done.
    { intros w1 Hb1. exists w1, []. unfold call. rewrite Hcode.
      unfold process_manager_listener. rewrite Hfilter.
      split; [apply eventually_now |]. by rewrite app_nil_r. }
    eexists w', _. split; [exact Hrun |]. split; [exact Hlog |].
    intros u. by rewrite Hread.
  - intros commands Hfilter Hreact.
    destruct (emit_calm_around (EventsOf A) event w pre post l
                (fun d2 => decider_log d2
                           = flat_map (fun c => dispatch_steps P B c "user") commands))
      as (w' & d1 & d2 & d3 & Hrun & Hlog & Hd1 & Hd2 & Hd3); try done.
    { intros w1 Hb1. unfold call. rewrite Hcode.
      unfold process_manager_listener. rewrite Hfilter, Hreact.
      destruct (trace_emit_calm tr
                  (TrProcessManager (clock w1) (mname config) event commands) w1)
        as (w2 & dt & Hrun2 & Hf2 & _ & Hl2 & Hdt & _).
      { by apply (calm_trace_same_buses w). }
      assert (Hb2 : buses w2 = buses w1) by apply Hf2.
      destruct (dispatch_all_calm B commands w2) as (w3 & da & Hrun3 & Hb3 & Hl3 & Hda).
      { apply (calm_trace_same_buses w); [congruence | done]. }
      { apply (calm_bus_same_buses w); [congruence | done]. }
      exists w3, (dt ++ da).
      split; [ev_try_normal; ev_bind w2; [exact Hrun2 | exact Hrun3] |].
      split; [congruence |]. split; [rewrite Hl3, Hl2; by rewrite app_assoc |].
      by rewrite decider_log_app, Hdt, Hda. }
    eexists w', _. split; [exact Hrun |]. split; [exact Hlog |]. split.
    + rewrite Hread, Hd2, dispatched_all_steps by done. by rewrite decide_True.
    + intros u Hu. rewrite Hread, Hd2, dispatched_all_steps by done.
      rewrite decide_False; [done | congruence].
Qed.

(** ** Two commands in flight *)

(** C2, as the code has it.  [dispatch] keeps no queue.  Two commands are
    dispatched to a unit, both wait for their context, and the context of
    the second settles first: the second command is decided on the state
    the unit had, evolved and published; only then the first is decided,
    on the state the second left.  Each command's events are evolved and
    published in one run, so the two batches do not interleave.  The
    listeners of the unit's bus and of its trace bus are observers. *)
Theorem dispatches_run_in_settlement_order (w : World) (u : UnitId)
    (c1 c2 : TCommand) (ctx1 ctx2 : TContext) (events1 events2 : list TEvent)
    (s1 s2 : TState) :
  tasks w = [] ->
  awaiting w = [] ->
  calm_trace P w (dtrace P u) ->
  calm_bus P w (EventsOf u) ->
  validate P u c1 = ParseSuccess ->
  validate P u c2 = ParseSuccess ->
  resolveContext (dconfig P u) c1 = ResolvePromise (Return ctx1) ->
  resolveContext (dconfig P u) c2 = ResolvePromise (Return ctx2) ->
  decide (dconfig P u) c2 (state_of P w u) ctx2 = Return events2 ->
  fold_evolve P u (state_of P w u) events2 = Return s2 ->
  decide (dconfig P u) c1 s2 ctx1 = Return events1 ->
  fold_evolve P u s2 events1 = Return s1 ->
  exists w' delta,
    eventually
      (fun fuel => run P fuel [UserCall (CDispatch u c1); UserCall (CDispatch u c2);
                               Settle 1; Settle 0] w) (Normal w') /\
    log w' = log w ++ delta /\
    dispatched u delta = [c1; c2] /\
    decided u delta = [(c2, state_of P w u); (c1, s2)] /\
    write_side u delta = batch P u (state_of P w u) events2 ++ batch P u s2 events1 /\
    state_of P w' u = s1.
Proof.
  intros Ht Ha Htr Hbus Hv1 Hv2 Hr1 Hr2 Hd2 Hf2 Hd1 Hf1.
  set (k1 := {| k_unit := u; k_command := c1; k_settled := Return ctx1 |} : Continuation).
  set (k2 := {| k_unit := u; k_command := c2; k_settled := Return ctx2 |} : Continuation).
  assert (Hq1 : queued P u c1 = []) by (unfold queued; by rewrite Hv1, Hr1).
  assert (Hp1 : parked P u c1 = [k1]) by (unfold parked; by rewrite Hv1, Hr1).
  assert (Hq2 : queued P u c2 = []) by (unfold queued; by rewrite Hv2, Hr2).
  assert (Hp2 : parked P u c2 = [k2]) by (unfold parked; by rewrite Hv2, Hr2).
  (* the first call *)
  destruct (turn_dispatch u c1 w)
    as (w1 & d1 & Hturn1 & Hb1 & Ht1 & Ha1 & _ & _ & Hl1 & _ & Hs1' & Hs1 & _);
    try done; [by left |].
  rewrite Hq1 in Hs1', Hs1. rewrite Hp1, Ha in Ha1. cbn in Ha1, Hs1'.
  rewrite app_nil_r in Hs1'.
  (* the second call *)
  destruct (turn_dispatch u c2 w1)
    as (w2 & d2 & Hturn2 & Hb2 & Ht2 & Ha2 & _ & _ & Hl2 & _ & Hs2' & Hs2 & _);
    try done.
  { by apply (calm_trace_same_buses w). }
  { left. by apply (calm_bus_same_buses w). }
  rewrite Hq2 in Hs2', Hs2. rewrite Hp2, Ha1 in Ha2. cbn in Ha2, Hs2'.
  rewrite app_nil_r in Hs2'.
  assert (Hbs2 : buses w2 = buses w) by congruence.
  assert (Hus2 : state_of P w2 u = state_of P w u) by congruence.
  (* the context of the second command settles *)
  destruct (turn_settle 1 k2 w2)
    as (w3 & d3 & Hturn3 & Hb3 & Ht3 & Ha3 & _ & _ & Hl3 & Hs3' & Hs3 & _); try done.
  { by rewrite Ha2. }
  { by apply (calm_trace_same_buses w). }
  { intros _. by apply (calm_bus_same_buses w). }
  rewrite Ha2 in Ha3. cbn in Ha3.
  assert (Hev2 : decided_events P w2 k2 = events2).
  { unfold decided_events, k2. cbn [k_unit k_command k_settled]. by rewrite Hus2, Hd2. }
  assert (Hbs3 : buses w3 = buses w) by congruence.
  assert (Hus3 : state_of P w3 u = s2).
  { etransitivity; [exact Hs3 |]. unfold resume_state. rewrite Hev2.
    cbn [k_unit k2]. rewrite Hus2. by apply last_good_fold. }
  (* the context of the first command settles *)
  destruct (turn_settle 0 k1 w3)
    as (w4 & d4 & Hturn4 & Hb4 & Ht4 & Ha4 & _ & _ & Hl4 & Hs4' & Hs4 & _); try done.
  { by rewrite Ha3. }
  { by apply (calm_trace_same_buses w). }
  { intros _. by apply (calm_bus_same_buses w). }
  assert (Hev1 : decided_events P w3 k1 = events1).
  { unfold decided_events, k1. cbn [k_unit k_command k_settled]. by rewrite Hus3, Hd1. }
  exists w4, (d1 ++ d2 ++ d3 ++ d4).
  split.
  { cbn [run]. ev_bind w1; [exact Hturn1 |]. ev_bind w2; [exact Hturn2 |].
    ev_bind w3; [exact Hturn3 |]. ev_bind w4; [exact Hturn4 | apply eventually_now]. }
  split.
  { rewrite Hl4, Hl3, Hl2, Hl1. by rewrite <- !app_assoc. }
  assert (Hlog : decider_log (d1 ++ d2 ++ d3 ++ d4)
                 = dispatch_steps P u c1 "user" ++ dispatch_steps P u c2 "user"
                   ++ resume_steps P w2 k2 ++ resume_steps P w3 k1).
  { by rewrite !decider_log_app, Hs1', Hs2', Hs3', Hs4'. }
  assert (Hw2 := write_side_resume_steps w2 k2). change (k_unit k2) with u in Hw2.
  assert (Hw3 := write_side_resume_steps w3 k1). change (k_unit k1) with u in Hw3.
  assert (Hg2 := decided_resume_steps w2 k2). change (k_unit k2) with u in Hg2.
  assert (Hg3 := decided_resume_steps w3 k1). change (k_unit k1) with u in Hg3.
  rewrite Hev2, Hus2 in Hw2. rewrite Hev1, Hus3 in Hw3.
  rewrite Hus2 in Hg2. rewrite Hus3 in Hg3.
  split; [| split; [| split]].
  - rewrite <- dispatched_decider_log, Hlog.
    rewrite !dispatched_app, !dispatched_dispatch_steps, !dispatched_resume_steps.
    by rewrite !decide_True.
  - rewrite <- decided_decider_log, Hlog.
    by rewrite !decided_app, !decided_dispatch_steps, Hg2, Hg3.
  - rewrite <- write_side_decider_log, Hlog.
    by rewrite !write_side_app, !write_side_dispatch_steps, Hv1, Hv2, Hw2, Hw3.
  - etransitivity; [exact Hs4 |]. unfold resume_state. rewrite Hev1.
    cbn [k_unit k1]. rewrite Hus3. by apply last_good_fold.
Qed.

(** * Beyond the statements of the specification *)

Local Abbreviation TraceEntry :=
  (@TraceEntry TCommand TState TContext TEvent Err ZodFormatted ZodIssue).

(** ** Emissions to passive listeners, with enough fuel *)

Lemma forEach_quiet_rest (b : BusId) (m : Msg) (index : nat) (w : World) :
  quiet_on P m (drop index (listeners w b)) ->
  eventually (fun fuel => forEach P fuel b m index w)
    (Normal (records (deliveries b m (live (drop index (listeners w b)))) w)).
Proof.
  intros Hq. exists (S (length (listeners w b) - index)). intros fuel Hfuel.
  by apply forEach_quiet.
Qed.

(** [emit] up to the call of the listener behind a front of passive
    listeners. *)
Lemma emit_quiet_front (b : BusId) (m : Msg) (w : World)
    (pre post : list (option ListenerId)) (a : ListenerId) (o : Outcome) :
  listeners w b = pre ++ Some a :: post ->
  quiet_on P m pre ->
  eventually
    (fun fuel =>
       bind (bind (call P (emit P fuel) a m
                     (records (OEmit b m :: deliveries b m (live pre) ++ [ODeliver b a m]) w))
               (forEach P fuel b m (S (length pre))))
         (fun w' => Normal (record (OEmitDone b m) w'))) o ->
  eventually (fun fuel => emit P fuel b m w) o.
Proof.
  intros Hdata Hq [n H]. exists (n + length pre + 2). intros fuel Hfuel.
  replace fuel with (S (length pre + S (fuel - length pre - 2))) by lia.
  rewrite emit_S.
  rewrite (forEach_passive_prefix b m pre (Some a :: post));
    [| by rewrite listeners_record, drop_0 | done].
  rewrite forEach_S. same_listeners. cbn [Nat.add].
  rewrite Hdata, listeners_lookup_middle.
  rewrite record_records, records_record. apply H. lia.
Qed.

Lemma delivered_cons_here (b : BusId) (l : ListenerId) (m : Msg) (os : list Obs) :
  delivered b (ODeliver b l m :: os) = (l, m) :: delivered b os.
Proof. unfold delivered. cbn. by rewrite decide_True. Qed.

Lemma delivered_emit (b b' : BusId) (m : Msg) (os : list Obs) :
  delivered b (OEmit b' m :: os) = delivered b os.
Proof. reflexivity. Qed.

Lemma delivered_done (b b' : BusId) (m : Msg) :
  delivered b [OEmitDone b' m] = [].
Proof. reflexivity. Qed.

(** ** [emit] does not catch *)

(** X1. [emit] has no [try]: when a listener throws, the listeners in front
    of it have been called, the listeners behind it are not called, and the
    exception reaches the caller of [emit].  The listeners in front return
    without calling the runtime. *)
Theorem emit_stops_at_throwing_listener (w : World) (b : BusId) (m : Msg)
    (pre post : list (option ListenerId)) (a : ListenerId)
    (script : Msg -> World -> list Call) (e : Err) :
  listeners w b = pre ++ Some a :: post ->
  quiet_on P m pre ->
  code P a = UserL script ->
  (forall w', script m w' = [CThrow e]) ->
  exists delta,
    eventually (fun fuel => emit P fuel b m w) (Throws e (records delta w)) /\
    delivered b delta = (fun l => (l, m)) <$> (live pre ++ [a]).
Proof.
  intros Hdata Hpre Hcode Hscript.
  exists (OEmit b m :: deliveries b m (live pre) ++ [ODeliver b a m]). split.
  - apply (emit_quiet_front b m w pre post a); [done | done |].
    unfold call. rewrite Hcode, Hscript. cbn [run_script run_call bind].
    apply eventually_now.
  - rewrite delivered_emit, delivered_app, delivered_deliveries, delivered_cons_here.
    by rewrite fmap_app.
Qed.

(** ** [subscribe] and the function it returns *)

Lemma live_set_delete_filter (l : ListenerId) (data : list (option ListenerId)) :
  live (set_delete l data) = base.filter (fun x => x <> l) (live data).
Proof.
  induction data as [| [x |] data IH]; [done | | done].
  unfold set_delete, live in *. cbn [fmap list_fmap omap list_omap].
  case_decide as Hx; cbn [id omap list_omap].
  - simplify_eq. rewrite filter_cons_False by (intros H; by apply H). exact IH.
  - rewrite filter_cons_True by congruence. by rewrite IH.
Qed.

Lemma set_delete_idempotent (l : ListenerId) (data : list (option ListenerId)) :
  set_delete l (set_delete l data) = set_delete l data.
Proof.
  unfold set_delete. rewrite <- list_fmap_compose. apply list_fmap_ext.
  intros i e _. cbn. by repeat case_decide.
Qed.

Lemma listeners_unsubscribe_ne (b b' : BusId) (l : ListenerId) (w : World) :
  b <> b' -> listeners (unsubscribe b l w) b' = listeners w b'.
Proof.
  intros Hne. unfold unsubscribe, listeners at 1. simpl. by rewrite lookup_insert_ne.
Qed.

(** X2. The function returned by [subscribe] deletes its listener and
    nothing else: the other listeners of the bus keep their order, the other
    buses are untouched, and calling it again changes nothing. *)
Theorem unsubscribe_removes_only_that_listener (w : World) (b : BusId) (l : ListenerId) :
  live (listeners (unsubscribe b l w) b)
  = base.filter (fun x => x <> l) (live (listeners w b)) /\
  (forall b', b' <> b -> listeners (unsubscribe b l w) b' = listeners w b') /\
  unsubscribe b l (unsubscribe b l w) = unsubscribe b l w.
Proof.
  split; [| split].
  - rewrite listeners_unsubscribe. apply live_set_delete_filter.
  - intros b' Hb'. by apply listeners_unsubscribe_ne.
  - unfold unsubscribe at 1. rewrite listeners_unsubscribe, set_delete_idempotent.
    unfold unsubscribe, set_buses. simpl. by rewrite insert_insert_eq.
Qed.

(** X3. A [Set] keeps insertion order and [delete] gives the place up: a
    listener that is unsubscribed and subscribed again is called after all
    the others from then on. *)
Theorem resubscribed_listener_is_called_last (w : World) (b : BusId) (f : ListenerId) :
  live (listeners (subscribe b f (unsubscribe b f w)) b)
  = base.filter (fun x => x <> f) (live (listeners w b)) ++ [f].
Proof.
  rewrite listeners_subscribe, listeners_unsubscribe.
  rewrite set_add_absent.
  - rewrite live_app, live_set_delete_filter. reflexivity.
  - intros Hin. apply elem_of_live in Hin. by apply live_set_delete in Hin.
Qed.

Lemma drop_set_delete (l : ListenerId) (n : nat) (data : list (option ListenerId)) :
  drop n (set_delete l data) = set_delete l (drop n data).
Proof. unfold set_delete. by rewrite fmap_drop. Qed.

(** X4. [forEach] skips an entry that was deleted before it was reached:
    when a listener, called with [m], unsubscribes listener [n] of the same
    bus, [n] is not called with [m] if it stands behind that listener, and
    the emission goes on with the others.  (A listener that unsubscribes
    itself is the case [n = a].)  The other listeners return without
    calling the runtime. *)
Theorem emit_skips_unsubscribed_listener (w : World) (b : BusId) (m : Msg)
    (pre post : list (option ListenerId)) (a n : ListenerId)
    (script : Msg -> World -> list Call) :
  listeners w b = pre ++ Some a :: post ->
  quiet_on P m pre ->
  quiet_on P m post ->
  code P a = UserL script ->
  (forall w', script m w' = [CUnsubscribe b n]) ->
  exists w' delta,
    eventually (fun fuel => emit P fuel b m w) (Normal w') /\
    log w' = log w ++ delta /\
    listeners w' b = set_delete n (listeners w b) /\
    delivered b delta
    = (fun l => (l, m)) <$> (live pre ++ [a] ++ base.filter (fun x => x <> n) (live post)).
Proof.
  intros Hdata Hpre Hpost Hcode Hscript.
  set (d1 := OEmit b m :: deliveries b m (live pre) ++ [ODeliver b a m]).
  set (w2 := unsubscribe b n (records d1 w)).
  assert (Hl2 : listeners w2 b = set_delete n (listeners w b)).
  { unfold w2. by rewrite listeners_unsubscribe. }
  assert (Hrest : drop (S (length pre)) (listeners w2 b) = set_delete n post).
  { by rewrite Hl2, drop_set_delete, Hdata, drop_after_middle. }
  set (d3 := deliveries b m (live (set_delete n post))).
  exists (record (OEmitDone b m) (records d3 w2)), (d1 ++ d3 ++ [OEmitDone b m]).
  split; [| split; [| split]].
  - apply (emit_quiet_front b m w pre post a); [done | done |].
    fold d1. unfold call. rewrite Hcode, Hscript. cbn [run_script run_call bind].
    fold w2. ev_bind (records d3 w2); [| apply eventually_now].
    unfold d3. rewrite <- Hrest. apply forEach_quiet_rest.
    rewrite Hrest. by apply quiet_on_set_delete.
  - unfold w2, unsubscribe. cbn [log record records set_log set_buses].
    by rewrite <- !app_assoc.
  - exact Hl2.
  - unfold d1, d3. rewrite !delivered_app, delivered_emit, delivered_app.
    rewrite !delivered_deliveries, delivered_cons_here, delivered_done.
    rewrite live_set_delete_filter, !fmap_app.
    change (delivered b []) with (@nil (ListenerId * Msg)).
    by rewrite app_nil_r, <- !app_assoc.
Qed.

(** ** [filter] *)

Lemma emit_quiet_all (b : BusId) (m : Msg) (w : World) :
  quiet_on P m (listeners w b) ->
  eventually (fun fuel => emit P fuel b m w)
    (Normal (records (emission b m (listeners w b)) w)).
Proof.
  intros Hq. exists (fuel_for w b). intros fuel Hfuel. by apply emit_quiet_on.
Qed.

Lemma delivered_emission (b : BusId) (m : Msg) (data : list (option ListenerId)) :
  delivered b (emission b m data) = (fun l => (l, m)) <$> live data.
Proof.
  unfold emission. rewrite delivered_emit, delivered_app, delivered_deliveries.
  rewrite delivered_done. by rewrite app_nil_r.
Qed.

Lemma delivered_deliveries_other (b b' : BusId) (m : Msg) (ls : list ListenerId) :
  b' <> b -> delivered b (deliveries b' m ls) = [].
Proof.
  intros Hb. unfold delivered. apply omap_deliveries. intros l. by rewrite decide_False.
Qed.

Lemma delivered_cons_other (b b' : BusId) (l : ListenerId) (m : Msg) (os : list Obs) :
  b' <> b -> delivered b (ODeliver b' l m :: os) = delivered b os.
Proof. intros Hb. unfold delivered. cbn. by rewrite decide_False. Qed.

(** The emission on a bus that has the listener of a [filter] among
    passive listeners, whatever the emission on the filtered bus leaves in
    the log. *)
Lemma emit_with_filter (b : BusId) (m : Msg) (w : World)
    (pre post : list (option ListenerId)) (l : ListenerId)
    (predicate : Msg -> Completion bool) (filtered : BusId) (v : bool)
    (inner : list Obs) :
  listeners w b = pre ++ Some l :: post ->
  quiet_on P m pre ->
  quiet_on P m post ->
  code P l = FilterL predicate filtered ->
  predicate m = Return v ->
  (v = true -> forall w1, buses w1 = buses w ->
     eventually (fun fuel => emit P fuel filtered m w1) (Normal (records inner w1))) ->
  eventually (fun fuel => emit P fuel b m w)
    (Normal (records
       (OEmit b m :: deliveries b m (live pre) ++ [ODeliver b l m]
        ++ (if v then inner else [])
        ++ deliveries b m (live post) ++ [OEmitDone b m]) w)).
Proof.
  intros Hdata Hpre Hpost Hcode Hpred Hinner.
  set (d1 := OEmit b m :: deliveries b m (live pre) ++ [ODeliver b l m]).
  set (d2 := if v then inner else []).
  apply (emit_quiet_front b m w pre post l); [done | done |]. fold d1.
  assert (Hcall : eventually (fun fuel => call P (emit P fuel) l m (records d1 w))
                    (Normal (records d2 (records d1 w)))).
  { unfold call. rewrite Hcode. unfold filter_listener. rewrite Hpred. unfold d2.
    destruct v.
    - by apply Hinner.
    - rewrite records_nil. apply eventually_now. }
  ev_bind (records (deliveries b m (live post)) (records d2 (records d1 w))).
  - ev_bind (records d2 (records d1 w)); [exact Hcall |].
    assert (Hrest : drop (S (length pre)) (listeners (records d2 (records d1 w)) b) = post).
    { same_listeners. by rewrite Hdata, drop_after_middle. }
    rewrite <- Hrest. apply forEach_quiet_rest. by rewrite Hrest.
  - rewrite records_record, !records_records.
    unfold d1. list_norm. apply eventually_now.
Qed.

(** X5. [bus.filter(predicate)]: a value emitted on the bus is emitted on
    the filtered bus, once and to all its listeners, when the predicate
    holds of it, and not at all when it does not; the other listeners of
    the bus are called either way.  When the predicate throws, the exception
    leaves [emit] and the listeners behind the filter are not called.  The
    other listeners return without calling the runtime. *)
Theorem filter_forwards_matching_values (w : World) (b : BusId) (m : Msg)
    (pre post : list (option ListenerId)) (l : ListenerId)
    (predicate : Msg -> Completion bool) (filtered : BusId) :
  listeners w b = pre ++ Some l :: post ->
  quiet_on P m pre ->
  quiet_on P m post ->
  code P l = FilterL predicate filtered ->
  filtered <> b ->
  quiet_on P m (listeners w filtered) ->
  (forall v, predicate m = Return v ->
     exists delta,
       eventually (fun fuel => emit P fuel b m w) (Normal (records delta w)) /\
       emitted_on filtered delta = (if v then [m] else []) /\
       delivered filtered delta
       = (if v then (fun l' => (l', m)) <$> live (listeners w filtered) else []) /\
       delivered b delta = (fun l' => (l', m)) <$> live (listeners w b)) /\
  (forall e, predicate m = Throw e ->
     exists delta,
       eventually (fun fuel => emit P fuel b m w) (Throws e (records delta w)) /\
       emitted_on filtered delta = [] /\
       delivered b delta = (fun l' => (l', m)) <$> (live pre ++ [l])).
Proof.
  intros Hdata Hpre Hpost Hcode Hne Hq. split.
  - intros v Hpred. eexists. split; [| split; [| split]].
    + apply (emit_with_filter b m w pre post l predicate filtered v
               (emission filtered m (listeners w filtered))); try done.
      intros _ w1 Hb1. rewrite <- (same_buses_listeners w w1 filtered Hb1).
      apply emit_quiet_all. by rewrite (same_buses_listeners w w1 filtered Hb1).
    + change (OEmit b m :: ?x) with ([OEmit b m] ++ x).
      rewrite !emitted_on_app, !emitted_on_deliveries. cbn [emitted_on omap list_omap].
      rewrite decide_False by congruence. cbn [app].
      destruct v; [by rewrite emitted_on_emission_same | done].
    + rewrite delivered_emit, !delivered_app, !delivered_deliveries_other by congruence.
      rewrite delivered_cons_other, delivered_done by congruence.
      change (delivered filtered []) with (@nil (ListenerId * Msg)).
      destruct v; [by rewrite delivered_emission, app_nil_r | done].
    + rewrite delivered_emit, !delivered_app, !delivered_deliveries.
      rewrite delivered_cons_here, delivered_done.
      change (delivered b []) with (@nil (ListenerId * Msg)).
      replace (delivered b (if v then emission filtered m (listeners w filtered) else []))
        with (@nil (ListenerId * Msg))
        by (destruct v; [by rewrite delivered_emission_other | done]).
      rewrite Hdata, live_app. cbn. rewrite !fmap_app. cbn.
      by rewrite app_nil_r.
  - intros e Hpred.
    exists (OEmit b m :: deliveries b m (live pre) ++ [ODeliver b l m]).
    split; [| split].
    + apply (emit_quiet_front b m w pre post l); [done | done |].
      unfold call. rewrite Hcode. unfold filter_listener. rewrite Hpred. cbn [bind].
      apply eventually_now.
    + change (OEmit b m :: ?x) with ([OEmit b m] ++ x).
      rewrite !emitted_on_app, !emitted_on_deliveries. cbn [emitted_on omap list_omap].
      by rewrite decide_False by congruence.
    + rewrite delivered_emit, delivered_app, delivered_deliveries, delivered_cons_here.
      by rewrite fmap_app.
Qed.

(** ** One listener among passive listeners *)

(** The emission on a bus where every listener but one is passive on the
    value, when the call of that listener returns and leaves the listeners
    of the bus as they are. *)
Lemma emit_quiet_around (b : BusId) (m : Msg) (w w2 : World)
    (pre post : list (option ListenerId)) (l : ListenerId) :
  listeners w b = pre ++ Some l :: post ->
  quiet_on P m pre ->
  quiet_on P m post ->
  eventually
    (fun fuel =>
       call P (emit P fuel) l m
         (records (OEmit b m :: deliveries b m (live pre) ++ [ODeliver b l m]) w))
    (Normal w2) ->
  listeners w2 b = listeners w b ->
  eventually (fun fuel => emit P fuel b m w)
    (Normal (records (deliveries b m (live post) ++ [OEmitDone b m]) w2)).
Proof.
  intros Hdata Hpre Hpost Hcall Hsame.
  apply (emit_quiet_front b m w pre post l); [done | done |].
  ev_bind (records (deliveries b m (live post)) w2).
  - ev_bind w2; [exact Hcall |].
    assert (Hrest : drop (S (length pre)) (listeners w2 b) = post).
    { by rewrite Hsame, Hdata, drop_after_middle. }
    rewrite <- Hrest. apply forEach_quiet_rest. by rewrite Hrest.
  - rewrite records_record. apply eventually_now.
Qed.

Lemma emitted_on_around (b' b : BusId) (m : Msg) (ls1 ls2 : list ListenerId)
    (l : ListenerId) (inner : list Obs) :
  b' <> b ->
  emitted_on b' (OEmit b m :: deliveries b m ls1 ++ [ODeliver b l m]
                 ++ inner ++ deliveries b m ls2 ++ [OEmitDone b m])
  = emitted_on b' inner.
Proof.
  intros Hb. change (OEmit b m :: ?x) with ([OEmit b m] ++ x).
  rewrite !emitted_on_app, !emitted_on_deliveries. cbn [emitted_on omap list_omap].
  rewrite decide_False by congruence. cbn [app]. by rewrite app_nil_r.
Qed.

Lemma delivered_around_other (b' b : BusId) (m : Msg) (ls1 ls2 : list ListenerId)
    (l : ListenerId) (inner : list Obs) :
  b' <> b ->
  delivered b' (OEmit b m :: deliveries b m ls1 ++ [ODeliver b l m]
                ++ inner ++ deliveries b m ls2 ++ [OEmitDone b m])
  = delivered b' inner.
Proof.
  intros Hb.
  rewrite delivered_emit, !delivered_app, !delivered_deliveries_other by congruence.
  rewrite delivered_cons_other, delivered_done by congruence.
  change (delivered b' []) with (@nil (ListenerId * Msg)). cbn [app].
  by rewrite app_nil_r.
Qed.

(** X6. Filters compose: a value emitted on a bus reaches the listeners of
    [bus.filter(p1).filter(p2)] when both predicates hold of it, once, and
    not at all otherwise; when the first predicate does not hold, the
    second is not consulted.  The other listeners of the three buses return
    without calling the runtime. *)
Theorem filters_compose (w : World) (b : BusId) (m : Msg)
    (pre post : list (option ListenerId)) (l1 : ListenerId)
    (p1 : Msg -> Completion bool) (f1 : BusId)
    (pre1 post1 : list (option ListenerId)) (l2 : ListenerId)
    (p2 : Msg -> Completion bool) (f2 : BusId) (v1 v2 : bool) :
  listeners w b = pre ++ Some l1 :: post ->
  quiet_on P m pre ->
  quiet_on P m post ->
  code P l1 = FilterL p1 f1 ->
  listeners w f1 = pre1 ++ Some l2 :: post1 ->
  quiet_on P m pre1 ->
  quiet_on P m post1 ->
  code P l2 = FilterL p2 f2 ->
  quiet_on P m (listeners w f2) ->
  f1 <> b -> f2 <> b -> f2 <> f1 ->
  p1 m = Return v1 ->
  (v1 = true -> p2 m = Return v2) ->
  exists delta,
    eventually (fun fuel => emit P fuel b m w) (Normal (records delta w)) /\
    emitted_on f2 delta = (if v1 && v2 then [m] else []) /\
    delivered f2 delta
    = (if v1 && v2 then (fun l' => (l', m)) <$> live (listeners w f2) else []).
Proof.
  intros Hdata Hpre Hpost Hcode1 Hdata1 Hpre1 Hpost1 Hcode2 Hq2 Hne1 Hne2 Hne21 Hp1 Hp2.
  set (inner2 := emission f2 m (listeners w f2)).
  set (inner1 := OEmit f1 m :: deliveries f1 m (live pre1) ++ [ODeliver f1 l2 m]
                 ++ (if v2 then inner2 else [])
                 ++ deliveries f1 m (live post1) ++ [OEmitDone f1 m]).
  eexists. split; [| split].
  - apply (emit_with_filter b m w pre post l1 p1 f1 v1 inner1); try done.
    intros Hv1 w1 Hb1.
    apply (emit_with_filter f1 m w1 pre1 post1 l2 p2 f2 v2 inner2); try done.
    + by rewrite (same_buses_listeners w w1 f1 Hb1).
    + by apply Hp2.
    + intros _ w2 Hb2. unfold inner2.
      rewrite <- (same_buses_listeners w w2 f2) by congruence.
      apply emit_quiet_all. by rewrite (same_buses_listeners w w2 f2) by congruence.
  - rewrite emitted_on_around by done.
    destruct v1; [| done]. unfold inner1. rewrite emitted_on_around by done.
    destruct v2; [| done]. apply emitted_on_emission_same.
  - rewrite delivered_around_other by done.
    destruct v1; [| done]. unfold inner1. rewrite delivered_around_other by done.
    destruct v2; [| done]. apply delivered_emission.
Qed.

Lemma filter_ne_absent (l : ListenerId) (ls : list ListenerId) :
  l ∉ ls -> base.filter (fun x => x <> l) ls = ls.
Proof.
  induction ls as [| x ls IH]; intros Hout; [done |].
  apply not_elem_of_cons in Hout as [Hne Hout].
  rewrite filter_cons_True by congruence. by rewrite IH.
Qed.

(** X7. The function returned by [subscribe] deletes the listener from the
    set, whoever added it: after [subscribe] and a call of the function it
    returned, the listener is not subscribed, also when it was subscribed
    before; the other listeners keep their order. *)
Theorem unsubscribe_undoes_every_subscription (w : World) (b : BusId) (l : ListenerId) :
  live (listeners (unsubscribe b l (subscribe b l w)) b)
  = base.filter (fun x => x <> l) (live (listeners w b)) /\
  (Some l ∉ listeners w b ->
   live (listeners (unsubscribe b l (subscribe b l w)) b) = live (listeners w b)).
Proof.
  assert (Hlive : live (listeners (unsubscribe b l (subscribe b l w)) b)
                  = base.filter (fun x => x <> l) (live (listeners w b))).
  { rewrite listeners_unsubscribe, listeners_subscribe, live_set_delete_filter.
    unfold set_add. case_decide as Hin; [done |].
    rewrite live_app, filter_app. cbn.
    rewrite decide_False by (intros H; by apply H). by rewrite app_nil_r. }
  split; [exact Hlive |].
  intros Hout. rewrite Hlive. apply filter_ne_absent. by rewrite elem_of_live.
Qed.

(** ** The projector *)

Lemma trace_emit_quiet (tr : option BusId) (t : TraceEntry) (w w1 : World) :
  quiet_trace P w tr ->
  buses w1 = buses w ->
  eventually (fun fuel => trace_emit (emit P fuel) tr t w1)
    (Normal (records (traced w tr t) w1)).
Proof.
  intros Hq Hb. destruct tr as [tb |]; cbn [trace_emit traced quiet_trace] in *.
  - rewrite <- (same_buses_listeners w w1 tb Hb). apply emit_quiet_all.
    rewrite (same_buses_listeners w w1 tb Hb). by apply quiet_quiet_on.
  - rewrite records_nil. apply eventually_now.
Qed.

(** One value emitted on the bus of a projector. *)
Lemma emit_projection (b : BusId) (m : Msg) (w : World)
    (pre post : list (option ListenerId)) (l : ListenerId) (p : ProjectorId) :
  listeners w b = pre ++ Some l :: post ->
  quiet_on P m pre ->
  quiet_on P m post ->
  code P l = ProjectorL p ->
  quiet_trace P w (ptrace P p) ->
  exists w',
    eventually (fun fuel => emit P fuel b m w) (Normal w') /\
    buses w' = buses w /\ ustate w' = ustate w /\
    rstate w'
    = match project (pconfig P p) (read_state_of P w p) m with
      | Return s => <[p := s]> (rstate w)
      | Throw _ => rstate w
      end.
Proof.
  intros Hdata Hpre Hpost Hcode Htr.
  set (d1 := OEmit b m :: deliveries b m (live pre) ++ [ODeliver b l m]).
  destruct (project (pconfig P p) (read_state_of P w p) m) as [s | e] eqn:Hproject.
  - set (w2 := records (traced w (ptrace P p)
                          (TrProjection (clock w) (pname (pconfig P p)) m))
                 (write_read_state p s (records d1 w))).
    exists (records (deliveries b m (live post) ++ [OEmitDone b m]) w2).
    split; [| done].
    apply (emit_quiet_around b m w w2 pre post l); try done. fold d1.
    unfold call. rewrite Hcode. unfold projector_listener.
    change (read_state_of P (records d1 w) p) with (read_state_of P w p).
    rewrite Hproject. ev_try_normal.
    change (clock (records d1 w)) with (clock w). by apply trace_emit_quiet.
  - set (w2 := records (traced w (ptrace P p) (TrError (clock w) "project" e))
                 (records d1 w)).
    exists (records (deliveries b m (live post) ++ [OEmitDone b m]) w2).
    split; [| done].
    apply (emit_quiet_around b m w w2 pre post l); try done. fold d1.
    unfold call. rewrite Hcode. unfold projector_listener.
    change (read_state_of P (records d1 w) p) with (read_state_of P w p).
    rewrite Hproject. ev_try_throws e (records d1 w); [apply eventually_now |].
    change (clock (records d1 w)) with (clock w). by apply trace_emit_quiet.
Qed.

(** X8. The read model of a projector is [project] folded over the values
    emitted on its bus, in the order of the emissions; a value on which
    [project] throws is skipped.  The emissions change the read model of no
    other projector and the state of no decider.  The other listeners of
    the bus and those of the trace bus return without calling the
    runtime. *)
Theorem read_model_folds_the_emitted_values (b : BusId) (ms : list Msg)
    (pre post : list (option ListenerId)) (l : ListenerId) (p : ProjectorId) :
  forall w : World,
    listeners w b = pre ++ Some l :: post ->
    quiet P pre ->
    quiet P post ->
    code P l = ProjectorL p ->
    quiet_trace P w (ptrace P p) ->
    exists w',
      eventually (fun fuel => run_script P (emit P fuel) (CEmit b <$> ms) w) (Normal w') /\
      read_state_of P w' p = fold_project P p (read_state_of P w p) ms /\
      (forall p', p' <> p -> read_state_of P w' p' = read_state_of P w p') /\
      ustate w' = ustate w /\
      buses w' = buses w.
Proof.
  induction ms as [| m ms IH]; intros w Hdata Hpre Hpost Hcode Htr.
  - exists w. split; [by exists 0 | done].
  - destruct (emit_projection b m w pre post l p) as (w1 & Hrun1 & Hb1 & Hu1 & Hr1);
      try done; try (by apply quiet_quiet_on).
    destruct (IH w1) as (w' & Hrun & Hread & Hother & Hu & Hb); try done.
    { by rewrite (same_buses_listeners w w1 b Hb1). }
    { unfold quiet_trace, quiet_bus in *. destruct (ptrace P p) as [tb |]; [| done].
      by rewrite (same_buses_listeners w w1 tb Hb1). }
    exists w'. split.
    { cbn [fmap list_fmap run_script run_call]. ev_bind w1; [exact Hrun1 | exact Hrun]. }
    split; [| split; [| split; congruence]].
    + rewrite Hread. cbn [fold_project]. unfold read_state_of at 1. rewrite Hr1.
      destruct (project (pconfig P p) (read_state_of P w p) m) as [s | e]; [| done].
      by rewrite lookup_insert_eq.
    + intros p' Hp'. rewrite (Hother p' Hp'). unfold read_state_of. rewrite Hr1.
      destruct (project (pconfig P p) (read_state_of P w p) m) as [s | e]; [| done].
      by rewrite lookup_insert_ne.
Qed.

(** ** The process manager *)

Lemma delivered_around (b : BusId) (m : Msg) (w : World)
    (pre post : list (option ListenerId)) (l : ListenerId) (inner : list Obs) :
  listeners w b = pre ++ Some l :: post ->
  delivered b inner = [] ->
  delivered b (OEmit b m :: deliveries b m (live pre) ++ [ODeliver b l m]
               ++ inner ++ deliveries b m (live post) ++ [OEmitDone b m])
  = (fun l' => (l', m)) <$> live (listeners w b).
Proof.
  intros Hdata Hinner.
  rewrite delivered_emit, !delivered_app, !delivered_deliveries.
  rewrite delivered_cons_here, delivered_done, Hinner.
  change (delivered b []) with (@nil (ListenerId * Msg)).
  rewrite Hdata, live_app. cbn. rewrite !fmap_app. cbn. by rewrite app_nil_r.
Qed.

Lemma dispatched_deliveries (u : UnitId) (b : BusId) (m : Msg) (ls : list ListenerId) :
  dispatched u (deliveries b m ls) = [].
Proof. unfold dispatched. by rewrite omap_deliveries. Qed.

Lemma dispatched_emission (u : UnitId) (b : BusId) (m : Msg)
    (data : list (option ListenerId)) :
  dispatched u (emission b m data) = [].
Proof. unfold dispatched. by rewrite omap_emission. Qed.

Lemma quiet_bus_not_here (w : World) (b tb : BusId) (m : Msg)
    (pre post : list (option ListenerId)) (l : ListenerId) :
  listeners w b = pre ++ Some l :: post ->
  (forall script, code P l <> UserL script) ->
  quiet_bus P w tb ->
  tb <> b.
Proof.
  intros Hdata Hcode Htr ->.
  assert (Hin : Some l ∈ listeners w b).
  { rewrite Hdata. apply elem_of_app. right. by left. }
  destruct (Htr l Hin m) as (script & Hscript & _). by apply (Hcode script).
Qed.

(** X9. A process manager whose [react] throws on an event that passes its
    [filter]: the exception is caught, [dispatch] is called for no unit,
    one error entry of phase 'process-manager' is emitted on the trace bus,
    and every listener of the bus, also those behind the process manager,
    is called with the event; nothing but the log changes.  The other
    listeners of the bus and those of the trace bus return without calling
    the runtime. *)
Theorem failing_reaction_is_isolated (w : World) (b : BusId) (event : Msg)
    (pre post : list (option ListenerId)) (l : ListenerId)
    (config : ProcessManagerConfig) (target : UnitId) (tb : BusId) (e : Err) :
  listeners w b = pre ++ Some l :: post ->
  quiet_on P event pre ->
  quiet_on P event post ->
  code P l = ProcessManagerL config target (Some tb) ->
  quiet_bus P w tb ->
  filter config event = Return true ->
  react config event = Throw e ->
  exists delta,
    eventually (fun fuel => emit P fuel b event w) (Normal (records delta w)) /\
    (forall u, dispatched u delta = []) /\
    delivered b delta = (fun l' => (l', event)) <$> live (listeners w b) /\
    emitted_on tb delta = [MTrace (TrError (clock w) "process-manager" e)].
Proof.
  intros Hdata Hpre Hpost Hcode Htr Hfilter Hreact.
  assert (Hne : tb <> b).
  { apply (quiet_bus_not_here w b tb event pre post l); [done | | done].
    intros script. by rewrite Hcode. }
  set (t := TrError (clock w) "process-manager" e).
  set (d1 := OEmit b event :: deliveries b event (live pre) ++ [ODeliver b l event]).
  exists (OEmit b event :: deliveries b event (live pre) ++ [ODeliver b l event]
          ++ emission tb (MTrace t) (listeners w tb)
          ++ deliveries b event (live post) ++ [OEmitDone b event]).
  split; [| split; [| split]].
  - set (w2 := records (traced w (Some tb) t) (records d1 w)).
    assert (Hcall : eventually (fun fuel => call P (emit P fuel) l event (records d1 w))
                      (Normal w2)).
    { unfold call. rewrite Hcode. unfold process_manager_listener.
      rewrite Hfilter, Hreact. ev_try_throws e (records d1 w); [apply eventually_now |].
      change (clock (records d1 w)) with (clock w). by apply trace_emit_quiet. }
    assert (Hrun := emit_quiet_around b event w w2 pre post l Hdata Hpre Hpost Hcall eq_refl).
    unfold w2, d1 in Hrun. rewrite !records_records in Hrun. cbn [traced] in Hrun.
    rewrite <- app_comm_cons, <- !app_assoc in Hrun. exact Hrun.
  - intros u. change (OEmit b event :: ?x) with ([OEmit b event] ++ x).
    rewrite !dispatched_app, !dispatched_deliveries, dispatched_emission. done.
  - apply (delivered_around b event w pre post l); [done |].
    by apply delivered_emission_other.
  - change (OEmit b event :: ?x) with ([OEmit b event] ++ x).
    rewrite !emitted_on_app, !emitted_on_deliveries, emitted_on_emission_same.
    cbn [emitted_on omap list_omap]. by rewrite decide_False by congruence.
Qed.

(** X10. The [filter] of a process manager is called outside its [try]: when
    it throws, the exception leaves [emit]; the listeners behind the process
    manager are not called, [dispatch] is not called and nothing is emitted
    on any other bus, so no error entry is traced.  The listeners in front
    return without calling the runtime. *)
Theorem failing_filter_ends_the_emission (w : World) (b : BusId) (event : Msg)
    (pre post : list (option ListenerId)) (l : ListenerId)
    (config : ProcessManagerConfig) (target : UnitId) (tr : option BusId) (e : Err) :
  listeners w b = pre ++ Some l :: post ->
  quiet_on P event pre ->
  code P l = ProcessManagerL config target tr ->
  filter config event = Throw e ->
  exists delta,
    eventually (fun fuel => emit P fuel b event w) (Throws e (records delta w)) /\
    delivered b delta = (fun l' => (l', event)) <$> (live pre ++ [l]) /\
    (forall u, dispatched u delta = []) /\
    (forall b', b' <> b -> emitted_on b' delta = []).
Proof.
  intros Hdata Hpre Hcode Hfilter.
  exists (OEmit b event :: deliveries b event (live pre) ++ [ODeliver b l event]).
  split; [| split; [| split]].
  - apply (emit_quiet_front b event w pre post l); [done | done |].
    unfold call. rewrite Hcode. unfold process_manager_listener. rewrite Hfilter.
    cbn [bind]. apply eventually_now.
  - rewrite delivered_emit, delivered_app, delivered_deliveries, delivered_cons_here.
    by rewrite fmap_app.
  - intros u. change (OEmit b event :: ?x) with ([OEmit b event] ++ x).
    by rewrite !dispatched_app, dispatched_deliveries.
  - intros b' Hb'. change (OEmit b event :: ?x) with ([OEmit b event] ++ x).
    rewrite !emitted_on_app, emitted_on_deliveries. cbn [emitted_on omap list_omap].
    by rewrite decide_False by congruence.
Qed.

(** ** [dispatch], whatever its listeners do *)

Lemma eventually_bind_throws (f : nat -> Outcome) (g : nat -> World -> Outcome)
    (e : Err) (w1 : World) :
  eventually f (Throws e w1) ->
  eventually (fun fuel => bind (f fuel) (g fuel)) (Throws e w1).
Proof. intros [n H]. exists n. intros fuel Hfuel. by rewrite H. Qed.

(** An emission that reaches, behind passive listeners, a listener that
    throws. *)
Lemma emit_quiet_throws (b : BusId) (m : Msg) (w : World)
    (pre post : list (option ListenerId)) (a : ListenerId)
    (script : Msg -> World -> list Call) (e : Err) :
  listeners w b = pre ++ Some a :: post ->
  quiet_on P m pre ->
  code P a = UserL script ->
  (forall w', script m w' = [CThrow e]) ->
  eventually (fun fuel => emit P fuel b m w)
    (Throws e (records (OEmit b m :: deliveries b m (live pre) ++ [ODeliver b a m]) w)).
Proof.
  intros Hdata Hpre Hcode Hscript.
  apply (emit_quiet_front b m w pre post a); [done | done |].
  unfold call. rewrite Hcode, Hscript. cbn [run_script run_call bind].
  apply eventually_now.
Qed.

(** X11. The 'command' entry is traced before the [try] of [dispatch]: when
    a listener of the trace bus throws on it, the promise of [dispatch] is
    rejected with the exception, and nothing else happens: the command is
    neither validated nor resolved, no error entry is traced, no
    continuation is left behind.  The listeners of the trace bus in front
    of the one that throws return without calling the runtime. *)
Theorem throwing_trace_listener_rejects_dispatch (w : World) (u : UnitId) (c : TCommand)
    (source : string) (tb : BusId) (pre post : list (option ListenerId))
    (a : ListenerId) (script : Msg -> World -> list Call) (e : Err) :
  let entry := MTrace (TrCommand (clock w) c source) in
  dtrace P u = Some tb ->
  listeners w tb = pre ++ Some a :: post ->
  quiet_on P entry pre ->
  code P a = UserL script ->
  (forall w', script entry w' = [CThrow e]) ->
  eventually (fun fuel => dispatch P (emit P fuel) u c source w)
    (Normal (set_rejected (rejected w ++ [e])
       (records (ODispatch u c source :: OEmit tb entry
                 :: deliveries tb entry (live pre) ++ [ODeliver tb a entry]) w))).
Proof.
  intros entry Htb Hdata Hpre Hcode Hscript. unfold dispatch. rewrite Htb.
  cbn zeta. cbn [trace_emit].
  assert (Hrun := emit_quiet_throws tb entry (record (ODispatch u c source) w)
                    pre post a script e Hdata Hpre Hcode Hscript).
  rewrite record_records in Hrun.
  destruct Hrun as [n Hrun]. exists n. intros fuel Hfuel. by rewrite Hrun.
Qed.

(** A [dispatch] call on its own comes down to one run of the queue that
    holds its continuation. *)
Lemma dispatch_alone_drains (u : UnitId) (c : TCommand) (r : Completion TContext)
    (w : World) :
  let k := {| k_unit := u; k_command := c; k_settled := r |} in
  tasks w = [] ->
  calm_trace P w (dtrace P u) ->
  validate P u c = ParseSuccess ->
  awaited (resolveContext (dconfig P u) c) = Some r ->
  exists w1 d1,
    buses w1 = buses w /\ ustate w1 = ustate w /\ tasks w1 = [k] /\
    awaiting w1 = awaiting w /\ rejected w1 = rejected w /\ clock w1 = clock w /\
    log w1 = log w ++ d1 /\
    decider_log d1 = dispatch_steps P u c "user" /\
    forall w2,
      eventually (fun fuel => drain P fuel w1) (Normal w2) ->
      awaiting w2 = awaiting w ->
      eventually (fun fuel => dispatch_alone P fuel u c w) (Normal w2).
Proof.
  intros k Ht Htr Hvalid Hres.
  destruct (dispatch_calm u c "user" w Htr)
    as (w0 & d0 & Hrun0 & Hb0 & Hu0 & Ht0 & Ha0 & Hr0 & Hc0 & Hl0 & Hd0 & _); [done |].
  unfold queued in Ht0. unfold parked in Ha0. rewrite Hvalid in Ht0, Ha0.
  unfold dispatch_alone. cbn [run].
  destruct (resolveContext (dconfig P u) c) as [e | ctx | settles];
    cbn in Hres; simplify_eq.
  - rewrite Ht in Ht0. cbn in Ht0. rewrite app_nil_r in Ha0.
    exists w0, d0. repeat split; try done.
    intros w2 Hdrain Ha2. ev_bind w2.
    + cbn [turn run_call]. ev_bind w0; [by ev_async | exact Hdrain].
    + ev_bind w2; [| apply eventually_now].
      cbn [turn]. rewrite Ha2, lookup_ge_None_2 by done. apply eventually_now.
  - rewrite Ht in Ht0. cbn in Ht0.
    exists (set_tasks (tasks w0 ++ [k])
              (set_awaiting (delete (length (awaiting w)) (awaiting w0)) w0)), d0.
    heap_simpl. rewrite Ht0, Ha0, delete_middle, app_nil_r.
    repeat split; try done.
    intros w2 Hdrain Ha2. ev_bind w0.
    + cbn [turn run_call]. ev_bind w0; [by ev_async | by apply eventually_drain_idle].
    + ev_bind w2; [| apply eventually_now].
      cbn [turn]. rewrite Ha0, list_lookup_middle by done. rewrite Ht0.
      fold k. rewrite delete_middle, app_nil_r. exact Hdrain.
Qed.

(** An emission that reaches, behind observers, a listener that throws. *)
Lemma emit_calm_throws (b : BusId) (m : Msg) (w : World)
    (pre post : list (option ListenerId)) (a : ListenerId)
    (script : Msg -> World -> list Call) (e : Err) :
  listeners w b = pre ++ Some a :: post ->
  calm P (buses w) pre ->
  code P a = UserL script ->
  (forall w', script m w' = [CThrow e]) ->
  exists w' delta,
    eventually (fun fuel => emit P fuel b m w) (Throws e w') /\
    frame w w' /\ ustate w' = ustate w /\
    log w' = log w ++ OEmit b m :: delta /\ decider_log delta = [].
Proof.
  intros Hdata Hpre Hcode Hscript.
  destruct (forEach_calm_prefix b m pre (Some a :: post) 0 (record (OEmit b m) w))
    as (w1 & d1 & Hf1 & Hu1 & Hl1 & Hd1 & Hk1).
  { by rewrite drop_0. }
  { exact Hpre. }
  assert (Hb1 : buses w1 = buses w) by apply Hf1.
  exists (record (ODeliver b a m) w1), (d1 ++ [ODeliver b a m]).
  split.
  { apply eventually_emit. apply eventually_bind_throws.
    apply Hk1. cbn [Nat.add].
    apply (eventually_forEach_call b m (length pre) w1 a).
    { rewrite (same_buses_listeners w w1), Hdata by done. apply listeners_lookup_middle. }
    apply eventually_bind_throws. unfold call. rewrite Hcode, Hscript.
    cbn [run_script run_call bind]. apply eventually_now. }
  split; [repeat split; apply Hf1 |]. split; [done |].
  split; [heap_simpl; rewrite Hl1; by list_norm |].
  dlog. by rewrite Hd1.
Qed.

(** X12. [emit] does not catch, so the exception of a subscriber of a
    decider's bus ends up in the [catch] block of [dispatch].  When a
    subscriber throws on the first event of a batch: the event has been
    evolved and the unit keeps the evolved state; the events behind it are
    neither evolved nor emitted; the exception is traced as an error of
    phase 'decide'; the promise of [dispatch] is not rejected.  The
    subscribers in front of the one that throws, and the listeners of the
    trace bus, are observers. *)
Theorem throwing_subscriber_halts_batch (w : World) (u : UnitId) (c : TCommand)
    (ctx : TContext) (ek : TEvent) (rest : list TEvent) (s1 : TState)
    (pre post : list (option ListenerId)) (a : ListenerId)
    (script : Msg -> World -> list Call) (e : Err) (tb : BusId) :
  tasks w = [] ->
  dtrace P u = Some tb ->
  calm_trace P w (dtrace P u) ->
  validate P u c = ParseSuccess ->
  resolves (resolveContext (dconfig P u) c) ctx ->
  decide (dconfig P u) c (state_of P w u) ctx = Return (ek :: rest) ->
  evolve (dconfig P u) (state_of P w u) ek = Return s1 ->
  listeners w (EventsOf u) = pre ++ Some a :: post ->
  calm P (buses w) pre ->
  code P a = UserL script ->
  (forall w', script (MEvent (Domain ek)) w' = [CThrow e]) ->
  exists w' delta,
    eventually (fun fuel => dispatch_alone P fuel u c w) (Normal w') /\
    log w' = log w ++ delta /\
    state_of P w' u = s1 /\
    write_side u delta
    = [OEvolve u ek (state_of P w u) s1; OEmit (EventsOf u) (MEvent (Domain ek))] /\
    (exists timestamp, MTrace (TrError timestamp "decide" e) ∈ emitted_on tb delta) /\
    rejected w' = rejected w.
Proof.
  intros Ht Htb Htr Hvalid Hres Hdecide Hevolve Hdata Hpre Hcode Hscript.
  set (k := {| k_unit := u; k_command := c; k_settled := Return ctx |} : Continuation).
  set (s := state_of P w u) in *.
  destruct (dispatch_alone_drains u c (Return ctx) w)
    as (w0 & d0 & Hb0 & Hu0 & Ht0 & Ha0 & Hr0 & Hc0 & Hl0 & Hd0 & Hk0); try done.
  { by apply resolves_awaited. }
  fold k in Ht0.
  (* the context is traced *)
  destruct (trace_emit_calm (dtrace P u) (TrContext (clock w0) c ctx) (set_tasks [] w0))
    as (w1 & d1 & Hrun1 & Hf1 & Hu1 & Hl1 & Hd1 & _).
  { by apply (calm_trace_same_buses w). }
  destruct Hf1 as (Hb1 & Ht1 & Ha1 & Hr1 & Hc1). heap_simpl.
  assert (Hs1 : state_of P w1 u = s).
  { unfold s. apply state_of_same_ustate. congruence. }
  (* the event is traced, evolved, and the evolution traced *)
  destruct (trace_emit_calm (dtrace P u) (TrEvent (clock w1) (Domain ek) c)
              (record (ODecide u c s ctx) w1))
    as (w2 & d2 & Hrun2 & Hf2 & Hu2 & Hl2 & Hd2 & _).
  { apply (calm_trace_same_buses w); [heap_simpl; congruence | done]. }
  destruct Hf2 as (Hb2 & Ht2 & Ha2 & Hr2 & Hc2). heap_simpl.
  assert (Hs2 : state_of P w2 u = s).
  { rewrite <- Hs1. by apply state_of_same_ustate. }
  destruct (trace_emit_calm (dtrace P u) (TrEvolve (clock w2) ek s s1)
              (record (OEvolve u ek s s1) (write_state u s1 w2)))
    as (w3 & d3 & Hrun3 & Hf3 & Hu3 & Hl3 & Hd3 & _).
  { apply (calm_trace_same_buses w); [heap_simpl; congruence | done]. }
  destruct Hf3 as (Hb3 & Ht3 & Ha3 & Hr3 & Hc3). heap_simpl.
  (* the emission throws *)
  destruct (emit_calm_throws (EventsOf u) (MEvent (Domain ek)) w3 pre post a script e)
    as (w4 & d4 & Hrun4 & Hf4 & Hu4 & Hl4 & Hd4); try done.
  { rewrite <- Hdata. apply same_buses_listeners. congruence. }
  { replace (buses w3) with (buses w) by congruence. done. }
  destruct Hf4 as (Hb4 & Ht4 & Ha4 & Hr4 & Hc4).
  (* the [catch] block *)
  destruct (trace_emit_calm (dtrace P u) (TrError (clock w4) "decide" e) w4)
    as (w5 & d5 & Hrun5 & Hf5 & Hu5 & Hl5 & Hd5 & Hin5).
  { apply (calm_trace_same_buses w); [congruence | done]. }
  destruct Hf5 as (Hb5 & Ht5 & Ha5 & Hr5 & Hc5).
  exists w5, (d0 ++ d1 ++ ODecide u c s ctx :: d2 ++ OEvolve u ek s s1 :: d3
              ++ OEmit (EventsOf u) (MEvent (Domain ek)) :: d4 ++ d5).
  split.
  { apply Hk0; [| congruence].
    apply (eventually_drain_step k [] w0 _ Ht0).
    ev_bind w5; [| apply eventually_drain_idle; congruence].
    unfold resume. cbn [k k_unit k_command k_settled]. cbn zeta.
    ev_async. ev_try_throws e w4; [| exact Hrun5].
    ev_bind w1; [exact Hrun1 |]. rewrite Hs1, Hdecide. cbn [process].
    ev_bind w2; [exact Hrun2 |]. rewrite Hs2, Hevolve. cbn zeta.
    ev_bind w3; [exact Hrun3 |]. by apply eventually_bind_throws. }
  split.
  { rewrite Hl5, Hl4, Hl3. heap_simpl. rewrite Hl2. heap_simpl. rewrite Hl1, Hl0.
    by list_norm. }
  split.
  { unfold state_of. rewrite Hu5, Hu4, Hu3. heap_simpl. by rewrite lookup_insert_eq. }
  assert (Hlog : decider_log (d0 ++ d1 ++ ODecide u c s ctx :: d2 ++ OEvolve u ek s s1 :: d3
                   ++ OEmit (EventsOf u) (MEvent (Domain ek)) :: d4 ++ d5)
                 = dispatch_steps P u c "user"
                   ++ [ODecide u c s ctx; OEvolve u ek s s1;
                       OEmit (EventsOf u) (MEvent (Domain ek))]).
  { dlog. by rewrite Hd0, Hd1, Hd2, Hd3, Hd4, Hd5. }
  split.
  { rewrite <- write_side_decider_log, Hlog, write_side_app, write_side_dispatch_steps.
    rewrite Hvalid. cbn. by rewrite !decide_True. }
  split; [| congruence].
  exists (clock w4). rewrite !emitted_on_app. apply elem_of_app. right.
  apply elem_of_app. right.
  change (ODecide ?a1 ?a2 ?a3 ?a4 :: ?x) with ([ODecide a1 a2 a3 a4] ++ x).
  rewrite !emitted_on_app. apply elem_of_app. right. apply elem_of_app. right.
  change (OEvolve ?a1 ?a2 ?a3 ?a4 :: ?x) with ([OEvolve a1 a2 a3 a4] ++ x).
  rewrite !emitted_on_app. apply elem_of_app. right. apply elem_of_app. right.
  change (OEmit ?a1 ?a2 :: ?x) with ([OEmit a1 a2] ++ x).
  rewrite !emitted_on_app. apply elem_of_app. right. apply elem_of_app. right.
  by apply Hin5.
Qed.

(** X13. [dispatch] awaits the context also when [resolveContext] returns
    it at once: when the call of [dispatch] returns, [decide] has not been
    called and the state of every unit is what it was; the rest of the call
    is queued behind the continuations already waiting.  The listeners of
    the trace bus are observers. *)
Theorem dispatch_returns_before_deciding (w : World) (u : UnitId) (c : TCommand)
    (source : string) (ctx : TContext) :
  calm_trace P w (dtrace P u) ->
  validate P u c = ParseSuccess ->
  resolveContext (dconfig P u) c = ResolveValue ctx ->
  exists w' delta,
    eventually (fun fuel => dispatch P (emit P fuel) u c source w) (Normal w') /\
    log w' = log w ++ delta /\
    ustate w' = ustate w /\
    decided u delta = [] /\
    write_side u delta = [] /\
    tasks w' = tasks w ++ [{| k_unit := u; k_command := c; k_settled := Return ctx |}] /\
    rejected w' = rejected w.
Proof.
  intros Htr Hvalid Hres.
  destruct (dispatch_calm u c source w Htr)
    as (w' & delta & Hrun & Hb & Hu & Ht & Ha & Hr & Hc & Hl & Hd & _); [done |].
  unfold queued in Ht. rewrite Hvalid, Hres in Ht.
  exists w', delta. repeat split; try done.
  - by rewrite <- decided_decider_log, Hd, decided_dispatch_steps.
  - by rewrite <- write_side_decider_log, Hd, write_side_dispatch_steps, Hvalid.
Qed.

(** X14. [(command as any).type || 'unknown']: the event that reports a
    command that does not parse names the command 'unknown' when the
    command has no [type], or an empty one.  The listeners of the unit's
    bus and of its trace bus are observers. *)
Theorem untyped_command_is_reported_as_unknown (w : World) (u : UnitId) (c : TCommand)
    (source : string) (schema : TCommand -> SafeParse) (error : ZodError) :
  commandSchema (dconfig P u) = Some schema ->
  schema c = ParseFailure error ->
  type_of P c = None \/ type_of P c = Some "" ->
  calm_trace P w (dtrace P u) ->
  calm_bus P w (EventsOf u) ->
  exists w' delta,
    eventually (fun fuel => dispatch P (emit P fuel) u c source w) (Normal w') /\
    log w' = log w ++ delta /\
    emitted_on (EventsOf u) delta
    = [MEvent (CommandValidationFailed "unknown" (format error) (issues error))].
Proof.
  intros Hschema Hparse Htype Htr Hbus.
  assert (Hvalid : validate P u c = ParseFailure error).
  { unfold validate. by rewrite Hschema. }
  assert (Htag : command_tag P c = "unknown").
  { unfold command_tag. destruct Htype as [-> | ->]; [done |]. by rewrite decide_True. }
  destruct (dispatch_calm u c source w Htr)
    as (w' & delta & Hrun & _ & _ & _ & _ & _ & _ & Hl & Hd & _); [done |].
  unfold dispatch_steps in Hd. rewrite Hvalid in Hd.
  exists w', delta. split; [done |]. split; [done |].
  rewrite <- emitted_on_decider_log, Hd. cbn. rewrite decide_True by done.
  unfold validationEvent. by rewrite Htag.
Qed.

(** ** The trace of a [dispatch] call *)

Lemma collect_take (entries : list TraceEntry) :
  forall traceLog : list TraceEntry,
    foldl collect (take 200 traceLog) entries = take 200 (reverse entries ++ traceLog).
Proof.
  induction entries as [| entry entries IH]; intros traceLog; [done |].
  cbn [foldl]. unfold collect at 2.
  replace (take 200 (entry :: take 200 traceLog)) with (take 200 (entry :: traceLog)).
  - rewrite IH, reverse_cons, <- app_assoc. done.
  - change 200 with (S 199). cbn [take]. f_equal.
    by rewrite take_take.
Qed.

Lemma emitted_on_emission_other (b b' : BusId) (m : Msg) (data : list (option ListenerId)) :
  b' <> b -> emitted_on b (emission b' m data) = [].
Proof.
  intros Hb. unfold emitted_on. rewrite omap_emission by done. by rewrite decide_False.
Qed.

(** What the call of [dispatch] leaves for the run of the queue. *)
Lemma dispatch_alone_after (u : UnitId) (c : TCommand) (k : Continuation) (w w0 : World) :
  tasks w = [] ->
  eventually (fun fuel => dispatch P (emit P fuel) u c "user" w) (Normal w0) ->
  (tasks w0 = [k] /\ awaiting w0 = awaiting w) \/
    (tasks w0 = [] /\ awaiting w0 = awaiting w ++ [k]) ->
  forall w2,
    eventually (fun fuel => drain P fuel (set_tasks [k] (set_awaiting (awaiting w) w0)))
      (Normal w2) ->
    awaiting w2 = awaiting w ->
    eventually (fun fuel => dispatch_alone P fuel u c w) (Normal w2).
Proof.
  intros Ht Hrun0 Hcases w2 Hdrain Ha2. unfold dispatch_alone. cbn [run].
  destruct Hcases as [[Ht0 Ha0] | [Ht0 Ha0]].
  - assert (Hw : set_tasks [k] (set_awaiting (awaiting w) w0) = w0).
    { destruct w0. cbn in *. by subst. }
    rewrite Hw in Hdrain. ev_bind w2.
    + cbn [turn run_call]. ev_bind w0; [by ev_async | exact Hdrain].
    + ev_bind w2; [| apply eventually_now].
      cbn [turn]. rewrite Ha2, lookup_ge_None_2 by done. apply eventually_now.
  - ev_bind w0.
    + cbn [turn run_call]. ev_bind w0; [by ev_async | by apply eventually_drain_idle].
    + ev_bind w2; [| apply eventually_now].
      cbn [turn]. rewrite Ha0, list_lookup_middle by done. rewrite Ht0.
      rewrite delete_middle, app_nil_r. exact Hdrain.
Qed.

Section Readers.

(** A reading of the log that shows the entries emitted on the trace bus
    [tb] of unit [u], in a heap where this bus and the bus of the unit have
    passive listeners only: the emissions, or what one of the listeners of
    the trace bus is called with. *)
Variable w : World.
Variable u : UnitId.
Variable tb : BusId.
Variable read : list Obs -> list Msg.

Hypothesis trace_bus : dtrace P u = Some tb.
Hypothesis trace_quiet : quiet_bus P w tb.
Hypothesis bus_quiet : quiet_bus P w (EventsOf u).

Hypothesis read_app : forall os1 os2, read (os1 ++ os2) = read os1 ++ read os2.
Hypothesis read_entry :
  forall t, read (emission tb (MTrace t) (listeners w tb)) = [MTrace t].
Hypothesis read_event :
  forall m, read (emission (EventsOf u) m (listeners w (EventsOf u))) = [].
Hypothesis read_step :
  forall o os, about_deciders o = true -> (forall b m, o <> OEmit b m) ->
    read (o :: os) = read os.

Lemma read_nil : read [] = [].
Proof.
  assert (H := f_equal length (read_app [] [])). cbn in H. rewrite length_app in H.
  apply nil_length_inv. lia.
Qed.

(** The loop over the events. *)
Lemma process_read (c : TCommand) (events : list TEvent) :
  forall w1 : World,
    buses w1 = buses w ->
    exists w' delta,
      eventually (fun fuel => process P fuel u c events w1)
        (match fold_evolve P u (state_of P w1 u) events with
         | Return _ => Normal w'
         | Throw e => Throws e w'
         end) /\
      frame w1 w' /\
      log w' = log w1 ++ delta /\
      read delta = MTrace <$> batch_trace P u c (clock w1) (state_of P w1 u) events.
Proof.
  induction events as [| e rest IH]; intros w1 Hb1.
  - exists w1, []. cbn. split; [apply eventually_now |]. split; [apply frame_refl |].
    split; [by rewrite app_nil_r | apply read_nil].
  - cbn [process fold_evolve batch_trace]. rewrite trace_bus.
    set (s := state_of P w1 u).
    set (t1 := TrEvent (clock w1) (Domain e) c : TraceEntry).
    set (d1 := traced w (Some tb) t1 : list Obs).
    assert (Hrun1 : eventually (fun fuel => trace_emit (emit P fuel) (Some tb) t1 w1)
                      (Normal (records d1 w1))).
    { by apply trace_emit_quiet. }
    assert (Hd1 : read d1 = [MTrace t1]) by apply read_entry.
    destruct (evolve (dconfig P u) s e) as [s' | err] eqn:He.
    + set (t2 := TrEvolve (clock w1) e s s' : TraceEntry).
      set (w2 := record (OEvolve u e s s') (write_state u s' (records d1 w1))).
      set (d2 := traced w (Some tb) t2 : list Obs).
      set (d3 := emission (EventsOf u) (MEvent (Domain e)) (listeners w (EventsOf u))
                 : list Obs).
      assert (Hrun2 : eventually (fun fuel => trace_emit (emit P fuel) (Some tb) t2 w2)
                        (Normal (records d2 w2))).
      { by apply trace_emit_quiet. }
      assert (Hrun3 : eventually
                        (fun fuel => emit P fuel (EventsOf u) (MEvent (Domain e))
                                       (records d2 w2))
                        (Normal (records d3 (records d2 w2)))).
      { unfold d3. rewrite <- (same_buses_listeners w (records d2 w2)) by done.
        apply emit_quiet_all.
        rewrite (same_buses_listeners w (records d2 w2)) by done.
        by apply quiet_quiet_on. }
      destruct (IH (records d3 (records d2 w2))) as (w' & d' & Hrun & Hf & Hl & Hd);
        [done |].
      assert (Hs' : state_of P (records d3 (records d2 w2)) u = s').
      { unfold state_of, w2. heap_simpl. by rewrite lookup_insert_eq. }
      rewrite Hs' in Hrun, Hd.
      change (clock (records d3 (records d2 w2))) with (clock w1) in Hd.
      exists w', (d1 ++ OEvolve u e s s' :: d2 ++ d3 ++ d').
      split.
      { ev_bind (records d1 w1); [exact Hrun1 |].
        change (state_of P (records d1 w1) u) with s. rewrite He. cbn zeta.
        fold w2. ev_bind (records d2 w2); [exact Hrun2 |].
        ev_bind (records d3 (records d2 w2)); [exact Hrun3 | exact Hrun]. }
      split.
      { destruct Hf as (? & ? & ? & ? & ?). unfold w2 in *. heap_simpl.
        by repeat split. }
      split; [rewrite Hl; unfold w2; heap_simpl; by list_norm |].
      rewrite read_app, Hd1, read_step by done.
      rewrite !read_app, Hd. unfold d2, d3. cbn [traced].
      by rewrite read_entry, read_event.
    + exists (records d1 w1), d1. split.
      { ev_bind (records d1 w1); [exact Hrun1 |].
        change (state_of P (records d1 w1) u) with s. rewrite He. apply eventually_now. }
      split; [by repeat split |]. split; [done |]. by rewrite Hd1.
Qed.

(** The call and its continuation. *)
Lemma dispatch_alone_read (c : TCommand) (ctx : TContext) (events : list TEvent) :
  tasks w = [] ->
  validate P u c = ParseSuccess ->
  resolves (resolveContext (dconfig P u) c) ctx ->
  decide (dconfig P u) c (state_of P w u) ctx = Return events ->
  exists w' delta,
    eventually (fun fuel => dispatch_alone P fuel u c w) (Normal w') /\
    log w' = log w ++ delta /\
    read delta
    = MTrace <$> (TrCommand (clock w) c "user" :: TrContext (clock w) c ctx
                  :: batch_trace P u c (clock w) (state_of P w u) events
                  ++ match fold_evolve P u (state_of P w u) events with
                     | Return _ => []
                     | Throw e => [TrError (clock w) "decide" e]
                     end).
Proof.
  intros Ht Hvalid Hres Hdecide.
  set (s := state_of P w u) in *.
  set (k := {| k_unit := u; k_command := c; k_settled := Return ctx |} : Continuation).
  set (t0 := TrCommand (clock w) c "user" : TraceEntry).
  set (d0 := ODispatch u c "user" :: traced w (Some tb) t0 ++ [OResolve u c] : list Obs).
  assert (Hnil : read [] = []) by apply read_nil.
  (* the call *)
  assert (Hcall : exists w0,
    eventually (fun fuel => dispatch P (emit P fuel) u c "user" w) (Normal w0) /\
    ((tasks w0 = [k] /\ awaiting w0 = awaiting w) \/
     (tasks w0 = [] /\ awaiting w0 = awaiting w ++ [k])) /\
    set_tasks [] (set_awaiting (awaiting w) w0) = records d0 w).
  { assert (Hrun0 : eventually
      (fun fuel => trace_emit (emit P fuel) (Some tb) t0 (record (ODispatch u c "user") w))
      (Normal (records (traced w (Some tb) t0) (record (ODispatch u c "user") w)))).
    { by apply trace_emit_quiet. }
    unfold dispatch. rewrite trace_bus, Hvalid. cbn zeta.
    destruct Hres as [Hres | Hres]; rewrite Hres; eexists; (split; [| split]).
    - ev_async.
      ev_bind (records (traced w (Some tb) t0) (record (ODispatch u c "user") w));
        [exact Hrun0 |].
      ev_try_normal. apply eventually_now.
    - left. heap_simpl. by rewrite Ht.
    - unfold records, record, set_tasks, set_awaiting, set_log, d0. cbn.
      rewrite Ht. f_equal. by list_norm.
    - ev_async.
      ev_bind (records (traced w (Some tb) t0) (record (ODispatch u c "user") w));
        [exact Hrun0 |].
      ev_try_normal. apply eventually_now.
    - right. heap_simpl. by rewrite Ht.
    - unfold records, record, set_tasks, set_awaiting, set_log, d0. cbn.
      rewrite Ht. f_equal. by list_norm. }
  destruct Hcall as (w0 & Hrun0 & Hcases & Hw0).
  (* its continuation *)
  set (t1 := TrContext (clock w) c ctx : TraceEntry).
  set (d1 := traced w (Some tb) t1 : list Obs).
  set (w1 := records d1 (records d0 w)).
  assert (Hrun1 : eventually
            (fun fuel => trace_emit (emit P fuel) (Some tb) t1 (records d0 w))
            (Normal w1)).
  { by apply trace_emit_quiet. }
  destruct (process_read c events (record (ODecide u c s ctx) w1))
    as (w2 & d2 & Hrun2 & Hf2 & Hl2 & Hd2); [done |].
  change (state_of P (record (ODecide u c s ctx) w1) u) with s in Hrun2, Hd2.
  change (clock (record (ODecide u c s ctx) w1)) with (clock w) in Hd2.
  destruct Hf2 as (Hb2 & Ht2 & Ha2 & Hr2 & Hc2). heap_simpl.
  assert (Hd01 : read (d0 ++ d1 ++ ODecide u c s ctx :: d2)
                 = MTrace <$> (t0 :: t1 :: batch_trace P u c (clock w) s events)).
  { rewrite !read_app. unfold d0, d1. cbn [traced].
    rewrite (read_step (ODispatch u c "user")) by done.
    rewrite read_app, !read_entry.
    rewrite (read_step (OResolve u c)) by done.
    rewrite (read_step (ODecide u c s ctx)) by done.
    by rewrite Hd2, Hnil. }
  assert (Hresume : forall w3,
    eventually (fun fuel => resume P fuel k (records d0 w)) (Normal w3) ->
    tasks w3 = [] -> awaiting w3 = awaiting w ->
    eventually (fun fuel => dispatch_alone P fuel u c w) (Normal w3)).
  { intros w3 Hrun3 Ht3 Ha3.
    apply (dispatch_alone_after u c k w w0 Ht Hrun0 Hcases); [| done].
    apply (eventually_drain_step k [] (set_tasks [k] (set_awaiting (awaiting w) w0))
             _ eq_refl).
    change (set_tasks [] (set_tasks [k] ?x)) with (set_tasks [] x). rewrite Hw0.
    ev_bind w3; [exact Hrun3 | by apply eventually_drain_idle]. }
  destruct (fold_evolve P u s events) as [s' | e] eqn:Hfold.
  - exists w2, (d0 ++ d1 ++ ODecide u c s ctx :: d2).
    split.
    { apply Hresume; [| by rewrite Ht2 | by rewrite Ha2].
      unfold resume. cbn [k k_unit k_command k_settled]. cbn zeta. rewrite trace_bus.
      ev_async. ev_try_normal. change (clock (records d0 w)) with (clock w).
      ev_bind w1; [exact Hrun1 |].
      change (state_of P w1 u) with s. rewrite Hdecide. exact Hrun2. }
    split; [rewrite Hl2; unfold w1; heap_simpl; by list_norm |].
    by rewrite Hd01, app_nil_r.
  - set (t3 := TrError (clock w) "decide" e : TraceEntry).
    set (d3 := traced w (Some tb) t3 : list Obs).
    exists (records d3 w2), ((d0 ++ d1 ++ ODecide u c s ctx :: d2) ++ d3).
    split.
    { apply Hresume; [| by heap_simpl; rewrite Ht2 | by heap_simpl; rewrite Ha2].
      unfold resume. cbn [k k_unit k_command k_settled]. cbn zeta. rewrite trace_bus.
      ev_async. ev_try_throws e w2.
      - change (clock (records d0 w)) with (clock w).
        ev_bind w1; [exact Hrun1 |].
        change (state_of P w1 u) with s. rewrite Hdecide. exact Hrun2.
      - rewrite Hc2. by apply trace_emit_quiet. }
    split; [heap_simpl; rewrite Hl2; unfold w1; heap_simpl; by list_norm |].
    rewrite read_app, Hd01. unfold d3. cbn [traced]. rewrite read_entry.
    change (t0 :: t1 :: ?x) with ([t0; t1] ++ x). by rewrite !fmap_app, <- !app_assoc.
Qed.

End Readers.

Lemma emitted_on_step (b : BusId) (o : Obs) (os : list Obs) :
  about_deciders o = true -> (forall b' m, o <> OEmit b' m) ->
  emitted_on b (o :: os) = emitted_on b os.
Proof. intros _ Ho. destruct o; try done. by destruct (Ho b0 m). Qed.

Lemma receipts_step (b : BusId) (l : ListenerId) (o : Obs) (os : list Obs) :
  about_deciders o = true -> (forall b' m, o <> OEmit b' m) ->
  receipts b l (o :: os) = receipts b l os.
Proof. intros Ho _. by destruct o. Qed.

Lemma receipts_emission_other (b b' : BusId) (l : ListenerId) (m : Msg)
    (data : list (option ListenerId)) :
  b' <> b -> receipts b l (emission b' m data) = [].
Proof.
  intros Hb. unfold receipts. rewrite omap_emission; [done | | done].
  intros l'. rewrite decide_False; [done |]. by intros [? _].
Qed.

(** X15. The trace of a [dispatch] call.  For a command that passes
    validation, whose context resolves and for which [decide] returns
    [events], the entries emitted on the trace bus are, in this order: the
    'command' entry, the 'context' entry, for every event its 'event' entry
    followed by its 'evolve' entry, and, when [evolve] throws on an event,
    the 'event' entry of that event and an 'error' entry of phase 'decide',
    with nothing behind them.  The listeners of the unit's bus and of the
    trace bus return without calling the runtime. *)
Theorem dispatch_is_traced_step_by_step (w : World) (u : UnitId) (c : TCommand)
    (ctx : TContext) (events : list TEvent) (tb : BusId) :
  tasks w = [] ->
  dtrace P u = Some tb ->
  quiet_bus P w tb ->
  quiet_bus P w (EventsOf u) ->
  tb <> EventsOf u ->
  validate P u c = ParseSuccess ->
  resolves (resolveContext (dconfig P u) c) ctx ->
  decide (dconfig P u) c (state_of P w u) ctx = Return events ->
  exists w' delta,
    eventually (fun fuel => dispatch_alone P fuel u c w) (Normal w') /\
    log w' = log w ++ delta /\
    emitted_on tb delta
    = MTrace <$> (TrCommand (clock w) c "user" :: TrContext (clock w) c ctx
                  :: batch_trace P u c (clock w) (state_of P w u) events
                  ++ match fold_evolve P u (state_of P w u) events with
                     | Return _ => []
                     | Throw e => [TrError (clock w) "decide" e]
                     end).
Proof.
  intros Ht Htb Hq Hbus Hne Hvalid Hres Hdecide.
  apply (dispatch_alone_read w u tb (emitted_on tb)); try done.
  - apply emitted_on_app.
  - intros t. apply emitted_on_emission_same.
  - intros m. by apply emitted_on_emission_other.
  - apply emitted_on_step.
Qed.

(** X16. [traceLog] after a [dispatch] call, on a system whose trace bus
    has the collector among passive listeners: the entries of the call,
    newest first, in front of the entries that were there, and the 200
    newest of them at most.  The listeners of the unit's bus return without
    calling the runtime. *)
Theorem trace_log_shows_the_call_newest_first (w : World) (u : UnitId) (c : TCommand)
    (ctx : TContext) (events : list TEvent) (tb : BusId) (collector : ListenerId) :
  tasks w = [] ->
  dtrace P u = Some tb ->
  quiet_bus P w tb ->
  set_wf (listeners w tb) ->
  Some collector ∈ listeners w tb ->
  quiet_bus P w (EventsOf u) ->
  tb <> EventsOf u ->
  validate P u c = ParseSuccess ->
  resolves (resolveContext (dconfig P u) c) ctx ->
  decide (dconfig P u) c (state_of P w u) ctx = Return events ->
  exists w',
    eventually (fun fuel => dispatch_alone P fuel u c w) (Normal w') /\
    traceLog tb collector (log w')
    = take 200
        (reverse (TrCommand (clock w) c "user" :: TrContext (clock w) c ctx
                  :: batch_trace P u c (clock w) (state_of P w u) events
                  ++ match fold_evolve P u (state_of P w u) events with
                     | Return _ => []
                     | Throw e => [TrError (clock w) "decide" e]
                     end)
         ++ traceLog tb collector (log w)).
Proof.
  intros Ht Htb Hq Hwf Hin Hbus Hne Hvalid Hres Hdecide.
  destruct (dispatch_alone_read w u tb (receipts tb collector) Htb Hq Hbus
              (receipts_app tb collector)) with (c := c) (ctx := ctx) (events := events)
    as (w' & delta & Hrun & Hl & Hd); try done.
  - intros t. rewrite receipts_emission.
    apply receipts_deliveries_once; [done | by apply elem_of_live].
  - intros m. by apply receipts_emission_other.
  - apply receipts_step.
  - exists w'. split; [done |].
    unfold traceLog. rewrite Hl, receipts_app, omap_app, foldl_app, Hd.
    set (entries := TrCommand (clock w) c "user" :: _).
    assert (Hentries : omap entry_of (MTrace <$> entries) = entries).
    { clear. induction entries as [| t ts IH]; [done |]. cbn. by rewrite IH. }
    rewrite Hentries.
    set (old := omap entry_of (receipts tb collector (log w))).
    assert (Hold : foldl collect [] old = take 200 (reverse old)).
    { change (@nil TraceEntry) with (take 200 (@nil TraceEntry)) at 1.
      by rewrite collect_take, app_nil_r. }
    rewrite Hold, collect_take, !take_app, take_take. do 2 f_equal. lia.
Qed.

(** ** A cascade *)

Lemma state_of_write_state (w : World) (u u' : UnitId) (s : TState) :
  state_of P (write_state u s w) u'
  = if base.decide (u' = u) then s else state_of P w u'.
Proof.
  unfold state_of. heap_simpl. case_decide as Hu.
  - subst. by rewrite lookup_insert_eq.
  - by rewrite lookup_insert_ne.
Qed.

Lemma queue_steps_ext (ks : list Continuation) :
  forall w w' : World,
    (forall u, state_of P w' u = state_of P w u) ->
    queue_steps P w' ks = queue_steps P w ks.
Proof.
  induction ks as [| k ks IH]; intros w w' Hs; [done |].
  cbn [queue_steps]. rewrite (resume_steps_ext w w') by apply Hs. f_equal.
  apply IH. intros u. rewrite !state_of_write_state, (resume_state_ext w w') by apply Hs.
  by rewrite Hs.
Qed.

Lemma queue_state_ext (u : UnitId) (ks : list Continuation) :
  forall w w' : World,
    (forall u', state_of P w' u' = state_of P w u') ->
    queue_state P w' u ks = queue_state P w u ks.
Proof.
  induction ks as [| k ks IH]; intros w w' Hs; [apply Hs |].
  cbn [queue_state]. apply IH.
  intros u'. rewrite !state_of_write_state, (resume_state_ext w w') by apply Hs.
  by rewrite Hs.
Qed.

(** The queue runs until it is empty, when the units of its continuations
    have observers only. *)
Lemma drain_queue (ks : list Continuation) :
  forall w : World,
    tasks w = ks ->
    (forall k, k ∈ ks ->
       calm_trace P w (dtrace P (k_unit k)) /\ calm_bus P w (EventsOf (k_unit k))) ->
    exists w' delta,
      eventually (fun fuel => drain P fuel w) (Normal w') /\
      frame (set_tasks [] w) w' /\
      log w' = log w ++ delta /\
      decider_log delta = queue_steps P w ks /\
      forall u, state_of P w' u = queue_state P w u ks.
Proof.
  induction ks as [| k ks IH]; intros w Ht Hcalm.
  - exists w, []. split; [by apply eventually_drain_idle |].
    split; [unfold frame; heap_simpl; by rewrite Ht |].
    split; [by rewrite app_nil_r | done].
  - destruct (Hcalm k ltac:(by left)) as [Htr Hbus].
    destruct (resume_calm k (set_tasks ks w))
      as (w1 & d1 & Hrun1 & Hf1 & Hl1 & Hd1 & Hs1 & Ho1 & _); [done | done |].
    destruct Hf1 as (Hb1 & Ht1 & Ha1 & Hr1 & Hc1). heap_simpl.
    change (resume_steps P (set_tasks ks w) k) with (resume_steps P w k) in Hd1.
    change (resume_state P (set_tasks ks w) k) with (resume_state P w k) in Hs1.
    assert (Hstates : forall u,
      state_of P w1 u = state_of P (write_state (k_unit k) (resume_state P w k) w) u).
    { intros u. rewrite state_of_write_state. case_decide as Hu; [by subst |].
      unfold state_of. by rewrite Ho1. }
    destruct (IH w1) as (w' & d' & Hrun & Hq & Hl & Hd & Hs); [done | |].
    { intros k' Hk'. destruct (Hcalm k' ltac:(by right)) as [Htr' Hbus'].
      split; [by apply (calm_trace_same_buses w) | by apply (calm_bus_same_buses w)]. }
    destruct Hq as (Hb & Ht' & Ha & Hr & Hc). heap_simpl.
    exists w', (d1 ++ d'). split.
    { apply (eventually_drain_step k ks w _ Ht). ev_bind w1; [exact Hrun1 | exact Hrun]. }
    split; [unfold frame; heap_simpl; repeat split; congruence |].
    split; [rewrite Hl, Hl1; by rewrite app_assoc |].
    split.
    { rewrite decider_log_app, Hd1, Hd. cbn [queue_steps]. f_equal.
      by apply queue_steps_ext. }
    intros u. rewrite Hs. cbn [queue_state]. by apply queue_state_ext.
Qed.

(** The loop over [targetDispatch] queues, or parks, the continuation of
    every command, in order. *)
Lemma dispatch_all_queues (target : UnitId) (commands : list TCommand) :
  forall w : World,
    calm_trace P w (dtrace P target) ->
    calm_bus P w (EventsOf target) ->
    exists w' delta,
      eventually (fun fuel => dispatch_all P (emit P fuel) target commands w)
        (Normal w') /\
      queues (flat_map (queued P target) commands)
        (flat_map (parked P target) commands) w w' /\
      log w' = log w ++ delta /\
      decider_log delta = flat_map (fun c => dispatch_steps P target c "user") commands.
Proof.
  induction commands as [| c rest IH]; intros w Htr Hbus.
  - exists w, []. split; [by exists 0 |].
    split; [unfold queues; cbn [flat_map]; rewrite !app_nil_r; by repeat split |].
    split; [by rewrite app_nil_r | done].
  - destruct (dispatch_calm target c "user" w Htr)
      as (w1 & d1 & Hrun1 & Hb1 & Hu1 & Ht1 & Ha1 & Hr1 & Hc1 & Hl1 & Hd1 & _); [done |].
    destruct (IH w1) as (w' & delta & Hrun & Hq & Hlog & Hd).
    { by apply (calm_trace_same_buses w). }
    { by apply (calm_bus_same_buses w). }
    destruct Hq as (Hb & Hu & Ht & Ha & Hr & Hc).
    exists w', (d1 ++ delta). split.
    { cbn [dispatch_all]. ev_bind w1; [exact Hrun1 | exact Hrun]. }
    split.
    { unfold queues. cbn [flat_map]. rewrite Ht, Ha, Ht1, Ha1, <- !app_assoc.
      repeat split; congruence. }
    split; [rewrite Hlog, Hl1; by rewrite app_assoc |].
    cbn [flat_map]. by rewrite decider_log_app, Hd1, Hd.
Qed.

(** An emission on a bus where every listener but one is an observer, and
    that one queues continuations. *)
Lemma emit_calm_around_queue (b : BusId) (m : Msg) (w : World)
    (pre post : list (option ListenerId)) (l : ListenerId)
    (qs ps : list Continuation) (steps : list Obs) :
  listeners w b = pre ++ Some l :: post ->
  calm P (buses w) pre ->
  calm P (buses w) post ->
  (forall w1, buses w1 = buses w ->
     exists w2 d2,
       eventually (fun fuel => call P (emit P fuel) l m w1) (Normal w2) /\
       queues qs ps w1 w2 /\ log w2 = log w1 ++ d2 /\ decider_log d2 = steps) ->
  exists w' delta,
    eventually (fun fuel => emit P fuel b m w) (Normal w') /\
    queues qs ps w w' /\
    log w' = log w ++ OEmit b m :: delta /\
    decider_log delta = steps.
Proof.
  intros Hdata Hpre Hpost Hcall.
  destruct (forEach_calm_prefix b m pre (Some l :: post) 0 (record (OEmit b m) w))
    as (w1 & d1 & Hf1 & Hu1 & Hl1 & Hd1 & Hk1).
  { by rewrite drop_0. }
  { exact Hpre. }
  destruct Hf1 as (Hb1 & Ht1 & Ha1 & Hr1 & Hc1). heap_simpl.
  destruct (Hcall (record (ODeliver b l m) w1) Hb1)
    as (w2 & d2 & Hrun2 & Hq2 & Hl2 & Hd2).
  destruct Hq2 as (Hb2 & Hu2 & Ht2 & Ha2 & Hr2 & Hc2). heap_simpl.
  assert (Hb2' : buses w2 = buses w) by congruence.
  destruct (forEach_calm_prefix b m post [] (S (length pre)) w2)
    as (w3 & d3 & Hf3 & Hu3 & Hl3 & Hd3 & Hk3).
  { rewrite (same_buses_listeners w w2), Hdata, app_nil_r by done.
    apply drop_after_middle. }
  { by rewrite Hb2'. }
  destruct Hf3 as (Hb3 & Ht3 & Ha3 & Hr3 & Hc3).
  assert (Hb3' : buses w3 = buses w) by congruence.
  exists (record (OEmitDone b m) w3), (d1 ++ ODeliver b l m :: d2 ++ d3 ++ [OEmitDone b m]).
  split.
  { apply eventually_emit. ev_bind w3; [| apply eventually_now].
    apply Hk1. cbn [Nat.add].
    apply (eventually_forEach_call b m (length pre) w1 l).
    { rewrite (same_buses_listeners w w1), Hdata by done. apply listeners_lookup_middle. }
    ev_bind w2; [exact Hrun2 |]. apply Hk3. apply eventually_forEach_end.
    apply lookup_ge_None.
    rewrite (same_buses_listeners w w3), Hdata, length_app by done. cbn [length]. lia. }
  split; [unfold queues; heap_simpl; repeat split; congruence |].
  split.
  { heap_simpl. rewrite Hl3, Hl2. heap_simpl. rewrite Hl1. by list_norm. }
  dlog. rewrite Hd1, Hd2, Hd3. by rewrite ?app_nil_r.
Qed.

Lemma queued_unit (u : UnitId) (commands : list TCommand) (k : Continuation) :
  k ∈ flat_map (queued P u) commands -> k_unit k = u.
Proof.
  induction commands as [| c rest IH]; cbn [flat_map]; intros Hk.
  - by apply elem_of_nil in Hk.
  - apply elem_of_app in Hk as [Hk | Hk]; [| by apply IH].
    unfold queued in Hk.
    destruct (validate P u c); [| by apply elem_of_nil in Hk].
    destruct (resolveContext (dconfig P u) c);
      [by apply elem_of_nil in Hk | | by apply elem_of_nil in Hk].
    apply list_elem_of_singleton in Hk. by subst.
Qed.

(** X17. A cascade.  An event is emitted on the bus of unit [A], where a
    process manager reacts with commands for unit [B].  During the emission
    [dispatch] of [B] is called for every command, and none is decided;
    when the emission has returned, the commands whose context was returned
    at once are decided in the order of [react]'s result, each on the state
    the one before it left, and the queue is empty when the turn ends; the
    commands that wait for a promise stay parked.  The other listeners of
    the bus of [A], those of the bus of [B] and those of the trace buses are
    observers. *)
Theorem reaction_is_decided_after_the_emission (w : World) (A B : UnitId) (event : Msg)
    (pre post : list (option ListenerId)) (l : ListenerId)
    (config : ProcessManagerConfig) (tr : option BusId) (commands : list TCommand) :
  tasks w = [] ->
  listeners w (EventsOf A) = pre ++ Some l :: post ->
  calm P (buses w) pre ->
  calm P (buses w) post ->
  code P l = ProcessManagerL config B tr ->
  calm_trace P w tr ->
  calm_trace P w (dtrace P B) ->
  calm_bus P w (EventsOf B) ->
  filter config event = Return true ->
  react config event = Return commands ->
  exists w' delta,
    eventually (fun fuel => turn P fuel (UserCall (CEmit (EventsOf A) event)) w)
      (Normal w') /\
    log w' = log w ++ delta /\
    decider_log delta
    = OEmit (EventsOf A) event
      :: flat_map (fun c => dispatch_steps P B c "user") commands
      ++ queue_steps P w (flat_map (queued P B) commands) /\
    (forall u, state_of P w' u = queue_state P w u (flat_map (queued P B) commands)) /\
    tasks w' = [] /\
    awaiting w' = awaiting w ++ flat_map (parked P B) commands.
Proof.
  intros Ht Hdata Hpre Hpost Hcode Htr HtrB HbusB Hfilter Hreact.
  destruct (emit_calm_around_queue (EventsOf A) event w pre post l
              (flat_map (queued P B) commands) (flat_map (parked P B) commands)
              (flat_map (fun c => dispatch_steps P B c "user") commands))
    as (w1 & d1 & Hrun1 & Hq1 & Hl1 & Hd1); try done.
  { intros w0 Hb0. unfold call. rewrite Hcode.
    unfold process_manager_listener. rewrite Hfilter, Hreact.
    destruct (trace_emit_calm tr
                (TrProcessManager (clock w0) (mname config) event commands) w0)
      as (w2 & dt & Hrun2 & Hf2 & Hu2 & Hl2 & Hdt & _).
    { by apply (calm_trace_same_buses w). }
    destruct Hf2 as (Hb2 & Ht2 & Ha2 & Hr2 & Hc2).
    destruct (dispatch_all_queues B commands w2) as (w3 & da & Hrun3 & Hq3 & Hl3 & Hda).
    { apply (calm_trace_same_buses w); [congruence | done]. }
    { apply (calm_bus_same_buses w); [congruence | done]. }
    destruct Hq3 as (Hb3 & Hu3 & Ht3 & Ha3 & Hr3 & Hc3).
    exists w3, (dt ++ da).
    split; [ev_try_normal; ev_bind w2; [exact Hrun2 | exact Hrun3] |].
    split; [unfold queues; repeat split; congruence |].
    split; [rewrite Hl3, Hl2; by rewrite app_assoc |].
    by rewrite decider_log_app, Hdt, Hda. }
  destruct Hq1 as (Hb1 & Hu1 & Ht1 & Ha1 & Hr1 & Hc1).
  rewrite Ht in Ht1. cbn [app] in Ht1.
  destruct (drain_queue (flat_map (queued P B) commands) w1)
    as (w2 & d2 & Hrun2 & Hq2 & Hl2 & Hd2 & Hs2); [done | |].
  { intros k Hk. rewrite (queued_unit B commands k Hk).
    split; [by apply (calm_trace_same_buses w) | by apply (calm_bus_same_buses w)]. }
  destruct Hq2 as (Hb2 & Ht2 & Ha2 & Hr2 & Hc2). heap_simpl.
  assert (Hstates : forall u, state_of P w1 u = state_of P w u).
  { intros u. by apply state_of_same_ustate. }
  exists w2, (OEmit (EventsOf A) event :: d1 ++ d2).
  split.
  { cbn [turn run_call]. ev_bind w1; [by ev_async | exact Hrun2]. }
  split; [rewrite Hl2, Hl1; by list_norm |].
  split.
  { dlog. rewrite Hd1, Hd2. cbn. do 2 f_equal. by apply queue_steps_ext. }
  split.
  { intros u. rewrite Hs2. by apply queue_state_ext. }
  split; [by rewrite Ht2 |]. rewrite Ha2. by rewrite Ha1.
Qed.

(** ** From a command of one unit to the state of another *)

Lemma wired_same_buses (w w' : World) (A B : UnitId) (pre post : list (option ListenerId))
    (l : ListenerId) (config : ProcessManagerConfig) (tr : option BusId) :
  buses w' = buses w ->
  wired P w A B pre post l config tr ->
  wired P w' A B pre post l config tr.
Proof.
  intros Hb (Hdata & Hpre & Hpost & Hcode & Htr & HtrA & HtrB & HbusB).
  unfold wired. rewrite (same_buses_listeners w w') by done. rewrite Hb.
  repeat split; try done; try (by apply (calm_trace_same_buses w));
    by apply (calm_bus_same_buses w).
Qed.

(** The call of the process manager, when its [filter] does not throw. *)
Lemma process_manager_queues (w : World) (A B : UnitId)
    (pre post : list (option ListenerId)) (l : ListenerId)
    (config : ProcessManagerConfig) (tr : option BusId) (m : Msg) :
  wired P w A B pre post l config tr ->
  (forall err, filter config m <> Throw err) ->
  exists w' delta,
    eventually (fun fuel => call P (emit P fuel) l m w) (Normal w') /\
    queues (flat_map (queued P B) (reaction config m))
      (flat_map (parked P B) (reaction config m)) w w' /\
    log w' = log w ++ delta /\
    decider_log delta
    = flat_map (fun c => dispatch_steps P B c "user") (reaction config m).
Proof.
  intros (Hdata & Hpre & Hpost & Hcode & Htr & HtrA & HtrB & HbusB) Hfilter.
  unfold call. rewrite Hcode. unfold process_manager_listener, reaction.
  destruct (filter config m) as [[|] | err]; [| | by destruct (Hfilter err)].
  - destruct (react config m) as [commands | e].
    + destruct (trace_emit_calm tr
                  (TrProcessManager (clock w) (mname config) m commands) w Htr)
        as (w2 & dt & Hrun2 & Hf2 & Hu2 & Hl2 & Hdt & _).
      destruct Hf2 as (Hb2 & Ht2 & Ha2 & Hr2 & Hc2).
      destruct (dispatch_all_queues B commands w2) as (w3 & da & Hrun3 & Hq3 & Hl3 & Hda).
      { by apply (calm_trace_same_buses w). }
      { by apply (calm_bus_same_buses w). }
      destruct Hq3 as (Hb3 & Hu3 & Ht3 & Ha3 & Hr3 & Hc3).
      exists w3, (dt ++ da).
      split; [ev_try_normal; ev_bind w2; [exact Hrun2 | exact Hrun3] |].
      split; [unfold queues; repeat split; congruence |].
      split; [rewrite Hl3, Hl2; by rewrite app_assoc |].
      by rewrite decider_log_app, Hdt, Hda.
    + destruct (trace_emit_calm tr (TrError (clock w) "process-manager" e) w Htr)
        as (w2 & dt & Hrun2 & Hf2 & Hu2 & Hl2 & Hdt & _).
      destruct Hf2 as (Hb2 & Ht2 & Ha2 & Hr2 & Hc2).
      exists w2, dt.
      split; [ev_try_throws e w; [apply eventually_now | exact Hrun2] |].
      split; [unfold queues; cbn [flat_map]; rewrite !app_nil_r; by repeat split |].
      done.
  - exists w, []. split; [apply eventually_now |].
    split; [unfold queues; cbn [flat_map]; rewrite !app_nil_r; by repeat split |].
    split; [by rewrite app_nil_r | done].
Qed.

(** The loop over the events of a command of [A]: every event is evolved
    and emitted, and the process manager queues its reactions. *)
Lemma process_reacting (A B : UnitId) (pre post : list (option ListenerId))
    (l : ListenerId) (config : ProcessManagerConfig) (tr : option BusId)
    (c : TCommand) (events : list TEvent) :
  forall (w : World) (s' : TState),
    wired P w A B pre post l config tr ->
    fold_evolve P A (state_of P w A) events = Return s' ->
    (forall e err, e ∈ events -> filter config (MEvent (Domain e)) <> Throw err) ->
    exists w' delta,
      eventually (fun fuel => process P fuel A c events w) (Normal w') /\
      buses w' = buses w /\
      tasks w' = tasks w ++ flat_map (queued P B) (reactions config events) /\
      awaiting w' = awaiting w ++ flat_map (parked P B) (reactions config events) /\
      rejected w' = rejected w /\ clock w' = clock w /\
      log w' = log w ++ delta /\
      decider_log delta = reacting_batch P A config B (state_of P w A) events /\
      state_of P w' A = s' /\
      forall u', u' <> A -> ustate w' !! u' = ustate w !! u'.
Proof.
  induction events as [| e rest IH]; intros w s' Hwired Hfold Hfilter.
  - cbn in Hfold. injection Hfold as <-.
    exists w, []. split; [by exists 0 |]. cbn. by rewrite !app_nil_r.
  - cbn [fold_evolve] in Hfold. cbn [process reacting_batch].
    destruct (evolve (dconfig P A) (state_of P w A) e) as [s1 | err] eqn:He; [| done].
    assert (HtrA : calm_trace P w (dtrace P A)) by apply Hwired.
    destruct (trace_emit_calm (dtrace P A) (TrEvent (clock w) (Domain e) c) w HtrA)
      as (w1 & d1 & Hrun1 & Hf1 & Hu1 & Hl1 & Hd1 & _).
    destruct Hf1 as (Hb1 & Ht1 & Ha1 & Hr1 & Hc1).
    assert (Hs1 : state_of P w1 A = state_of P w A) by (by apply state_of_same_ustate).
    destruct (trace_emit_calm (dtrace P A)
                (TrEvolve (clock w1) e (state_of P w A) s1)
                (record (OEvolve A e (state_of P w A) s1) (write_state A s1 w1)))
      as (w3 & d3 & Hrun3 & Hf3 & Hu3 & Hl3 & Hd3 & _).
    { by apply (calm_trace_same_buses w). }
    destruct Hf3 as (Hb3 & Ht3 & Ha3 & Hr3 & Hc3). heap_simpl.
    assert (Hb3' : buses w3 = buses w) by congruence.
    assert (Hwired3 : wired P w3 A B pre post l config tr).
    { by apply (wired_same_buses w). }
    set (m := MEvent (Domain e) : Msg).
    destruct (emit_calm_around_queue (EventsOf A) m w3 pre post l
                (flat_map (queued P B) (reaction config m))
                (flat_map (parked P B) (reaction config m))
                (flat_map (fun c => dispatch_steps P B c "user") (reaction config m)))
      as (w4 & d4 & Hrun4 & Hq4 & Hl4 & Hd4); try apply Hwired3.
    { intros w0 Hb0. apply (process_manager_queues w0 A B pre post l config tr).
      - by apply (wired_same_buses w3).
      - intros err. apply (Hfilter e). by left. }
    destruct Hq4 as (Hb4 & Hu4 & Ht4 & Ha4 & Hr4 & Hc4).
    assert (Hs4 : state_of P w4 A = s1).
    { unfold state_of. rewrite Hu4, Hu3. heap_simpl. by rewrite lookup_insert_eq. }
    destruct (IH w4 s') as (w' & d' & Hrun & Hb & Ht & Ha & Hr & Hc & Hl & Hd & Hs & Ho).
    { apply (wired_same_buses w); [congruence | done]. }
    { by rewrite Hs4. }
    { intros e' err He'. apply Hfilter. by right. }
    rewrite Hs4 in Hd.
    exists w', (d1 ++ OEvolve A e (state_of P w A) s1 :: d3 ++ OEmit (EventsOf A) m :: d4 ++ d').
    split.
    { ev_bind w1; [exact Hrun1 |]. rewrite Hs1, He. cbn zeta.
      ev_bind w3; [exact Hrun3 |]. ev_bind w4; [exact Hrun4 | exact Hrun]. }
    unfold reactions in *. cbn [flat_map]. rewrite !flat_map_app.
    split; [congruence |].
    split; [rewrite Ht, Ht4, Ht3, Ht1; by rewrite app_assoc |].
    split; [rewrite Ha, Ha4, Ha3, Ha1; by rewrite app_assoc |].
    split; [congruence |]. split; [congruence |].
    split; [rewrite Hl, Hl4, Hl3; heap_simpl; rewrite Hl1; by list_norm |].
    split; [dlog; by rewrite Hd1, Hd3, Hd4, Hd |].
    split; [done |].
    intros u' Hu'. rewrite (Ho u' Hu'), Hu4, Hu3. heap_simpl.
    rewrite lookup_insert_ne by done. by rewrite Hu1.
Qed.

(** X18. From a command of unit [A] to the state of unit [B].  A command of
    [A] is dispatched, its context is returned at once, [decide] returns
    [events] and [evolve] throws on none of them; a process manager reacts
    to the events of [A] with commands for [B].  Within the turn of the
    call: the events of the command are evolved and emitted one after the
    other, and at each emission [dispatch] of [B] is called for the
    reactions to that event, none of which is decided before the batch of
    [A] is over; then the reactions whose context was returned at once are
    decided in the order they were dispatched, each on the state the one
    before it left.  The other listeners of the bus of [A], those of the bus
    of [B] and those of the trace buses are observers; [filter] throws on
    none of the events. *)
Theorem command_cascades_to_the_target (w : World) (A B : UnitId) (c : TCommand)
    (ctx : TContext) (events : list TEvent) (sA : TState)
    (pre post : list (option ListenerId)) (l : ListenerId)
    (config : ProcessManagerConfig) (tr : option BusId) :
  tasks w = [] ->
  listeners w (EventsOf A) = pre ++ Some l :: post ->
  calm P (buses w) pre ->
  calm P (buses w) post ->
  code P l = ProcessManagerL config B tr ->
  calm_trace P w tr ->
  calm_trace P w (dtrace P A) ->
  calm_trace P w (dtrace P B) ->
  calm_bus P w (EventsOf B) ->
  validate P A c = ParseSuccess ->
  resolveContext (dconfig P A) c = ResolveValue ctx ->
  decide (dconfig P A) c (state_of P w A) ctx = Return events ->
  fold_evolve P A (state_of P w A) events = Return sA ->
  (forall e err, e ∈ events -> filter config (MEvent (Domain e)) <> Throw err) ->
  exists w' delta,
    eventually (fun fuel => turn P fuel (UserCall (CDispatch A c)) w) (Normal w') /\
    log w' = log w ++ delta /\
    decider_log delta
    = dispatch_steps P A c "user"
      ++ ODecide A c (state_of P w A) ctx
      :: reacting_batch P A config B (state_of P w A) events
      ++ queue_steps P (write_state A sA w)
           (flat_map (queued P B) (reactions config events)) /\
    (forall u, state_of P w' u
               = queue_state P (write_state A sA w) u
                   (flat_map (queued P B) (reactions config events))) /\
    tasks w' = [] /\
    awaiting w' = awaiting w ++ flat_map (parked P B) (reactions config events).
Proof.
  intros Ht Hdata Hpre Hpost Hcode Htr HtrA HtrB HbusB Hvalid Hres Hdecide Hfold Hfilter.
  assert (Hwired : wired P w A B pre post l config tr) by (by repeat split).
  set (s := state_of P w A) in *.
  set (k := {| k_unit := A; k_command := c; k_settled := Return ctx |} : Continuation).
  set (ks := flat_map (queued P B) (reactions config events)).
  (* the call *)
  destruct (dispatch_calm A c "user" w HtrA)
    as (w0 & d0 & Hrun0 & Hb0 & Hu0 & Ht0 & Ha0 & Hr0 & Hc0 & Hl0 & Hd0 & _); [done |].
  unfold queued in Ht0. unfold parked in Ha0. rewrite Hvalid, Hres in Ht0, Ha0.
  rewrite Ht in Ht0. cbn [app] in Ht0. rewrite app_nil_r in Ha0. fold k in Ht0.
  (* its continuation *)
  destruct (trace_emit_calm (dtrace P A) (TrContext (clock w0) c ctx) (set_tasks [] w0))
    as (w1 & d1 & Hrun1 & Hf1 & Hu1 & Hl1 & Hd1 & _).
  { by apply (calm_trace_same_buses w). }
  destruct Hf1 as (Hb1 & Ht1 & Ha1 & Hr1 & Hc1). heap_simpl.
  assert (Hs1 : state_of P w1 A = s).
  { unfold s. apply state_of_same_ustate. congruence. }
  destruct (process_reacting A B pre post l config tr c events
              (record (ODecide A c s ctx) w1) sA)
    as (w2 & d2 & Hrun2 & Hb2 & Ht2 & Ha2 & Hr2 & Hc2 & Hl2 & Hd2 & Hs2 & Ho2).
  { apply (wired_same_buses w); [heap_simpl; congruence | done]. }
  { change (state_of P (record ?o w1) A) with (state_of P w1 A). by rewrite Hs1. }
  { done. }
  change (state_of P (record ?o w1) A) with (state_of P w1 A) in Hd2.
  rewrite Hs1 in Hd2. heap_simpl. rewrite Ht1 in Ht2. cbn [app] in Ht2. fold ks in Ht2.
  (* the queue *)
  destruct (drain_queue ks w2) as (w3 & d3 & Hrun3 & Hf3 & Hl3 & Hd3 & Hs3); [done | |].
  { intros k' Hk'. rewrite (queued_unit B _ k' Hk').
    split; [apply (calm_trace_same_buses w) | apply (calm_bus_same_buses w)];
      try done; congruence. }
  destruct Hf3 as (Hb3 & Ht3 & Ha3 & Hr3 & Hc3). heap_simpl.
  assert (Hstates : forall u, state_of P w2 u = state_of P (write_state A sA w) u).
  { intros u. rewrite state_of_write_state. case_decide as Hu; [by subst |].
    unfold state_of. rewrite (Ho2 u Hu). heap_simpl. by rewrite Hu1, Hu0. }
  exists w3, (d0 ++ d1 ++ ODecide A c s ctx :: d2 ++ d3).
  split.
  { cbn [turn run_call]. ev_bind w0; [by ev_async |].
    apply (eventually_drain_step k [] w0 _ Ht0).
    ev_bind w2; [| exact Hrun3].
    unfold resume. cbn [k k_unit k_command k_settled]. cbn zeta.
    ev_async. ev_try_normal. ev_bind w1; [exact Hrun1 |].
    rewrite Hs1, Hdecide. exact Hrun2. }
  split; [rewrite Hl3, Hl2; heap_simpl; rewrite Hl1, Hl0; by list_norm |].
  split.
  { dlog. rewrite Hd0, Hd1, Hd2, Hd3. cbn [app]. do 3 f_equal.
    by apply queue_steps_ext. }
  split; [intros u; rewrite Hs3; by apply queue_state_ext |].
  split; [done |]. rewrite Ha3, Ha2. heap_simpl. by rewrite Ha1, Ha0.
Qed.

(** ** System *)

(** X19. [traceLog] holds the trace entries newest first, and never more
    than 200 of them: after any number of entries it is the last 200
    emitted, in reverse order. *)
Theorem trace_log_holds_the_latest_entries (entries : list TraceEntry) :
  foldl collect [] entries = take 200 (reverse entries) /\
  length (foldl collect [] entries) = length entries `min` 200.
Proof.
  assert (H : foldl collect [] entries = take 200 (reverse entries)).
  { change (@nil TraceEntry) with (take 200 (@nil TraceEntry)) at 1.
    by rewrite collect_take, app_nil_r. }
  split; [exact H |]. rewrite H, length_take, length_reverse. lia.
Qed.

Lemma filter_equiv {A : Type} (Q1 Q2 : A -> Prop) `{!forall x, Decision (Q1 x)}
    `{!forall x, Decision (Q2 x)} (l : list A) :
  (forall x, x ∈ l -> Q1 x <-> Q2 x) -> base.filter Q1 l = base.filter Q2 l.
Proof.
  induction l as [| x l IH]; intros Hq; [done |].
  assert (IH' : base.filter Q1 l = base.filter Q2 l).
  { apply IH. intros y Hy. apply Hq. by right. }
  destruct (base.decide (Q1 x)) as [H1 | H1].
  - rewrite !filter_cons_True; [by rewrite IH' | | done]. apply Hq; [by left | done].
  - rewrite !filter_cons_False; [done | | done]. intros H2. apply H1, Hq; [by left | done].
Qed.

Lemma filter_all {A : Type} (Q : A -> Prop) `{!forall x, Decision (Q x)} (l : list A) :
  (forall x, x ∈ l -> Q x) -> base.filter Q l = l.
Proof.
  induction l as [| x l IH]; intros Hq; [done |].
  rewrite filter_cons_True by (apply Hq; by left). rewrite IH; [done |].
  intros y Hy. apply Hq. by right.
Qed.

(** The functions of a list of cleanups, called in order. *)
Lemma cleanups_live (cs : list (BusId * ListenerId)) :
  forall (w : World) (b : BusId),
    live (listeners (foldl (fun w' '(b', l) => unsubscribe b' l w') w cs) b)
    = base.filter (fun l => (b, l) ∉ cs) (live (listeners w b)).
Proof.
  induction cs as [| [b' l'] cs IH]; intros w b; cbn [foldl].
  - symmetry. apply filter_all. intros x _. apply not_elem_of_nil.
  - rewrite IH. destruct (base.decide (b = b')) as [-> | Hb].
    + rewrite listeners_unsubscribe, live_set_delete_filter, list_filter_filter.
      apply filter_equiv. intros x _. rewrite not_elem_of_cons. split.
      * intros [Hcs Hx]. split; [congruence | done].
      * intros [Hx Hcs]. split; [done | congruence].
    + rewrite listeners_unsubscribe_ne by done.
      apply filter_equiv. intros x _. rewrite not_elem_of_cons. split.
      * intros Hcs. split; [congruence | done].
      * by intros [_ Hcs].
Qed.

Lemma cleanups_frame (cs : list (BusId * ListenerId)) :
  forall w : World,
    let w' := foldl (fun w' '(b', l) => unsubscribe b' l w') w cs in
    ustate w' = ustate w /\ rstate w' = rstate w /\ tasks w' = tasks w /\
    awaiting w' = awaiting w /\ log w' = log w.
Proof.
  induction cs as [| [b' l'] cs IH]; intros w; cbn [foldl]; [done |].
  apply (IH (unsubscribe b' l' w)).
Qed.

(** X20. [destroy] deletes from every bus the listeners the system
    subscribed there, and only those: the others stay subscribed, in their
    order.  It leaves alone the state of the deciders, the read models and
    the continuations of the [dispatch] calls in flight. *)
Theorem destroy_unsubscribes_the_listeners_of_the_system (s : System) (w : World) :
  (forall b, live (listeners (destroy s w) b)
             = base.filter (fun l => (b, l) ∉ cleanups s) (live (listeners w b))) /\
  ustate (destroy s w) = ustate w /\
  rstate (destroy s w) = rstate w /\
  tasks (destroy s w) = tasks w /\
  awaiting (destroy s w) = awaiting w.
Proof.
  split; [intros b; apply cleanups_live |].
  destruct (cleanups_frame (cleanups s) w) as (Hu & Hr & Ht & Ha & _). by repeat split.
Qed.

Local Abbreviation Wired :=
  (@Wired TCommand TState TContext TEvent TReadState Err ZodFormatted ZodIssue).

(** A subscription the cleanups know of does not show behind them. *)
Lemma subscribe_hidden (cs : list (BusId * ListenerId)) (b b' : BusId) (l' : ListenerId)
    (w : World) :
  (b', l') ∈ cs ->
  base.filter (fun l => (b, l) ∉ cs) (live (listeners (subscribe b' l' w) b))
  = base.filter (fun l => (b, l) ∉ cs) (live (listeners w b)).
Proof.
  intros Hin. destruct (base.decide (b = b')) as [-> | Hb].
  - rewrite listeners_subscribe. unfold set_add. case_decide; [done |].
    rewrite live_app, filter_app. cbn.
    rewrite decide_False by (intros H'; by apply H'). by rewrite app_nil_r.
  - unfold listeners, subscribe. heap_simpl. by rewrite lookup_insert_ne.
Qed.

Lemma keep_cleanups (b' : BusId) (l' : ListenerId) (s s' : System) (w w' : World) :
  keep b' l' s w = Done s' w' ->
  cleanups s' = cleanups s ++ [(b', l')] /\ deciders s' = deciders s /\
  w' = subscribe b' l' w.
Proof. unfold keep. intros [= <- <-]. done. Qed.

(** What one call of the system subscribes, it keeps a cleanup for; it
    forgets no cleanup and no name. *)
Lemma wire_keeps (op : Wiring) (s s' : System) (w w' : World) :
  wire P op s w = Done s' w' ->
  exists b' l',
    cleanups s' = cleanups s ++ [(b', l')] /\ w' = subscribe b' l' w /\
    forall n u, deciders s !! n = Some u -> exists u', deciders s' !! n = Some u'.
Proof.
  destruct op as [u forwarder | l source | l | l source]; cbn [wire].
  - unfold addDecider.
    destruct (deciders s !! name (dconfig P u)) as [u0 |] eqn:Hname; [done |].
    intros H. apply keep_cleanups in H as (Hc & Hd & ->). cbn in Hc, Hd.
    eexists _, _. split; [exact Hc |]. split; [done |].
    intros n u1 Hn. rewrite Hd.
    destruct (base.decide (n = name (dconfig P u))) as [-> | Hne].
    + rewrite lookup_insert_eq. by eexists.
    + rewrite lookup_insert_ne by done. by eexists.
  - intros H. apply keep_cleanups in H as (Hc & Hd & ->).
    eexists _, _. split; [exact Hc |]. split; [done |]. rewrite Hd. by eexists.
  - intros H. apply keep_cleanups in H as (Hc & Hd & ->).
    eexists _, _. split; [exact Hc |]. split; [done |]. rewrite Hd. by eexists.
  - intros H. apply keep_cleanups in H as (Hc & Hd & ->).
    eexists _, _. split; [exact Hc |]. split; [done |]. rewrite Hd. by eexists.
Qed.

Lemma wire_all_keeps (ops : list Wiring) :
  forall (s0 s : System) (w0 w : World),
    wire_all P ops s0 w0 = Done s w ->
    (exists more, cleanups s = cleanups s0 ++ more) /\
    (forall b, base.filter (fun l => (b, l) ∉ cleanups s) (live (listeners w b))
               = base.filter (fun l => (b, l) ∉ cleanups s) (live (listeners w0 b))) /\
    forall n u, deciders s0 !! n = Some u -> exists u', deciders s !! n = Some u'.
Proof.
  induction ops as [| op ops IH]; intros s0 s w0 w Hwire; cbn [wire_all] in Hwire.
  - injection Hwire as <- <-. split; [exists []; by rewrite app_nil_r |].
    split; [done |]. intros n u Hn. by exists u.
  - destruct (wire P op s0 w0) as [s1 w1 | message] eqn:Hop; [| done].
    destruct (wire_keeps op s0 s1 w0 w1 Hop) as (b' & l' & Hc1 & -> & Hn1).
    destruct (IH s1 s _ w Hwire) as ((more & Hc) & Hlive & Hn).
    split; [exists ((b', l') :: more); by rewrite Hc, Hc1, <- app_assoc |].
    split.
    + intros b. rewrite Hlive. apply subscribe_hidden.
      rewrite Hc, Hc1. apply elem_of_app. left. apply elem_of_app. right. by left.
    + intros n u Hu. destruct (Hn1 n u Hu) as (u1 & Hu1). by apply (Hn n u1).
Qed.

(** X21. A system that is set up and then destroyed leaves every bus with
    the listeners it had before, in their order: [destroy] undoes the
    subscriptions of the constructor and of every [addDecider],
    [addProjector], [addGlobalProjector] and [addProcessManager] call.  The
    listeners the system subscribes are closures it has just made: none of
    them was subscribed before. *)
Theorem destroy_undoes_the_wiring (trace_bus all_events : BusId) (collector : ListenerId)
    (console : option ListenerId) (ops : list Wiring) (w0 w : World) (s : System) :
  wire_all P ops (new_system trace_bus all_events collector console w0).1
    (new_system trace_bus all_events collector console w0).2 = Done s w ->
  (forall b l, (b, l) ∈ cleanups s -> Some l ∉ listeners w0 b) ->
  forall b, live (listeners (destroy s w) b) = live (listeners w0 b).
Proof.
  intros Hwire Hfresh b. unfold destroy. rewrite cleanups_live.
  destruct (wire_all_keeps ops _ s _ w Hwire) as ((more & Hc) & Hlive & _).
  rewrite Hlive.
  assert (Hstart : base.filter (fun l => (b, l) ∉ cleanups s)
                     (live (listeners (new_system trace_bus all_events collector
                                         console w0).2 b))
                   = base.filter (fun l => (b, l) ∉ cleanups s) (live (listeners w0 b))).
  { unfold new_system in *. destruct console as [l |]; cbn [fst snd cleanups] in *.
    - rewrite !subscribe_hidden; [done | |]; rewrite Hc; apply elem_of_app; left.
      + by left.
      + right. by left.
    - rewrite subscribe_hidden; [done |]. rewrite Hc. apply elem_of_app. left. by left. }
  rewrite Hstart. apply filter_all. intros l Hl Hin.
  apply (Hfresh b l Hin). by apply elem_of_live.
Qed.

(** X22. The name of a decider is never released: once a decider is
    registered under a name, [addDecider] throws for every configuration of
    that name, whatever was added to the system since and whatever became of
    the heap, also after [destroy], which does not touch the names. *)
Theorem decider_names_are_never_released (ops : list Wiring) (s0 s : System)
    (w0 w w' : World) (u u0 : UnitId) (forwarder : ListenerId) :
  deciders s0 !! name (dconfig P u) = Some u0 ->
  wire_all P ops s0 w0 = Done s w ->
  addDecider P u forwarder s w'
  = Fails ("Decider with name '" ++ name (dconfig P u) ++ "' already exists")%string.
Proof.
  intros Hname Hwire.
  destruct (wire_all_keeps ops s0 s w0 w Hwire) as (_ & _ & Hn).
  destruct (Hn _ _ Hname) as (u' & Hu').
  unfold addDecider. by rewrite Hu'.
Qed.

End Theory.

(** * The counter, run *)

Section CounterRuns.

Import Counter.

Ltac passive_on_value :=
  eexists; split; [reflexivity | intros; reflexivity].

Ltac passive_listener := intros ?; passive_on_value.

Ltac quiet_listeners :=
  repeat first
    [ apply quiet_nil
    | apply quiet_cons_None
    | apply quiet_cons; [passive_listener |] ].

Ltac passive_observers :=
  repeat first
    [ apply calm_nil
    | apply calm_cons_None
    | apply calm_cons; [apply passive_harmless; passive_listener |] ].

Lemma watched_bus_quiet : quiet_bus program watched (EventsOf 0).
Proof.
  unfold quiet_bus. change (listeners watched (EventsOf 0)) with [Some 0; Some 1].
  quiet_listeners.
Defined.

(** ** The observers of unit 0 *)

Lemma observed_trace_calm : calm_trace program observed (Some (TraceBus 0)).
Proof.
  split; [discriminate |]. unfold calm_bus.
  change (listeners observed (TraceBus 0)) with [Some 7]. passive_observers.
Defined.

Lemma observed_channel_calm : calm_bus program observed (Channel 1).
Proof.
  unfold calm_bus. change (listeners observed (Channel 1)) with [Some 1].
  passive_observers.
Defined.

(** The projector traces on a bus with a passive listener; the filter
    never throws and forwards to a channel with a passive listener. *)
Lemma observed_bus_calm : calm_bus program observed (EventsOf 0).
Proof.
  unfold calm_bus.
  change (listeners observed (EventsOf 0)) with [Some 0; Some 5; Some 10].
  apply calm_cons; [apply passive_harmless; passive_listener |].
  apply calm_cons.
  { exact (projector_harmless program observed 5 0 eq_refl observed_trace_calm). }
  apply calm_cons; [| apply calm_nil].
  eapply (filter_harmless program observed 10); [reflexivity | | discriminate |].
  - intros [[[] |] |] e; discriminate.
  - exact observed_channel_calm.
Defined.

Lemma mirrored_trace_calm : calm_trace program mirrored (Some (TraceBus 0)).
Proof.
  split; [discriminate |]. unfold calm_bus.
  change (listeners mirrored (TraceBus 0)) with [Some 7]. passive_observers.
Defined.

Lemma mirrored_target_calm : calm_bus program mirrored (EventsOf 1).
Proof.
  unfold calm_bus. change (listeners mirrored (EventsOf 1)) with [Some 8].
  passive_observers.
Defined.

(** ** The scenarios of the specification *)

(** A decrement of 5 at value 0 is rejected by [decide]; the value stays 0. *)
Example decrement_below_zero_is_rejected :
  summary (run program 30 [UserCall (CDispatch 0 (Decrement 5))] projected)
  = Some (0%Z, 0%Z, 0,
          [MEvent (Domain (DecrementRejected "cannot go below zero"))], []).
Proof. vm_compute. reflexivity. Qed.

(** Increments of 3 and of 4, one after the other: the value is 7 and the
    projector has counted two increments. *)
Example two_increments_are_counted :
  summary (run program 30
             [UserCall (CDispatch 0 (Increment 3)); UserCall (CDispatch 0 (Increment 4))]
             projected)
  = Some (7%Z, 0%Z, 2,
          [MEvent (Domain (Incremented 3)); MEvent (Domain (Incremented 4))], []).
Proof. vm_compute. reflexivity. Qed.

(** A cascade: the increment of unit 0 is mirrored into unit 1 by the
    process manager, and unit 1 has evolved when the turn is over. *)
Example increment_is_mirrored :
  summary (run program 30 [UserCall (CDispatch 0 (Increment 3))] mirrored)
  = Some (3%Z, 4%Z, 0,
          [MEvent (Domain (Incremented 3))],
          [MEvent (Domain (Incremented 3)); MEvent (Domain (Incremented 1))]).
Proof. vm_compute. reflexivity. Qed.

(** Increments pass the filter: of a transfer of 3 and of -1 on the
    observed unit, the projector counts one increment, and channel 1
    receives it. *)
Example increment_passes_the_filter :
  exists w',
    dispatch_alone program 40 0 (Transfer [3; -1]%Z) observed = Normal w' /\
    state_of program w' 0 = 2%Z /\
    read_state_of program w' 0 = 1 /\
    delivered (Channel 1) (log w') = [(1, MEvent (Domain (Incremented 3)))].
Proof.
  eexists. split; [vm_compute; reflexivity |].
  split; [vm_compute; reflexivity |]. split; vm_compute; reflexivity.
Qed.

(** [emit] does not catch: the exception of a subscriber reaches the [catch]
    block of [dispatch], which ends the batch; the second event is neither
    evolved nor emitted, and listener 1 is never called. *)
Example throwing_subscriber_ends_batch :
  summary (dispatch_alone program 30 0 (Transfer [3; 4]%Z) fragile)
  = Some (3%Z, 0%Z, 0, [MEvent (Domain (Incremented 3))], []) /\
  forall w', dispatch_alone program 30 0 (Transfer [3; 4]%Z) fragile = Normal w' ->
    delivered (EventsOf 0) (log w') = [(9, MEvent (Domain (Incremented 3)))] /\
    MTrace (TrError 0 "decide" "subscriber failed") ∈ emitted_on (TraceBus 0) (log w').
Proof.
  split; [vm_compute; reflexivity |].
  intros w' Hrun. vm_compute in Hrun. injection Hrun as <-.
  split; [vm_compute; reflexivity |]. vm_compute. set_solver.
Qed.

(** ** The theorems at the counter *)

Lemma settled_dispatch_folds_and_publishes_witness :
  (exists w0 delta0,
     eventually
       (fun fuel =>
          dispatch program (emit program fuel) 0 (Transfer [3; 4]%Z) "user" observed)
       (Normal w0) /\
     log w0 = log observed ++ delta0 /\
     ustate w0 = ustate observed /\
     rejected w0 = rejected observed /\
     write_side 0 delta0 = [] /\
     decided 0 delta0 = [] /\
     ((tasks w0
       = tasks observed
         ++ [{| k_unit := 0; k_command := Transfer [3; 4]%Z; k_settled := Return 1%Z |}] /\
       awaiting w0 = awaiting observed) \/
      (tasks w0 = tasks observed /\
       awaiting w0
       = awaiting observed
         ++ [{| k_unit := 0; k_command := Transfer [3; 4]%Z;
                k_settled := Return 1%Z |}]))) /\
  (exists w' delta,
     eventually
       (fun fuel =>
          resume program fuel
            {| k_unit := 0; k_command := Transfer [3; 4]%Z; k_settled := Return 1%Z |}
            advanced)
       (Normal w') /\
     log w' = log advanced ++ delta /\
     decided 0 delta = [(Transfer [3; 4]%Z, 2%Z)] /\
     state_of program w' 0 = 9%Z /\
     write_side 0 delta = batch program 0 2%Z [Incremented 3; Incremented 4] /\
     emitted_on (EventsOf 0) delta
     = (fun e => MEvent (Domain e)) <$> [Incremented 3; Incremented 4] /\
     frame advanced w' /\
     forall u', u' <> 0 -> ustate w' !! u' = ustate advanced !! u').
Proof.
  apply (settled_dispatch_folds_and_publishes program observed advanced 0
           (Transfer [3; 4]%Z) "user" 1%Z [Incremented 3; Incremented 4] 9%Z).
  - reflexivity.
  - right. reflexivity.
  - exact observed_trace_calm.
  - exact observed_trace_calm.
  - exact observed_bus_calm.
  - reflexivity.
  - reflexivity.
Defined.

(** The same transfer, dispatched on its own: the state it is decided on is
    the state [dispatch] found. *)
Example transfer_alone_folds_and_publishes :
  exists w' delta,
    eventually (fun fuel => dispatch_alone program fuel 0 (Transfer [3; 4]%Z) observed)
      (Normal w') /\
    log w' = log observed ++ delta /\
    state_of program w' 0 = 7%Z /\
    write_side 0 delta
    = batch program 0 (state_of program observed 0) [Incremented 3; Incremented 4] /\
    emitted_on (EventsOf 0) delta
    = (fun e => MEvent (Domain e)) <$> [Incremented 3; Incremented 4] /\
    rejected w' = rejected observed.
Proof.
  apply (dispatch_alone_folds_and_publishes program observed 0 (Transfer [3; 4]%Z) 1%Z
           [Incremented 3; Incremented 4] 7%Z).
  - reflexivity.
  - exact observed_trace_calm.
  - exact observed_bus_calm.
  - reflexivity.
  - right. reflexivity.
  - reflexivity.
  - reflexivity.
Defined.

Lemma invalid_command_is_rejected_witness :
  exists w' delta,
    eventually
      (fun fuel => dispatch program (emit program fuel) 0 (Increment 0) "user" observed)
      (Normal w') /\
    log w' = log observed ++ delta /\
    emitted_on (EventsOf 0) delta
    = [MEvent (CommandValidationFailed (command_tag program (Increment 0))
                 "amount: Number must be greater than 0" ["too_small"])] /\
    (forall t, type_of program (Increment 0) = Some t -> t <> "" ->
               command_tag program (Increment 0) = t) /\
    ustate w' = ustate observed /\
    consulted 0 delta = [] /\
    tasks w' = tasks observed /\ awaiting w' = awaiting observed.
Proof.
  apply (invalid_command_is_rejected program observed 0 (Increment 0) "user" schema
           {| format := "amount: Number must be greater than 0";
              issues := ["too_small"] |}).
  - reflexivity.
  - reflexivity.
  - exact observed_trace_calm.
  - exact observed_bus_calm.
Defined.

Lemma throwing_command_aborts_witness :
  exists w' delta,
    eventually (fun fuel => dispatch_alone program fuel 0 (Audit "") observed)
      (Normal w') /\
    log w' = log observed ++ delta /\
    (forall u', state_of program w' u' = state_of program observed u') /\
    emitted_on (EventsOf 0) delta = [] /\
    (exists timestamp,
       MTrace (TrError timestamp "decide" "empty key") ∈ emitted_on (TraceBus 0) delta) /\
    rejected w' = rejected observed /\
    forall fuel source e' w'',
      dispatch program (emit program fuel) 0 (Audit "") source observed
      <> Throws e' w''.
Proof.
  apply (throwing_command_aborts program observed 0 (Audit "") "empty key" (TraceBus 0)).
  - reflexivity.
  - reflexivity.
  - exact observed_trace_calm.
  - reflexivity.
  - left. reflexivity.
Defined.

Lemma evolve_throw_halts_batch_witness :
  exists w' delta,
    eventually
      (fun fuel => dispatch_alone program fuel 0 (Transfer [3; -5; 4]%Z) observed)
      (Normal w') /\
    log w' = log observed ++ delta /\
    state_of program w' 0 = 3%Z /\
    write_side 0 delta = batch program 0 (state_of program observed 0) [Incremented 3] /\
    emitted_on (EventsOf 0) delta = (fun e => MEvent (Domain e)) <$> [Incremented 3] /\
    exists timestamp,
      MTrace (TrError timestamp "decide" "negative value") ∈ emitted_on (TraceBus 0) delta.
Proof.
  apply (evolve_throw_halts_batch program observed 0 (Transfer [3; -5; 4]%Z) 1%Z
           [Incremented 3] [Incremented 4] (Decremented 5) 3%Z "negative value"
           (TraceBus 0)).
  - reflexivity.
  - reflexivity.
  - exact observed_trace_calm.
  - exact observed_bus_calm.
  - reflexivity.
  - right. reflexivity.
  - reflexivity.
  - reflexivity.
  - reflexivity.
Defined.

Lemma subscribe_twice_delivers_once_witness :
  let w1 := subscribe (EventsOf 0) 1 watched in
  let w2 := subscribe (EventsOf 0) 1 w1 in
  w2 = w1 /\
  (exists delta, receipts (EventsOf 0) 1 delta = [first] /\
     eventually (fun fuel => emit program fuel (EventsOf 0) first w2)
       (Normal (records delta w2))) /\
  (exists delta, receipts (EventsOf 0) 1 delta = [] /\
     eventually
       (fun fuel => emit program fuel (EventsOf 0) first (unsubscribe (EventsOf 0) 1 w2))
       (Normal (records delta (unsubscribe (EventsOf 0) 1 w2)))).
Proof.
  apply (subscribe_twice_delivers_once program watched (EventsOf 0) 1 first).
  - unfold set_wf. change (listeners watched (EventsOf 0)) with [Some 0; Some 1].
    change (NoDup [0; 1]). apply NoDup_cons. split.
    + intros H. apply list_elem_of_singleton in H. discriminate.
    + apply NoDup_singleton.
  - apply quiet_quiet_on. exact watched_bus_quiet.
  - passive_on_value.
Defined.

Lemma enrolling_channel :
  listeners enrolling (Channel 0) = [Some 0] ++ Some 2 :: [Some 1].
Proof. reflexivity. Defined.

Lemma emit_reaches_late_subscriber_witness :
  exists delta,
    delivered (Channel 0) delta
    = (fun l => (l, first)) <$> (live (listeners enrolling (Channel 0)) ++ [3]) /\
    eventually (fun fuel => emit program fuel (Channel 0) first enrolling)
      (Normal (subscribe (Channel 0) 3 (records delta enrolling))).
Proof.
  apply (emit_reaches_late_subscriber program enrolling (Channel 0) first
           [Some 0] [Some 1] 2 3 (fun _ _ => [CSubscribe (Channel 0) 3])).
  - exact enrolling_channel.
  - apply quiet_quiet_on. quiet_listeners.
  - apply quiet_quiet_on. quiet_listeners.
  - reflexivity.
  - reflexivity.
  - passive_on_value.
  - rewrite enrolling_channel. intros H.
    repeat (apply elem_of_cons in H as [H | H]; [discriminate |]).
    by apply elem_of_nil in H.
Defined.

Lemma echoing_channel :
  listeners echoing (Channel 0) = [Some 0] ++ Some 4 :: [Some 1].
Proof. reflexivity. Defined.

Lemma nested_emit_runs_inside_delivery_witness :
  eventually (fun fuel => emit program fuel (Channel 0) first echoing)
    (Normal (records
       ([OEmit (Channel 0) first] ++ deliveries (Channel 0) first (live [Some 0])
        ++ [ODeliver (Channel 0) 4 first]
        ++ emission (Channel 0) second (listeners echoing (Channel 0))
        ++ deliveries (Channel 0) first (live [Some 1])
        ++ [OEmitDone (Channel 0) first]) echoing)).
Proof.
  apply (nested_emit_runs_inside_delivery program echoing (Channel 0) first second
           [Some 0] [Some 1] 4
           (fun m _ =>
              match m with
              | MEvent (Domain (Incremented 1)) => [CEmit (Channel 0) second]
              | _ => []
              end)).
  - exact echoing_channel.
  - quiet_listeners.
  - quiet_listeners.
  - reflexivity.
  - reflexivity.
  - reflexivity.
Defined.

Lemma projected_bus :
  listeners projected (EventsOf 0) = [Some 0] ++ Some 5 :: [Some 1].
Proof. reflexivity. Defined.

Lemma failing_projection_is_isolated_witness :
  exists w' delta,
    eventually
      (fun fuel => emit program fuel (EventsOf 0)
                     (MEvent (Domain (DecrementRejected "cannot go below zero"))) projected)
      (Normal w') /\
    log w' = log projected ++ delta /\
    read_state_of program w' 0 = read_state_of program projected 0 /\
    ustate w' = ustate projected /\
    delivered (EventsOf 0) delta
    = (fun l' => (l', MEvent (Domain (DecrementRejected "cannot go below zero"))))
        <$> live (listeners projected (EventsOf 0)) /\
    exists timestamp,
      emitted_on (TraceBus 0) delta
      = [MTrace (TrError timestamp "project" "unexpected event")].
Proof.
  apply (failing_projection_is_isolated program projected (EventsOf 0)
           (MEvent (Domain (DecrementRejected "cannot go below zero")))
           [Some 0] [Some 1] 5 0 "unexpected event" (TraceBus 0)).
  - exact projected_bus.
  - quiet_listeners.
  - quiet_listeners.
  - reflexivity.
  - reflexivity.
  - reflexivity.
  - unfold quiet_bus. change (listeners projected (TraceBus 0)) with [Some 7].
    quiet_listeners.
Defined.

Lemma mirrored_bus :
  listeners mirrored (EventsOf 0) = [Some 0] ++ Some 6 :: [Some 1].
Proof. reflexivity. Defined.

Lemma reaction_dispatches_commands_witness :
  exists w' delta,
    eventually
      (fun fuel => emit program fuel (EventsOf 0) (MEvent (Domain (Incremented 5))) mirrored)
      (Normal w') /\
    log w' = log mirrored ++ delta /\
    dispatched 1 delta = [Increment 5; Increment 1] /\
    forall u, u <> 1 -> dispatched u delta = [].
Proof.
  apply (proj2 (reaction_dispatches_commands program mirrored 0 1
                  (MEvent (Domain (Incremented 5))) [Some 0] [Some 1] 6 mirror
                  (Some (TraceBus 0))
                  mirrored_bus
                  ltac:(passive_observers) ltac:(passive_observers) eq_refl
                  mirrored_trace_calm mirrored_trace_calm mirrored_target_calm)).
  - reflexivity.
  - reflexivity.
Defined.

Lemma dispatches_run_in_settlement_order_witness :
  exists w' delta,
    eventually
      (fun fuel =>
         run program fuel
           [UserCall (CDispatch 0 (Transfer [3]%Z)); UserCall (CDispatch 0 (Transfer [4]%Z));
            Settle 1; Settle 0] observed) (Normal w') /\
    log w' = log observed ++ delta /\
    dispatched 0 delta = [Transfer [3]%Z; Transfer [4]%Z] /\
    decided 0 delta
    = [(Transfer [4]%Z, state_of program observed 0); (Transfer [3]%Z, 4%Z)] /\
    write_side 0 delta
    = batch program 0 (state_of program observed 0) [Incremented 4]
      ++ batch program 0 4%Z [Incremented 3] /\
    state_of program w' 0 = 7%Z.
Proof.
  apply (dispatches_run_in_settlement_order program observed 0
           (Transfer [3]%Z) (Transfer [4]%Z) 1%Z 1%Z [Incremented 3] [Incremented 4]
           7%Z 4%Z).
  - reflexivity.
  - reflexivity.
  - exact observed_trace_calm.
  - exact observed_bus_calm.
  - reflexivity.
  - reflexivity.
  - reflexivity.
  - reflexivity.
  - reflexivity.
  - reflexivity.
  - reflexivity.
  - reflexivity.
Defined.

(** ** Where the code departs from the specification *)

(** C1, as stated, fails.  Two deposits are dispatched while the unit has
    the state 0, and both wait for their context; nothing throws.  The first
    is decided on 0 and leaves 3.  The second is decided on 3, not on the
    state 0 that its [dispatch] call found, and the unit ends with 7;
    folding its event from the state before its dispatch gives 4. *)
Lemma pending_dispatch_folds_from_a_later_state :
  exists w0 w',
    run program 20
      [UserCall (CDispatch 0 (Transfer [3]%Z)); UserCall (CDispatch 0 (Transfer [4]%Z))]
      watched = Normal w0 /\
    state_of program w0 0 = 0%Z /\
    decided 0 (log w0) = [] /\
    run program 20 [Settle 0; Settle 0] w0 = Normal w' /\
    decided 0 (log w') = [(Transfer [3]%Z, 0%Z); (Transfer [4]%Z, 3%Z)] /\
    write_side 0 (log w')
    = [OEvolve 0 (Incremented 3) 0%Z 3%Z;
       OEmit (EventsOf 0) (MEvent (Domain (Incremented 3)));
       OEvolve 0 (Incremented 4) 3%Z 7%Z;
       OEmit (EventsOf 0) (MEvent (Domain (Incremented 4)))] /\
    state_of program w' 0 = 7%Z /\
    fold_evolve program 0 0%Z [Incremented 4] = Return 4%Z.
Proof.
  eexists. eexists. split; [vm_compute; reflexivity |].
  split; [vm_compute; reflexivity |]. split; [vm_compute; reflexivity |].
  split; [vm_compute; reflexivity |]. split; [vm_compute; reflexivity |].
  split; [vm_compute; reflexivity |]. split; vm_compute; reflexivity.
Qed.

(** C2, as stated, fails.  A deposit of 3 is dispatched, then a withdrawal
    of 2; both wait for their context, and the context of the withdrawal
    settles first.  The withdrawal is decided on the state 0, before the
    deposit has been decided, evolved or published; its [evolve] throws and
    the unit ends with 3, not 1. *)
Lemma second_dispatch_overtakes_first :
  exists w',
    run program 20
      [UserCall (CDispatch 0 (Transfer [3]%Z)); UserCall (CDispatch 0 (Transfer [-2]%Z));
       Settle 1; Settle 0] watched = Normal w' /\
    dispatched 0 (log w') = [Transfer [3]%Z; Transfer [-2]%Z] /\
    decided 0 (log w') = [(Transfer [-2]%Z, 0%Z); (Transfer [3]%Z, 0%Z)] /\
    write_side 0 (log w')
    = [OEvolve 0 (Incremented 3) 0%Z 3%Z;
       OEmit (EventsOf 0) (MEvent (Domain (Incremented 3)))] /\
    state_of program w' 0 = 3%Z.
Proof.
  eexists. split; [vm_compute; reflexivity |].
  split; [vm_compute; reflexivity |]. split; [vm_compute; reflexivity |].
  split; vm_compute; reflexivity.
Qed.

(** C6, as stated, fails.  Listener 3 is not subscribed to channel 0 when
    the emission starts; listener 2 subscribes it during the emission, and
    listener 3 is called with the value of that emission. *)
Lemma late_subscriber_receives_value :
  listeners enrolling (Channel 0) = [Some 0; Some 2; Some 1] /\
  exists w',
    emit program 10 (Channel 0) first enrolling = Normal w' /\
    delivered (Channel 0) (log w') = [(0, first); (2, first); (1, first); (3, first)] /\
    receipts (Channel 0) 3 (log w') = [first].
Proof.
  split; [reflexivity |]. eexists. split; [vm_compute; reflexivity |].
  split; vm_compute; reflexivity.
Qed.

(** C7, as stated, fails.  Listener 4 answers [first] with an emission of
    [second] on the same channel.  The inner emission is not queued: it
    runs inside the call of listener 4, and listener 1 is called with
    [second] before it is called with [first]. *)
Lemma nested_emit_is_not_queued :
  log_of (emit program 10 (Channel 0) first echoing)
  = Some [OEmit (Channel 0) first;
          ODeliver (Channel 0) 0 first;
          ODeliver (Channel 0) 4 first;
          OEmit (Channel 0) second;
          ODeliver (Channel 0) 0 second;
          ODeliver (Channel 0) 4 second;
          ODeliver (Channel 0) 1 second;
          OEmitDone (Channel 0) second;
          ODeliver (Channel 0) 1 first;
          OEmitDone (Channel 0) first].
Proof. vm_compute. reflexivity. Qed.

(** ** Beyond the specification, at the counter *)

Lemma fragile_bus :
  listeners fragile (EventsOf 0) = [] ++ Some 9 :: [Some 1].
Proof. reflexivity. Defined.

Lemma fragile_trace_calm : calm_trace program fragile (Some (TraceBus 0)).
Proof.
  split; [discriminate |]. unfold calm_bus.
  change (listeners fragile (TraceBus 0)) with [Some 7]. passive_observers.
Defined.

Lemma emit_stops_at_throwing_listener_witness :
  exists delta,
    eventually (fun fuel => emit program fuel (EventsOf 0) first fragile)
      (Throws "subscriber failed" (records delta fragile)) /\
    delivered (EventsOf 0) delta = (fun l => (l, first)) <$> (live [] ++ [9]).
Proof.
  apply (emit_stops_at_throwing_listener program fragile (EventsOf 0) first
           [] [Some 1] 9 (fun _ _ => [CThrow "subscriber failed"]) "subscriber failed").
  - exact fragile_bus.
  - intros l Hl. by apply elem_of_nil in Hl.
  - reflexivity.
  - reflexivity.
Defined.

Lemma read_model_folds_the_emitted_values_witness :
  exists w',
    eventually
      (fun fuel => run_script program (emit program fuel)
                     (CEmit (EventsOf 0) <$>
                        [first; MEvent (Domain (DecrementRejected "cannot go below zero"));
                         second])
                     projected) (Normal w') /\
    read_state_of program w' 0
    = fold_project program 0 (read_state_of program projected 0)
        [first; MEvent (Domain (DecrementRejected "cannot go below zero")); second] /\
    (forall p', p' <> 0 -> read_state_of program w' p' = read_state_of program projected p') /\
    ustate w' = ustate projected /\
    buses w' = buses projected.
Proof.
  apply (read_model_folds_the_emitted_values program (EventsOf 0)
           [first; MEvent (Domain (DecrementRejected "cannot go below zero")); second]
           [Some 0] [Some 1] 5 0 projected).
  - exact projected_bus.
  - quiet_listeners.
  - quiet_listeners.
  - reflexivity.
  - unfold quiet_trace, quiet_bus. cbn [ptrace program].
    change (listeners projected (TraceBus 0)) with [Some 7]. quiet_listeners.
Defined.

Lemma throwing_subscriber_halts_batch_witness :
  exists w' delta,
    eventually (fun fuel => dispatch_alone program fuel 0 (Transfer [3; 4]%Z) fragile)
      (Normal w') /\
    log w' = log fragile ++ delta /\
    state_of program w' 0 = 3%Z /\
    write_side 0 delta
    = [OEvolve 0 (Incremented 3) (state_of program fragile 0) 3%Z;
       OEmit (EventsOf 0) (MEvent (Domain (Incremented 3)))] /\
    (exists timestamp,
       MTrace (TrError timestamp "decide" "subscriber failed")
       ∈ emitted_on (TraceBus 0) delta) /\
    rejected w' = rejected fragile.
Proof.
  apply (throwing_subscriber_halts_batch program fragile 0 (Transfer [3; 4]%Z) 1%Z
           (Incremented 3) [Incremented 4] 3%Z [] [Some 1] 9
           (fun _ _ => [CThrow "subscriber failed"]) "subscriber failed" (TraceBus 0)).
  - reflexivity.
  - reflexivity.
  - exact fragile_trace_calm.
  - reflexivity.
  - right. reflexivity.
  - reflexivity.
  - reflexivity.
  - exact fragile_bus.
  - apply calm_nil.
  - reflexivity.
  - reflexivity.
Defined.

Lemma dispatch_returns_before_deciding_witness :
  exists w' delta,
    eventually
      (fun fuel => dispatch program (emit program fuel) 0 (Increment 3) "user" observed)
      (Normal w') /\
    log w' = log observed ++ delta /\
    ustate w' = ustate observed /\
    decided 0 delta = [] /\
    write_side 0 delta = [] /\
    tasks w' = tasks observed
               ++ [{| k_unit := 0; k_command := Increment 3; k_settled := Return 0%Z |}] /\
    rejected w' = rejected observed.
Proof.
  apply (dispatch_returns_before_deciding program observed 0 (Increment 3) "user" 0%Z).
  - exact observed_trace_calm.
  - reflexivity.
  - reflexivity.
Defined.

Lemma watched_trace_quiet : quiet_bus program watched (TraceBus 0).
Proof.
  unfold quiet_bus. change (listeners watched (TraceBus 0)) with [Some 7].
  quiet_listeners.
Defined.

Lemma dispatch_is_traced_step_by_step_witness :
  exists w' delta,
    eventually (fun fuel => dispatch_alone program fuel 0 (Transfer [3; -5; 4]%Z) watched)
      (Normal w') /\
    log w' = log watched ++ delta /\
    emitted_on (TraceBus 0) delta
    = MTrace <$> (TrCommand (clock watched) (Transfer [3; -5; 4]%Z) "user"
                  :: TrContext (clock watched) (Transfer [3; -5; 4]%Z) 1%Z
                  :: batch_trace program 0 (Transfer [3; -5; 4]%Z) (clock watched)
                       (state_of program watched 0)
                       [Incremented 3; Decremented 5; Incremented 4]
                  ++ match fold_evolve program 0 (state_of program watched 0)
                             [Incremented 3; Decremented 5; Incremented 4] with
                     | Return _ => []
                     | Throw e => [TrError (clock watched) "decide" e]
                     end).
Proof.
  apply (dispatch_is_traced_step_by_step program watched 0 (Transfer [3; -5; 4]%Z) 1%Z
           [Incremented 3; Decremented 5; Incremented 4] (TraceBus 0)).
  - reflexivity.
  - reflexivity.
  - exact watched_trace_quiet.
  - exact watched_bus_quiet.
  - discriminate.
  - reflexivity.
  - right. reflexivity.
  - reflexivity.
Defined.

Lemma trace_log_shows_the_call_newest_first_witness :
  exists w',
    eventually (fun fuel => dispatch_alone program fuel 0 (Transfer [3; -5; 4]%Z) watched)
      (Normal w') /\
    traceLog (TraceBus 0) 7 (log w')
    = take 200
        (reverse (TrCommand (clock watched) (Transfer [3; -5; 4]%Z) "user"
                  :: TrContext (clock watched) (Transfer [3; -5; 4]%Z) 1%Z
                  :: batch_trace program 0 (Transfer [3; -5; 4]%Z) (clock watched)
                       (state_of program watched 0)
                       [Incremented 3; Decremented 5; Incremented 4]
                  ++ match fold_evolve program 0 (state_of program watched 0)
                             [Incremented 3; Decremented 5; Incremented 4] with
                     | Return _ => []
                     | Throw e => [TrError (clock watched) "decide" e]
                     end)
         ++ traceLog (TraceBus 0) 7 (log watched)).
Proof.
  apply (trace_log_shows_the_call_newest_first program watched 0 (Transfer [3; -5; 4]%Z)
           1%Z [Incremented 3; Decremented 5; Incremented 4] (TraceBus 0) 7).
  - reflexivity.
  - reflexivity.
  - exact watched_trace_quiet.
  - unfold set_wf. change (listeners watched (TraceBus 0)) with [Some 7].
    change (NoDup [7]). apply NoDup_singleton.
  - change (listeners watched (TraceBus 0)) with [Some 7]. by left.
  - exact watched_bus_quiet.
  - discriminate.
  - reflexivity.
  - right. reflexivity.
  - reflexivity.
Defined.

(** The trace log of the witness above, run: the error is the newest
    entry, the command the oldest. *)
Example trace_log_of_a_failed_transfer :
  exists w',
    dispatch_alone program 40 0 (Transfer [3; -5; 4]%Z) watched = Normal w' /\
    traceLog (TraceBus 0) 7 (log w')
    = [TrError 0 "decide" "negative value";
       TrEvent 0 (Domain (Decremented 5)) (Transfer [3; -5; 4]%Z);
       TrEvolve 0 (Incremented 3) 0%Z 3%Z;
       TrEvent 0 (Domain (Incremented 3)) (Transfer [3; -5; 4]%Z);
       TrContext 0 (Transfer [3; -5; 4]%Z) 1%Z;
       TrCommand 0 (Transfer [3; -5; 4]%Z) "user"].
Proof. eexists. split; vm_compute; reflexivity. Qed.

Lemma reaction_is_decided_after_the_emission_witness :
  exists w' delta,
    eventually
      (fun fuel => turn program fuel
                     (UserCall (CEmit (EventsOf 0) (MEvent (Domain (Incremented 5)))))
                     mirrored) (Normal w') /\
    log w' = log mirrored ++ delta /\
    decider_log delta
    = OEmit (EventsOf 0) (MEvent (Domain (Incremented 5)))
      :: flat_map (fun c => dispatch_steps program 1 c "user") [Increment 5; Increment 1]
      ++ queue_steps program mirrored
           (flat_map (queued program 1) [Increment 5; Increment 1]) /\
    (forall u, state_of program w' u
               = queue_state program mirrored u
                   (flat_map (queued program 1) [Increment 5; Increment 1])) /\
    tasks w' = [] /\
    awaiting w' = awaiting mirrored
                  ++ flat_map (parked program 1) [Increment 5; Increment 1].
Proof.
  apply (reaction_is_decided_after_the_emission program mirrored 0 1
           (MEvent (Domain (Incremented 5))) [Some 0] [Some 1] 6 mirror
           (Some (TraceBus 0)) [Increment 5; Increment 1]).
  - reflexivity.
  - exact mirrored_bus.
  - passive_observers.
  - passive_observers.
  - reflexivity.
  - exact mirrored_trace_calm.
  - exact mirrored_trace_calm.
  - exact mirrored_target_calm.
  - reflexivity.
  - reflexivity.
Defined.

(** The cascade of the witness above, run: unit 1 ends with 6. *)
Example mirrored_reactions_run_in_order :
  queue_state program mirrored 1 (flat_map (queued program 1) [Increment 5; Increment 1])
  = 6%Z.
Proof. vm_compute. reflexivity. Qed.

End CounterRuns.

(** * The shop, run *)

Section ShopRuns.

Import Shop.

Ltac passive_on_value :=
  eexists; split; [reflexivity | intros; reflexivity].

Ltac passive_listener := intros ?; passive_on_value.

Ltac quiet_listeners :=
  repeat first
    [ apply quiet_nil
    | apply quiet_cons_None
    | apply quiet_cons; [passive_listener |] ].

Ltac passive_observers :=
  repeat first
    [ apply calm_nil
    | apply calm_cons_None
    | apply calm_cons; [apply passive_harmless; passive_listener |] ].

Lemma pruning_channel :
  listeners pruning (Channel 0) = [Some 0] ++ Some 2 :: [Some 1; Some 7].
Proof. reflexivity. Defined.

Lemma emit_skips_unsubscribed_listener_witness :
  exists w' delta,
    eventually (fun fuel => emit program fuel (Channel 0) paid pruning) (Normal w') /\
    log w' = log pruning ++ delta /\
    listeners w' (Channel 0) = set_delete 1 (listeners pruning (Channel 0)) /\
    delivered (Channel 0) delta
    = (fun l => (l, paid))
        <$> (live [Some 0] ++ [2] ++ base.filter (fun x => x <> 1) (live [Some 1; Some 7])).
Proof.
  apply (emit_skips_unsubscribed_listener program pruning (Channel 0) paid
           [Some 0] [Some 1; Some 7] 2 1 (fun _ _ => [CUnsubscribe (Channel 0) 1])).
  - exact pruning_channel.
  - apply quiet_quiet_on. quiet_listeners.
  - apply quiet_quiet_on. quiet_listeners.
  - reflexivity.
  - reflexivity.
Defined.

Lemma filtering_channel :
  listeners filtering (Channel 0) = [Some 0] ++ Some 3 :: [Some 1].
Proof. reflexivity. Defined.

Lemma filter_forwards_matching_values_witness :
  exists delta,
    eventually (fun fuel => emit program fuel (Channel 0) paid filtering)
      (Normal (records delta filtering)) /\
    emitted_on (Channel 1) delta = [paid] /\
    delivered (Channel 1) delta
    = (fun l' => (l', paid)) <$> live (listeners filtering (Channel 1)) /\
    delivered (Channel 0) delta
    = (fun l' => (l', paid)) <$> live (listeners filtering (Channel 0)).
Proof.
  apply (proj1 (filter_forwards_matching_values program filtering (Channel 0) paid
                  [Some 0] [Some 1] 3 (fun e => Return (checked_out e)) (Channel 1)
                  filtering_channel
                  ltac:(apply quiet_quiet_on; quiet_listeners)
                  ltac:(apply quiet_quiet_on; quiet_listeners)
                  eq_refl ltac:(discriminate)
                  ltac:(apply quiet_quiet_on;
                        change (listeners filtering (Channel 1)) with [Some 7; Some 8];
                        quiet_listeners)) true).
  reflexivity.
Defined.

Lemma funnel_source :
  listeners funnel (Channel 0) = [Some 0] ++ Some 3 :: [Some 1].
Proof. reflexivity. Defined.

Lemma funnel_checkouts :
  listeners funnel (Channel 1) = [Some 7] ++ Some 15 :: [].
Proof. reflexivity. Defined.

Lemma filters_compose_witness :
  exists delta,
    eventually (fun fuel => emit program fuel (Channel 0) splurge funnel)
      (Normal (records delta funnel)) /\
    emitted_on (Channel 2) delta = (if true && true then [splurge] else []) /\
    delivered (Channel 2) delta
    = (if true && true
       then (fun l' => (l', splurge)) <$> live (listeners funnel (Channel 2)) else []).
Proof.
  apply (filters_compose program funnel (Channel 0) splurge
           [Some 0] [Some 1] 3 (fun e => Return (checked_out e)) (Channel 1)
           [Some 7] [] 15 (fun e => Return (large e)) (Channel 2) true true).
  - exact funnel_source.
  - apply quiet_quiet_on. quiet_listeners.
  - apply quiet_quiet_on. quiet_listeners.
  - reflexivity.
  - exact funnel_checkouts.
  - apply quiet_quiet_on. quiet_listeners.
  - apply quiet_quiet_on. quiet_listeners.
  - reflexivity.
  - apply quiet_quiet_on. change (listeners funnel (Channel 2)) with [Some 8].
    quiet_listeners.
  - discriminate.
  - discriminate.
  - discriminate.
  - reflexivity.
  - reflexivity.
Defined.

(** A checkout of 30 passes the first filter and not the second. *)
Example small_checkout_stops_at_the_second_filter :
  exists w',
    emit program 20 (Channel 0) paid funnel = Normal w' /\
    delivered (Channel 1) (log w') = [(7, paid); (15, paid)] /\
    delivered (Channel 2) (log w') = [].
Proof.
  eexists. split; [vm_compute; reflexivity |]. split; vm_compute; reflexivity.
Qed.

Lemma rewarding_bus :
  listeners rewarding (EventsOf 0) = [Some 0] ++ Some 5 :: [Some 1].
Proof. reflexivity. Defined.

Lemma failing_reaction_is_isolated_witness :
  exists delta,
    eventually (fun fuel => emit program fuel (EventsOf 0) paid rewarding)
      (Normal (records delta rewarding)) /\
    (forall u, dispatched u delta = []) /\
    delivered (EventsOf 0) delta
    = (fun l' => (l', paid)) <$> live (listeners rewarding (EventsOf 0)) /\
    emitted_on (TraceBus 0) delta
    = [MTrace (TrError (clock rewarding) "process-manager" "no customer")].
Proof.
  apply (failing_reaction_is_isolated program rewarding (EventsOf 0) paid
           [Some 0] [Some 1] 5 loyalty 1 (TraceBus 0) "no customer").
  - exact rewarding_bus.
  - apply quiet_quiet_on. quiet_listeners.
  - apply quiet_quiet_on. quiet_listeners.
  - reflexivity.
  - unfold quiet_bus. change (listeners rewarding (TraceBus 0)) with [Some 7].
    quiet_listeners.
  - reflexivity.
  - reflexivity.
Defined.

Lemma screened_bus :
  listeners screened (EventsOf 0) = [Some 0] ++ Some 6 :: [Some 1].
Proof. reflexivity. Defined.

Lemma failing_filter_ends_the_emission_witness :
  exists delta,
    eventually (fun fuel => emit program fuel (EventsOf 0) paid screened)
      (Throws "screening is down" (records delta screened)) /\
    delivered (EventsOf 0) delta = (fun l' => (l', paid)) <$> (live [Some 0] ++ [6]) /\
    (forall u, dispatched u delta = []) /\
    (forall b', b' <> EventsOf 0 -> emitted_on b' delta = []).
Proof.
  apply (failing_filter_ends_the_emission program screened (EventsOf 0) paid
           [Some 0] [Some 1] 6 screening 1 (Some (TraceBus 0)) "screening is down").
  - exact screened_bus.
  - apply quiet_quiet_on. quiet_listeners.
  - reflexivity.
  - reflexivity.
Defined.

Lemma debugging_trace :
  listeners debugging (TraceBus 0) = [Some 7] ++ Some 9 :: [Some 8].
Proof. reflexivity. Defined.

Lemma throwing_trace_listener_rejects_dispatch_witness :
  eventually
    (fun fuel => dispatch program (emit program fuel) 0 (AddItem 5) "user" debugging)
    (Normal (set_rejected (rejected debugging ++ ["panel failed"])
       (records
          (ODispatch 0 (AddItem 5) "user"
           :: OEmit (TraceBus 0) (MTrace (TrCommand (clock debugging) (AddItem 5) "user"))
           :: deliveries (TraceBus 0)
                (MTrace (TrCommand (clock debugging) (AddItem 5) "user")) (live [Some 7])
           ++ [ODeliver (TraceBus 0) 9
                 (MTrace (TrCommand (clock debugging) (AddItem 5) "user"))])
          debugging))).
Proof.
  apply (throwing_trace_listener_rejects_dispatch program debugging 0 (AddItem 5) "user"
           (TraceBus 0) [Some 7] [Some 8] 9 (fun _ _ => [CThrow "panel failed"])
           "panel failed").
  - reflexivity.
  - exact debugging_trace.
  - apply quiet_quiet_on. quiet_listeners.
  - reflexivity.
  - reflexivity.
Defined.

Lemma browsing_trace_calm : calm_trace program browsing (Some (TraceBus 0)).
Proof.
  split; [discriminate |]. unfold calm_bus.
  change (listeners browsing (TraceBus 0)) with [Some 7]. passive_observers.
Defined.

Lemma browsing_bus_calm : calm_bus program browsing (EventsOf 0).
Proof.
  unfold calm_bus. change (listeners browsing (EventsOf 0)) with [Some 0; Some 1].
  passive_observers.
Defined.

Lemma untyped_command_is_reported_as_unknown_witness :
  exists w' delta,
    eventually
      (fun fuel => dispatch program (emit program fuel) 0 Untyped "user" browsing)
      (Normal w') /\
    log w' = log browsing ++ delta /\
    emitted_on (EventsOf 0) delta
    = [MEvent (CommandValidationFailed "unknown" "type: Invalid discriminator value"
                 ["invalid_union_discriminator"])].
Proof.
  apply (untyped_command_is_reported_as_unknown program browsing 0 Untyped "user" schema
           {| format := "type: Invalid discriminator value";
              issues := ["invalid_union_discriminator"] |}).
  - reflexivity.
  - reflexivity.
  - left. reflexivity.
  - exact browsing_trace_calm.
  - exact browsing_bus_calm.
Defined.

Lemma selling_bus :
  listeners selling (EventsOf 0) = [Some 0] ++ Some 4 :: [Some 1].
Proof. reflexivity. Defined.

Lemma selling_trace_calm : calm_trace program selling (Some (TraceBus 0)).
Proof.
  split; [discriminate |]. unfold calm_bus.
  change (listeners selling (TraceBus 0)) with [Some 7]. passive_observers.
Defined.

Lemma selling_orders_calm : calm_bus program selling (EventsOf 1).
Proof.
  unfold calm_bus. change (listeners selling (EventsOf 1)) with [Some 8].
  passive_observers.
Defined.

Lemma command_cascades_to_the_target_witness :
  exists w' delta,
    eventually (fun fuel => turn program fuel (UserCall (CDispatch 0 Checkout)) selling)
      (Normal w') /\
    log w' = log selling ++ delta /\
    decider_log delta
    = dispatch_steps program 0 Checkout "user"
      ++ ODecide 0 Checkout (state_of program selling 0) 0%Z
      :: reacting_batch program 0 checkout 1 (state_of program selling 0)
           [CartCheckedOut 30]
      ++ queue_steps program (write_state 0 0%Z selling)
           (flat_map (queued program 1) (reactions checkout [CartCheckedOut 30])) /\
    (forall u, state_of program w' u
               = queue_state program (write_state 0 0%Z selling) u
                   (flat_map (queued program 1) (reactions checkout [CartCheckedOut 30]))) /\
    tasks w' = [] /\
    awaiting w' = awaiting selling
                  ++ flat_map (parked program 1) (reactions checkout [CartCheckedOut 30]).
Proof.
  apply (command_cascades_to_the_target program selling 0 1 Checkout 0%Z
           [CartCheckedOut 30] 0%Z [Some 0] [Some 1] 4 checkout (Some (TraceBus 0))).
  - reflexivity.
  - exact selling_bus.
  - passive_observers.
  - passive_observers.
  - reflexivity.
  - exact selling_trace_calm.
  - exact selling_trace_calm.
  - exact selling_trace_calm.
  - exact selling_orders_calm.
  - reflexivity.
  - reflexivity.
  - reflexivity.
  - reflexivity.
  - intros e err _. discriminate.
Defined.

(** The cascade of the witness above, run: the cart is empty and the
    revenue is 30. *)
Example checkout_becomes_an_order :
  queue_state program (write_state 0 0%Z selling) 0
    (flat_map (queued program 1) (reactions checkout [CartCheckedOut 30])) = 0%Z /\
  queue_state program (write_state 0 0%Z selling) 1
    (flat_map (queued program 1) (reactions checkout [CartCheckedOut 30])) = 30%Z.
Proof. split; vm_compute; reflexivity. Qed.

(** The system of the shop, set up on [bare] and destroyed. *)
Lemma destroy_undoes_the_wiring_witness :
  exists s w,
    wire_all program setup (new_system (TraceBus 0) (Channel 9) 7 (Some 8) bare).1
      (new_system (TraceBus 0) (Channel 9) 7 (Some 8) bare).2 = Done s w /\
    live (listeners w (EventsOf 0)) = [0; 1; 10; 4] /\
    live (listeners (destroy s w) (EventsOf 0)) = live (listeners bare (EventsOf 0)).
Proof.
  eexists _, _. split; [reflexivity |]. split; [reflexivity |].
  eapply (destroy_undoes_the_wiring program (TraceBus 0) (Channel 9) 7 (Some 8) setup bare).
  - reflexivity.
  - intros b l Hin. cbn in Hin.
    repeat (apply elem_of_cons in Hin as [[= -> ->] | Hin];
            [by (intros H; repeat (apply elem_of_cons in H as [H | H]; [discriminate |]);
                 apply elem_of_nil in H) |]).
    by apply elem_of_nil in Hin.
Defined.

(** The cart is registered; a second decider of that name is refused,
    also after the projector was added and the system destroyed. *)
Lemma decider_names_are_never_released_witness :
  exists s0 w0 s w,
    wire_all program [AddDecider 0 10] (new_system (TraceBus 0) (Channel 9) 7 None bare).1
      (new_system (TraceBus 0) (Channel 9) 7 None bare).2 = Done s0 w0 /\
    wire_all program [AddProjector 12 0] s0 w0 = Done s w /\
    addDecider program 0 14 s (destroy s w)
    = Fails "Decider with name 'Cart' already exists".
Proof.
  eexists _, _, _, _. split; [reflexivity |].
  lazymatch goal with
  | |- wire_all _ _ ?s0 ?w0 = _ /\ _ =>
      split; [reflexivity |];
      eapply (decider_names_are_never_released program [AddProjector 12 0] s0 _ w0 _ _
                0 0 14)
  end.
  - reflexivity.
  - reflexivity.
Defined.

End ShopRuns.

(** * The rules of the todo list *)

Section TodoRules.

Import Todo.

Lemma get_own state i todo :
  todos state !! i = Some todo -> get state i = Own todo.
Proof. unfold get. by intros ->. Qed.

Lemma get_inherited state i :
  todos state !! i = None -> i ∈ inherited -> get state i = Inherited.
Proof. unfold get. intros -> Hin. by rewrite decide_True. Qed.

Lemma get_undefined state i :
  todos state !! i = None -> i ∉ inherited -> get state i = Undefined.
Proof. unfold get. intros -> Hin. by rewrite decide_False. Qed.

(** The three ways a lookup of [state.todos[id]] can end. *)
Lemma get_cases state i :
  (exists todo, todos state !! i = Some todo /\ get state i = Own todo) \/
  (todos state !! i = None /\ i ∈ inherited /\ get state i = Inherited) \/
  (todos state !! i = None /\ (i ∉ inherited) /\ get state i = Undefined).
Proof.
  destruct (todos state !! i) as [todo|] eqn:Hl.
  - left. exists todo. split; [done | by apply get_own].
  - destruct (base.decide (i ∈ inherited)) as [Hin|Hin].
    + right; left. by rewrite get_inherited.
    + right; right. by rewrite get_undefined.
Qed.

Lemma foldl_handle_snoc state calls call :
  foldl handle state (calls ++ [call]) = handle (foldl handle state calls) call.
Proof. by rewrite foldl_snoc. Qed.

Lemma sound_insert state i todo :
  sound state -> complete i todo -> i ∉ inherited ->
  sound {| todos := <[i := todo]> (todos state) |}.
Proof.
  intros Hs Hc Hout j todo' Hj. cbn in Hj.
  apply lookup_insert_Some in Hj as [[<- <-]|[_ Hj]]; [done | by apply Hs].
Qed.

Lemma complete_with_status i todo s :
  complete i todo -> complete i (with_status todo s).
Proof. intros (Hid & Htext & _). split; [done | split; [done | by eexists]]. Qed.

Lemma complete_with_text i todo t :
  complete i todo -> complete i (with_text todo t).
Proof. intros (Hid & _ & Hstatus). split; [done | split; [by eexists | done]]. Qed.

Lemma handle_sound state call : sound state -> sound (handle state call).
Proof.
  intros Hs. destruct call as [cmd ctx]. unfold handle. cbn [fst snd].
  destruct cmd as [j t|j|j|j|j t|]; cbn [decide]; try done;
    destruct (get_cases state j)
      as [(todo & Hl & Hget)|[(Hl & Hin & Hget)|(Hl & Hin & Hget)]];
    rewrite Hget; cbn; try done;
    try (destruct (Hs _ _ Hl) as [Hc Hout];
         destruct (status todo) as [[]|]; cbn; try done);
    rewrite ?Hget; cbn [spread];
    (apply sound_insert;
     [ done
     | first [ by apply complete_with_status
             | by apply complete_with_text
             | split; [done | split; by eexists] ]
     | done ]).
Qed.

Lemma replay_sound calls : sound (replay calls).
Proof.
  unfold replay. induction calls as [|call calls IH] using rev_ind.
  - intros i todo Hi. cbn in Hi. by rewrite lookup_empty in Hi.
  - rewrite foldl_handle_snoc. by apply handle_sound.
Qed.


Lemma handle_keys state cmd ctx i :
  is_Some (todos (handle state (cmd, ctx)) !! i) <->
  is_Some (todos state !! i) \/
  ((i ∉ inherited) /\ exists t, cmd = AddTodo i t).
Proof.
  assert (Hsame : forall j todo todo',
    todos state !! j = Some todo ->
    is_Some (<[j := todo']> (todos state) !! i) <->
    is_Some (todos state !! i)).
  { intros j todo todo' Hj. rewrite lookup_insert_is_Some.
    split; [intros [<-|[_ H]]; [by rewrite Hj | done] |].
    intros H. destruct (base.decide (j = i)); [by left | by right]. }
  unfold handle. cbn [fst snd].
  destruct cmd as [j t|j|j|j|j t|]; cbn [decide];
    try (destruct (get_cases state j)
      as [(todo & Hl & Hget)|[(Hl & Hin & Hget)|(Hl & Hin & Hget)]];
      rewrite Hget; cbn [status_of failed foldl evolve todos];
      try (destruct (status todo) as [[]|];
           cbn [status_of failed foldl evolve todos]);
      rewrite ?(Hsame _ _ _ Hl)).
  all: try (split; [by left | intros [H|[_ [t' H]]]; [done | discriminate H]]).
  all: try (split; [by left | intros [H|[Hout [t' H]]]; [done |]];
            injection H as <- <-; first [done | rewrite Hl; by eexists]).
  - rewrite lookup_insert_is_Some. split.
    + intros [<-|[_ H]]; [right | by left]. split; [done | by exists t].
    + intros [H|[Hout [t' H]]].
      * destruct (base.decide (j = i)); [by left | by right].
      * injection H as <- <-. by left.
Qed.


(** X25. After any sequence of commands from the initial state, whether the
    schema was consulted or not, every stored todo has the key it is stored
    under as its id, a text and a status: the object spreads of [evolve]
    never leave a field undefined. *)
Theorem stored_todo_is_complete calls i todo :
  todos (replay calls) !! i = Some todo ->
  id todo = Some i /\ is_Some (text todo) /\ is_Some (status todo).
Proof. intros Hi. by destruct (replay_sound calls i todo Hi) as [Hc _]. Qed.

(** X26. After any sequence of commands from the initial state, whether the
    schema was consulted or not, [decide] answers a command about an id that
    is not a property of [Object.prototype] with exactly one event; it does
    not throw and it does not return an empty list. *)
Theorem command_is_answered_by_one_event calls cmd ctx i :
  target cmd = Some i ->
  i ∉ inherited ->
  exists event, decide cmd (replay calls) ctx = Return [event].
Proof.
  intros Ht Hout.
  destruct cmd as [j t|j|j|j|j t|]; cbn in Ht; try discriminate Ht;
    injection Ht as ->; cbn [decide];
    (destruct (get_cases (replay calls) i)
      as [(todo & Hl & Hget)|[(Hl & Hin & Hget)|(Hl & Hin & Hget)]];
     [ | done | ]; rewrite Hget; cbn; [ | by eexists ]);
    try (destruct (replay_sound calls i todo Hl) as [(_ & _ & [s Hs]) _];
         rewrite Hs; destruct s; cbn);
    by eexists.
Qed.

(** X27. A name that plain objects inherit from [Object.prototype], such
    as "constructor", can never be the id of a todo.  In every state reached
    from the initial one no todo is stored under it, yet [AddTodo] is refused
    with "Todo already exists", and for every other command [decide] throws a
    TypeError, reading [status.kind] of what the prototype holds. *)
Theorem prototype_name_is_never_a_todo calls i t ctx :
  i ∈ inherited ->
  todos (replay calls) !! i = None /\
  decide (AddTodo i t) (replay calls) ctx
    = failed "AddTodo" "Todo already exists" /\
  decide (CompleteTodo i) (replay calls) ctx = Throw TypeError /\
  decide (ReactivateTodo i) (replay calls) ctx = Throw TypeError /\
  decide (ArchiveTodo i) (replay calls) ctx = Throw TypeError /\
  decide (UpdateTodoText i t) (replay calls) ctx = Throw TypeError.
Proof.
  intros Hin.
  assert (Hl : todos (replay calls) !! i = None).
  { destruct (todos (replay calls) !! i) as [todo|] eqn:Hl; [| done].
    by destruct (replay_sound calls i todo Hl) as [_ Hout]. }
  cbn [decide]. rewrite (get_inherited _ _ Hl Hin). by cbn.
Qed.

Lemma session_replay units calls :
  exists calls', session units calls = replay calls' /\
    forall call, call ∈ calls' <-> call ∈ calls /\ commandSchema units call.1 = true.
Proof.
  unfold session, replay. induction calls as [|call calls IH] using rev_ind.
  - exists []. split; [done |]. intros call. split; [| by intros [H _]].
    intros H. by apply elem_of_nil in H.
  - destruct IH as (calls' & Heq & Hin). rewrite foldl_snoc, Heq.
    unfold dispatched. destruct (commandSchema units call.1) eqn:Hschema.
    + exists (calls' ++ [call]). rewrite foldl_snoc. split; [done |].
      intros call'. rewrite !elem_of_app, Hin. split.
      * intros [[H Hv]|H]; [by split; [left |] |].
        inversion H as [|? ? ? Hnil]; subst; [| by inversion Hnil].
        split; [right; by constructor | done].
      * intros [[H|H] Hv]; [by left | by right].
    + exists calls'. split; [done |].
      intros call'. rewrite elem_of_app, Hin. split.
      * intros [H Hv]. by split; [left |].
      * intros [[H|H] Hv]; [done |].
        inversion H as [|? ? ? Hnil]; subst; [| by inversion Hnil]. congruence.
Qed.

(** X28. After any session from the initial state, a todo is stored under
    an id exactly when the session holds an [AddTodo] for that id that passes
    the schema, and the id is not a property of [Object.prototype]: no
    command ever removes a todo, and a command that the schema refuses
    stores none. *)
Theorem todo_exists_iff_a_valid_add_was_dispatched units calls i :
  is_Some (todos (session units calls) !! i) <->
  (i ∉ inherited) /\
  exists t ctx, (AddTodo i t, ctx) ∈ calls /\ commandSchema units (AddTodo i t) = true.
Proof.
  unfold session. induction calls as [|[cmd ctx] calls IH] using rev_ind.
  - cbn. rewrite lookup_empty. split; [by intros [? ?] |].
    intros [_ (t & c & H & _)]. by apply elem_of_nil in H.
  - rewrite foldl_snoc. unfold dispatched at 1. cbn [fst].
    destruct (commandSchema units cmd) eqn:Hschema.
    + rewrite handle_keys, IH. split.
      * intros [[Hout (t & c & H & Hv)]|[Hout [t ->]]]; (split; [done |]).
        -- exists t, c. split; [| done]. apply elem_of_app. by left.
        -- exists t, ctx. split; [| done]. apply elem_of_app. right. by constructor.
      * intros [Hout (t & c & H & Hv)]. apply elem_of_app in H as [H|H].
        -- left. split; [done | by exists t, c].
        -- inversion H as [|? ? ? Hnil]; subst; [| by inversion Hnil].
           right. split; [done | by exists t].
    + rewrite IH. split.
      * intros [Hout (t & c & H & Hv)]. split; [done |].
        exists t, c. split; [| done]. apply elem_of_app. by left.
      * intros [Hout (t & c & H & Hv)]. split; [done |].
        apply elem_of_app in H as [H|H]; [by exists t, c |].
        inversion H as [|? ? ? Hnil]; subst; [| by inversion Hnil]. congruence.
Qed.

(** X29. Completing an active todo and reactivating it restores the todo
    but not its creation time: [createdAt] of the status becomes the time of
    the reactivation. *)
Theorem reactivation_resets_the_creation_time
    state i todo createdAt done again :
  todos state !! i = Some todo ->
  status todo = Some (Active createdAt) ->
  handle (handle state (CompleteTodo i, done)) (ReactivateTodo i, again)
    = {| todos :=
           <[i := with_status todo (Active (timestamp again))]>
             (todos state) |}.
Proof.
  intros Hi Hst. unfold handle at 2. cbn [fst snd decide].
  rewrite (get_own _ _ _ Hi). cbn [status_of]. rewrite Hst.
  cbn [foldl evolve]. rewrite (get_own _ _ _ Hi). cbn [spread].
  set (state' := {| todos := _ |}).
  assert (Hi' : todos state' !! i
                = Some (with_status todo (Completed (timestamp done))))
    by apply lookup_insert_eq.
  unfold handle. cbn [fst snd decide].
  rewrite (get_own _ _ _ Hi'). cbn [status_of with_status status].
  cbn [foldl evolve]. rewrite (get_own _ _ _ Hi'). cbn [spread].
  unfold state'. cbn [todos]. by rewrite insert_insert_eq.
Qed.


Lemma stored_todo_is_complete_witness :
  let todo := {| id := Some "post"; text := Some "Send the letter";
                 status := Some (Active "2024-05-01T09:05:00.000Z") |} in
  id todo = Some "post" /\ is_Some (text todo) /\ is_Some (status todo).
Proof.
  apply (stored_todo_is_complete morning "post"). reflexivity.
Defined.

Lemma command_is_answered_by_one_event_witness :
  exists event,
    decide (CompleteTodo "post") (replay morning)
      (at_time "2024-05-01T11:00:00.000Z") = Return [event].
Proof.
  apply (command_is_answered_by_one_event morning _ _ "post");
    [reflexivity | compute_done].
Defined.

Lemma prototype_name_is_never_a_todo_witness :
  let now := at_time "2024-05-01T11:00:00.000Z" in
  todos (replay morning) !! "constructor" = None /\
  decide (AddTodo "constructor" "Build the shed") (replay morning) now
    = failed "AddTodo" "Todo already exists" /\
  decide (CompleteTodo "constructor") (replay morning) now = Throw TypeError /\
  decide (ReactivateTodo "constructor") (replay morning) now
    = Throw TypeError /\
  decide (ArchiveTodo "constructor") (replay morning) now = Throw TypeError /\
  decide (UpdateTodoText "constructor" "Build the shed") (replay morning) now
    = Throw TypeError.
Proof.
  apply (prototype_name_is_never_a_todo morning "constructor"). compute_done.
Defined.

Lemma reactivation_resets_the_creation_time_witness :
  let state := replay (take 2 morning) in
  handle (handle state (CompleteTodo "post", at_time "2024-05-01T10:00:00.000Z"))
         (ReactivateTodo "post", at_time "2024-05-01T12:00:00.000Z")
    = {| todos :=
           <["post" := {| id := Some "post"; text := Some "Send the letter";
                          status := Some (Active "2024-05-01T12:00:00.000Z") |}]>
             (todos state) |}.
Proof.
  exact (reactivation_resets_the_creation_time (replay (take 2 morning)) "post"
           {| id := Some "post"; text := Some "Send the letter";
              status := Some (Active "2024-05-01T09:05:00.000Z") |}
           "2024-05-01T09:05:00.000Z"
           (at_time "2024-05-01T10:00:00.000Z")
           (at_time "2024-05-01T12:00:00.000Z") eq_refl eq_refl).
Defined.

(** An [AddTodo] without an id and one without a text are refused by the
    schema: only the third command of the session stores a todo. *)
Example refused_add_stores_nothing :
  session String.length typos
  = {| todos :=
         {[ "rent" := {| id := Some "rent"; text := Some "Pay the rent";
                         status := Some (Active "2024-05-02T08:02:00.000Z") |} ]} |}.
Proof. vm_compute. reflexivity. Qed.

End TodoRules.
